(** * Cafe restaurant robot service: the order store, the order routes and
      the MQTT transport wrapper

    A shallow embedding of the order database module ([processOrderItems],
    [createOrder], [getPendingOrders], ...), of the order router
    ([validateOrderData] and the route handlers) and of the publishing half
    of [MQTTService], followed by the properties of the specification that
    were checked against them.

    Conventions of the model.
    - Amounts and quantities are JavaScript numbers in the source, that is,
      doubles.  The model covers the integer-valued ones, written as the
      integers they are ([Z]): a numeric field of a request is an integer
      literal when it is present, and it is read as the nearest double.
      Sums and products are rounded as the source rounds them ([Js.add],
      [Js.mul]), and [parseInt] reads a number through its text
      ([Js.parseInt]).  No magnitude reaches [2 ^ 1024], where a double
      overflows.
    - A field that is [undefined] or [null] is [None]: the source only ever
      tests such fields for truthiness.  A name or a title is a string when
      it is present.  An element of an [items] array is an object, or it is
      [null] ([ArrayWithNull]).
    - The [items] column holds JSON text; [JSON.parse (JSON.stringify l)] is
      the identity on the item objects modelled here, so the column is
      modelled as holding the list itself.
    - The MySQL connection is a synchronous in-memory table; a query never
      fails.  The schema of the tables is not part of the sources: the
      [insertId] an insertion returns is taken to be the [AUTO_INCREMENT]
      key of the table, a counter that starts at [1]. *)

From Stdlib Require Import ZArith List String Bool Lia Permutation Sorted.
Import ListNotations.
Local Open Scope string_scope.
Local Open Scope Z_scope.
Local Open Scope list_scope.

(** ** JavaScript values and truthiness *)

Module Js.

(** The scalar values a JSON body can carry for an identifier field. *)
Inductive value : Type :=
| Undefined
| Null
| Bool (b : bool)
| Num (z : Z)
| Str (s : string).

(** [!!v] *)
Definition truthy (v : value) : bool :=
  match v with
  | Undefined | Null => false
  | Bool b => b
  | Num z => negb (z =? 0)%Z
  | Str s => negb (s =? EmptyString)%string
  end.

(** [a || b] on values. *)
Definition or (a b : value) : value := if truthy a then a else b.

(** Truthiness of an optional number: absent and [0] are falsy. *)
Definition truthy_num (n : option Z) : bool :=
  match n with
  | Some z => negb (z =? 0)%Z
  | None => false
  end.

(** Truthiness of an optional string: absent and the empty string are falsy. *)
Definition truthy_str (s : option string) : bool :=
  match s with
  | Some t => negb (t =? EmptyString)%string
  | None => false
  end.

(** [a || b] where the right operand is again an optional field. *)
Definition or_num (a b : option Z) : option Z := if truthy_num a then a else b.
Definition or_str (a b : option string) : option string :=
  if truthy_str a then a else b.

(** [a || d] where [d] is a literal default. *)
Definition num_or_default (a : option Z) (d : Z) : Z :=
  match a with
  | Some z => if (z =? 0)%Z then d else z
  | None => d
  end.
Definition str_or_default (a : option string) (d : string) : string :=
  match a with
  | Some t => if (t =? EmptyString)%string then d else t
  | None => d
  end.

(** *** Numbers *)

(** The rounding every arithmetic operation on doubles ends with: to the
    nearest double, a tie going to the even significand.  Below [2 ^ 53]
    every integer is a double; above, a double is a significand of 53 bits
    times a power of two. *)
Definition round53 (z : Z) : Z :=
  let a := Z.abs z in
  if a <? 2 ^ 53 then z
  else
    let e := Z.log2 a - 52 in
    let u := 2 ^ e in
    let m := a / u in
    let r := a mod u in
    let half := u / 2 in
    let m' := if r <? half then m
              else if half <? r then m + 1
              else if Z.even m then m else m + 1 in
    Z.sgn z * (m' * u).

(** The double an integer literal denotes. *)
Definition number (z : Z) : Z := round53 z.

(** [a + b] and [a * b] on doubles. *)
Definition add (a b : Z) : Z := round53 (a + b).
Definition mul (a b : Z) : Z := round53 (a * b).

(** The integers that are doubles. *)
Definition isNumber (z : Z) : Prop := round53 z = z.

(** The first digit of a decimal numeral. *)
Fixpoint leadingDigit (fuel : nat) (s : Z) : Z :=
  match fuel with
  | O => s mod 10
  | S fuel' => if s <? 10 then s else leadingDigit fuel' (s / 10)
  end.

(** The number of digits of a decimal numeral. *)
Fixpoint countDigits (fuel : nat) (s : Z) : Z :=
  match fuel with
  | O => 1
  | S fuel' => if s <? 10 then 1 else 1 + countDigits fuel' (s / 10)
  end.

(** A numeral has no more decimal digits than binary ones. *)
Definition bits (x : Z) : nat := S (Z.to_nat (Z.log2 x)).

(** The digits [Number.prototype.toString] prints for a double [x] of
    [10 ^ 21] or more: those of the shortest decimal [s * 10 ^ (d - k)],
    with [k] digits, that denotes [x].  The candidates with [k] digits are
    the decimal expansion of [x] cut after [k] digits and its successor;
    seventeen digits always suffice. *)
Definition shortestDigits (x : Z) : Z :=
  let d := countDigits (bits x) x in
  let denotes (s p : Z) := round53 (s * p) =? x in
  match find (fun k => let p := 10 ^ (d - k) in
                       denotes (x / p) p || denotes (x / p + 1) p)
             [1; 2; 3; 4; 5; 6; 7; 8; 9; 10; 11; 12; 13; 14; 15; 16; 17] with
  | Some k => let p := 10 ^ (d - k) in
              if denotes (x / p) p then x / p else x / p + 1
  | None => x
  end.

(** [parseInt(n)] of a number: [n] is written as text and the text is read
    up to the first character that is no digit.  Below [10 ^ 21] the text is
    the decimal expansion of [n]; from there on it is in exponent form, one
    digit before the point. *)
Definition parseInt (n : Z) : Z :=
  if Z.abs n <? 10 ^ 21 then n
  else Z.sgn n * leadingDigit (bits (Z.abs n)) (shortestDigits (Z.abs n)).

(** *** The total of a request *)

(** The route does three things with the [totalPrice] of a body:
    [!totalPrice], [totalPrice <= 0] and [parseFloat(totalPrice)].  A number
    is given by its literal; any other value ([undefined], [null], a string,
    a boolean, an object) by what these three make of it, [parseFloat]
    giving [None] for [NaN]. *)
Inductive amount : Type :=
| Number (z : Z)
| NotNumber (isTruthy isLeZero : bool) (parsed : option Z).

(** [!!a] *)
Definition truthy_amount (a : amount) : bool :=
  match a with
  | Number z => negb (number z =? 0)
  | NotNumber t _ _ => t
  end.

(** [a <= 0] *)
Definition leZero (a : amount) : bool :=
  match a with
  | Number z => number z <=? 0
  | NotNumber _ l _ => l
  end.

(** [parseFloat(a)] *)
Definition parseFloat (a : amount) : option Z :=
  match a with
  | Number z => Some (number z)
  | NotNumber _ _ p => p
  end.

(** A total that is missing. *)
Definition undefined : amount := NotNumber false false None.

End Js.

Arguments Js.round53 : simpl never.
Arguments Js.parseInt : simpl never.

(** ** Items *)

(** An item object as it arrives in a request body or comes back from the
    [items] column: every field may be missing. *)
Record RawItem : Type := mkRawItem {
  raw_name : option string;
  raw_title : option string;
  raw_quantity : option Z;
  raw_count : option Z;
  raw_price : option Z
}.

(** The object [processOrderItems] builds for each distinct name. *)
Record Item : Type := mkItem {
  name : string;
  quantity : Z;
  price : Z;
  totalItemPrice : Z
}.

(** A consolidated item read again as an input object (what [JSON.parse]
    of the stored column gives back): [name], [quantity] and [price] are
    present, [title] and [count] are not, and [totalItemPrice] is never read. *)
Definition asRaw (it : Item) : RawItem :=
  {| raw_name := Some (name it);
     raw_title := None;
     raw_quantity := Some (quantity it);
     raw_count := None;
     raw_price := Some (price it) |}.

(** The [items] argument: an array of item objects, an array that holds a
    [null] somewhere (it has at least one element, and reading a field of
    that element raises), or anything else ([undefined], a non-array value,
    text that is no JSON array). *)
Inductive ItemsArg : Type :=
| NotAnArray
| ArrayOf (l : list RawItem)
| ArrayWithNull.

(** The label given to an item without a name. *)
Definition UNNAMED : string := "نامشخص".

(** [item.name || item.title || 'نامشخص'] *)
Definition itemName (item : RawItem) : string :=
  Js.str_or_default (Js.or_str (raw_name item) (raw_title item)) UNNAMED.

(** [parseFloat(item.price || 0)]: [parseFloat] gives a number back
    unchanged. *)
Definition itemPrice (item : RawItem) : Z :=
  Js.number (Js.num_or_default (raw_price item) 0).

(** [parseInt(item.quantity || item.count || 1)] *)
Definition itemQuantity (item : RawItem) : Z :=
  Js.parseInt
    (Js.number (Js.num_or_default (Js.or_num (raw_quantity item) (raw_count item)) 1)).

(** The [Map] of the source keeps its keys in insertion order, and an entry
    that is updated keeps its place: an association list. *)
Definition ItemMap : Type := list (string * Item).

Fixpoint map_has (m : ItemMap) (k : string) : bool :=
  match m with
  | [] => false
  | (k', _) :: m' => if (k' =? k)%string then true else map_has m' k
  end.

(** [existingItem.quantity += q; existingItem.totalItemPrice = price * quantity]
    on the entry found under [k]. *)
Definition addQuantity (it : Item) (q : Z) : Item :=
  {| name := name it;
     quantity := Js.add (quantity it) q;
     price := price it;
     totalItemPrice := Js.mul (price it) (Js.add (quantity it) q) |}.

Fixpoint map_bump (m : ItemMap) (k : string) (q : Z) : ItemMap :=
  match m with
  | [] => []
  | (k', it) :: m' =>
      if (k' =? k)%string then (k', addQuantity it q) :: m'
      else (k', it) :: map_bump m' k q
  end.

(** The body of [parsedItems.forEach]. *)
Definition consolidateStep (m : ItemMap) (item : RawItem) : ItemMap :=
  let n := itemName item in
  let p := itemPrice item in
  let q := itemQuantity item in
  if map_has m n then map_bump m n q
  else m ++ [(n, {| name := n; quantity := q; price := p;
                    totalItemPrice := Js.mul p q |})].

(** [Array.from(itemMap.values())] after the loop. *)
Definition consolidate (l : list RawItem) : list Item :=
  map snd (fold_left consolidateStep l []).

(** [processOrderItems]: anything that is not an array raises inside the
    [try], and so does the [null] of an array when the loop comes to it; the
    [catch] returns the empty array. *)
Definition processOrderItems (items : ItemsArg) : list Item :=
  match items with
  | NotAnArray | ArrayWithNull => []
  | ArrayOf l => consolidate l
  end.

(** [calculateTotalPrice]: the [reduce] runs left to right from [0]. *)
Definition sumPrices (l : list Item) : Z :=
  fold_left (fun total item => Js.add total (Js.mul (price item) (quantity item)))
            l 0.

Definition calculateTotalPrice (items : ItemsArg) : Z :=
  sumPrices (processOrderItems items).


(** ** The order table *)

(** A row of the [orders] table.  The [items] column holds the JSON text of
    the consolidated items. *)
Record Order : Type := mkOrder {
  order_id : Z;
  order_tableId : Js.value;
  order_tableLocation : Js.value;
  order_restaurantId : Js.value;
  order_items : list Item;
  order_totalPrice : Z;
  order_status : string;
  created_at : Z;
  updated_at : Z
}.

(** The table and its [AUTO_INCREMENT] counter. *)
Record Database : Type := mkDatabase {
  orders : list Order;
  nextInsertId : Z
}.

Definition emptyDatabase : Database := {| orders := []; nextInsertId := 1 |}.

(** The argument of [createOrder].  The field [data_totalPrice] is the
    caller's total: [createOrder] does not destructure it. *)
Record OrderData : Type := mkOrderData {
  data_tableId : Js.value;
  data_tableLocation : Js.value;
  data_restaurantId : Js.value;
  data_items : ItemsArg;
  data_totalPrice : option Z
}.

(** [createOrder]: [INSERT ... VALUES (?, ?, ?, ?, ?, 'pending', NOW(), NOW())]
    and [resolve(result.insertId)]. *)
Definition createOrder (db : Database) (now : Z) (orderData : OrderData)
  : Database * Z :=
  let processedItems := processOrderItems (data_items orderData) in
  let calculatedTotalPrice := calculateTotalPrice (data_items orderData) in
  let insertId := nextInsertId db in
  let row :=
    {| order_id := insertId;
       order_tableId := data_tableId orderData;
       order_tableLocation := data_tableLocation orderData;
       order_restaurantId := data_restaurantId orderData;
       order_items := processedItems;
       order_totalPrice := calculatedTotalPrice;
       order_status := "pending";
       created_at := now;
       updated_at := now |} in
  ({| orders := orders db ++ [row]; nextInsertId := insertId + 1 |}, insertId).

(** What the read functions resolve with: the row with its [items] parsed
    and consolidated again, plus [totalItems]. *)
Record FetchedOrder : Type := mkFetched {
  fetched : Order;
  totalItems : Z
}.

(** [parsedItems.reduce((sum, item) => sum + item.quantity, 0)] *)
Definition sumQuantities (l : list Item) : Z :=
  fold_left (fun sum item => Js.add sum (quantity item)) l 0.

(** The [rows.map(order => ...)] shared by every read function. *)
Definition withParsedItems (order : Order) : FetchedOrder :=
  let parsedItems := processOrderItems (ArrayOf (map asRaw (order_items order))) in
  {| fetched :=
       {| order_id := order_id order;
          order_tableId := order_tableId order;
          order_tableLocation := order_tableLocation order;
          order_restaurantId := order_restaurantId order;
          order_items := parsedItems;
          order_totalPrice := order_totalPrice order;
          order_status := order_status order;
          created_at := created_at order;
          updated_at := updated_at order |};
     totalItems := sumQuantities parsedItems |}.

(** [SELECT * FROM orders WHERE id = ?] and [rows[0]]. *)
Definition selectById (db : Database) (orderId : Z) : option Order :=
  find (fun o => order_id o =? orderId) (orders db).

Definition getOrderById (db : Database) (orderId : Z) : option FetchedOrder :=
  match selectById db orderId with
  | None => None
  | Some order => Some (withParsedItems order)
  end.

(** [UPDATE orders SET status = ?, updated_at = NOW() WHERE id = ?] *)
Definition setStatus (newStatus : string) (now : Z) (o : Order) : Order :=
  {| order_id := order_id o;
     order_tableId := order_tableId o;
     order_tableLocation := order_tableLocation o;
     order_restaurantId := order_restaurantId o;
     order_items := order_items o;
     order_totalPrice := order_totalPrice o;
     order_status := newStatus;
     created_at := created_at o;
     updated_at := now |}.

Definition updateOrderStatus (db : Database) (now : Z) (orderId : Z)
  (newStatus : string) : Database :=
  {| orders :=
       map (fun o => if order_id o =? orderId then setStatus newStatus now o else o)
           (orders db);
     nextInsertId := nextInsertId db |}.

(** [UPDATE orders SET items = ?, totalPrice = ?, updated_at = NOW() WHERE id = ?] *)
Definition setItems (items : list Item) (total : Z) (now : Z) (o : Order) : Order :=
  {| order_id := order_id o;
     order_tableId := order_tableId o;
     order_tableLocation := order_tableLocation o;
     order_restaurantId := order_restaurantId o;
     order_items := items;
     order_totalPrice := total;
     order_status := order_status o;
     created_at := created_at o;
     updated_at := now |}.

Definition updateOrderItems (db : Database) (now : Z) (orderId : Z)
  (newItems : ItemsArg) : Database :=
  let processedItems := processOrderItems newItems in
  let calculatedTotalPrice :=
    fold_left (fun total item => Js.add total (Js.mul (price item) (quantity item)))
              processedItems 0 in
  {| orders :=
       map (fun o => if order_id o =? orderId
                     then setItems processedItems calculatedTotalPrice now o
                     else o)
           (orders db);
     nextInsertId := nextInsertId db |}.

(** [ORDER BY created_at ASC]: a stable insertion sort on the creation time. *)
Fixpoint insertByCreatedAt (o : Order) (l : list Order) : list Order :=
  match l with
  | [] => [o]
  | x :: l' =>
      if created_at o <=? created_at x then o :: l
      else x :: insertByCreatedAt o l'
  end.

Definition orderByCreatedAtAsc (l : list Order) : list Order :=
  fold_right insertByCreatedAt [] l.

(** [WHERE status NOT IN ('completed', 'cancelled', 'delivered')] *)
Definition notPending : list string := ["completed"; "cancelled"; "delivered"].

Definition statusIn (l : list string) (s : string) : bool :=
  existsb (fun x => (s =? x)%string) l.

Definition getPendingOrders (db : Database) : list FetchedOrder :=
  let rows :=
    orderByCreatedAtAsc
      (filter (fun o => negb (statusIn notPending (order_status o))) (orders db)) in
  map withParsedItems rows.

(** ** The MQTT service: publishing *)

Definition ROBOT_ORDERS : string := "/cafe/robot/orders/next".
Definition SYSTEM_STATUS : string := "/cafe/system/status".
Definition EMERGENCY : string := "/cafe/emergency".
Definition ORDERS_NEW : string := "/cafe/orders/new".
Definition ORDERS_STATUS_UPDATE : string := "/cafe/orders/status".

(** The messages the modelled methods build. *)
Inductive Payload : Type :=
| RobotOrder (orderId : Z) (tableNumber : Js.value) (items : list Item)
             (totalPrice : Z) (priority : string)
| StatusUpdate (order_id : Z) (old_status new_status : string)
| NewOrder (id : Z) (status : string) (items : list Item)
| SystemStatus (status : string)
| EmergencyStop.

(** Events pushed to the dashboards with [io.emit]. *)
Inductive IoEvent : Type :=
| new_order_created (orderId : Z)
| order_sent_to_robot (success : bool) (orderId : Z)
| mqtt_warning (orderId : Z)
| order_status_updated (orderId : Z) (oldStatus newStatus : string)
                       (automated : bool).

(** What a call does to the outside world, in program order. *)
Inductive Effect : Type :=
| ClientPublish (topic : string) (payload : Payload) (qos : Z)
                (retain dup : bool)
| ServiceEmit (event : string)
| IoEmit (e : IoEvent).

Inductive PublishError : Type :=
| NotConnected
| ClientError.

(** How the promise of a publishing method settles. *)
Inductive Outcome : Type :=
| Resolved
| Rejected (error : PublishError).

(** The part of the service object the publishing methods read:
    [isConnected], and what the client library will answer in the callback
    of [client.publish]. *)
Record MQTTService : Type := mkService {
  isConnected : bool;
  clientAccepts : bool
}.

Record PublishOptions : Type := mkOptions {
  opt_qos : option Z;
  opt_retain : option bool;
  opt_dup : option bool
}.

Definition noOptions : PublishOptions :=
  {| opt_qos := None; opt_retain := None; opt_dup := None |}.

Definition bool_or_false (b : option bool) : bool :=
  match b with
  | Some x => x
  | None => false
  end.

(** [publish(topic, data, options = {})] *)
Definition publish (svc : MQTTService) (topic : string) (data : Payload)
  (options : PublishOptions) : Outcome * list Effect :=
  if negb (isConnected svc) then (Rejected NotConnected, [])
  else
    let qos := Js.num_or_default (opt_qos options) 1 in
    let retain := bool_or_false (opt_retain options) in
    let dup := bool_or_false (opt_dup options) in
    (if clientAccepts svc then Resolved else Rejected ClientError,
     [ClientPublish topic data qos retain dup]).

(** [publishOrderStatusUpdate(orderId, oldStatus, newStatus)] *)
Definition publishOrderStatusUpdate (svc : MQTTService) (orderId : Z)
  (oldStatus newStatus : string) : Outcome * list Effect :=
  if negb (isConnected svc) then (Rejected NotConnected, [])
  else publish svc ORDERS_STATUS_UPDATE
               (StatusUpdate orderId oldStatus newStatus) noOptions.

(** [publishNewOrder(orderData)]: the [newOrder] event follows the awaited
    publish. *)
Definition publishNewOrder (svc : MQTTService) (order : Order)
  : Outcome * list Effect :=
  if negb (isConnected svc) then (Rejected NotConnected, [])
  else
    match publish svc ORDERS_NEW
                  (NewOrder (order_id order) (order_status order)
                            (order_items order)) noOptions with
    | (Resolved, t) => (Resolved, t ++ [ServiceEmit "newOrder"])
    | (Rejected e, t) => (Rejected e, t)
    end.

(** The object the status route hands to [sendOrderToRobot]; of its fields
    the identity, the table, the items, the total and the priority are kept. *)
Record RobotOrderData : Type := mkRobotOrderData {
  robot_id : Z;
  robot_table_id : Js.value;
  robot_items : list Item;
  robot_total_price : Z;
  robot_priority : option string
}.

(** [sendOrderToRobot(orderData)] *)
Definition sendOrderToRobot (svc : MQTTService) (orderData : RobotOrderData)
  : Outcome * list Effect :=
  if negb (isConnected svc) then (Rejected NotConnected, [])
  else publish svc ROBOT_ORDERS
               (RobotOrder (robot_id orderData) (robot_table_id orderData)
                           (robot_items orderData)
                           (robot_total_price orderData)
                           (Js.str_or_default (robot_priority orderData) "normal"))
               noOptions.

(** [publishSystemStatus(status)] *)
Definition publishSystemStatus (svc : MQTTService) (status : string)
  : Outcome * list Effect :=
  publish svc SYSTEM_STATUS (SystemStatus status)
          {| opt_qos := None; opt_retain := Some true; opt_dup := None |}.

(** [emergencyStop()] *)
Definition emergencyStop (svc : MQTTService) : Outcome * list Effect :=
  publish svc EMERGENCY EmergencyStop
          {| opt_qos := Some 2; opt_retain := None; opt_dup := None |}.

(** ** The order router *)

(** The two module variables of the router.  [io] tells whether
    [setSocketIO] has run.  The service object is shared with the
    connection callbacks, which flip [isConnected] while a handler is
    suspended in an [await]: [mqttService] gives, when [setMQTTService] has
    run, the state of the service at each successive look a handler takes
    at it (look [0], look [1], ...). *)
Record Router : Type := mkRouter {
  io : bool;
  mqttService : option (nat -> MQTTService)
}.

(** [mqttService && mqttService.isConnected] at look [k]. *)
Definition connectedAt (r : Router) (k : nat) : bool :=
  match mqttService r with
  | Some svc => isConnected (svc k)
  | None => false
  end.

(** [if (io) { io.emit(...) }] *)
Definition ioEmit (r : Router) (e : IoEvent) : list Effect :=
  if io r then [IoEmit e] else [].

(** The body of [POST /submit]. *)
Record SubmitBody : Type := mkSubmitBody {
  body_tableId : Js.value;
  body_tableLocation : Js.value;
  body_restaurantId : Js.value;
  body_items : ItemsArg;
  body_totalPrice : Js.amount
}.

(** The [orderData] echoed by a successful submission. *)
Record SubmitEcho : Type := mkSubmitEcho {
  echo_id : Z;
  echo_tableId : Js.value;
  echo_items : ItemsArg;
  echo_totalPrice : option Z;
  echo_status : string
}.

Inductive Body : Type :=
| Failure (message : string)
| OrderSubmitted (orderId : Z) (orderData : SubmitEcho)
| StatusUpdated (orderId : Z) (oldStatus newStatus : string)
                (robotNotified : option bool)
| OrderCancelled (orderId : Z)
| StatusAutoUpdated (orderId : Z) (oldStatus newStatus source : string).

(** A response: the HTTP status and the JSON body; [success] is the
    [success] field of the body. *)
Record Response : Type := mkResponse {
  code : Z;
  body : Body
}.

Definition success (res : Response) : bool :=
  match body res with
  | Failure _ => false
  | _ => true
  end.

Definition fail (c : Z) (message : string) : Response :=
  {| code := c; body := Failure message |}.

Inductive Validation : Type :=
| Valid
| Invalid (message : string).

(** [validateOrderData({ tableId, items, totalPrice })] *)
Definition validateOrderData (tableId : Js.value) (items : ItemsArg)
  (totalPrice : Js.amount) : Validation :=
  if negb (Js.truthy tableId) then Invalid "Table ID is required"
  else
    match items with
    | NotAnArray | ArrayOf [] =>
        Invalid "Items array is required and cannot be empty"
    | ArrayOf (_ :: _) | ArrayWithNull =>
        if negb (Js.truthy_amount totalPrice) || Js.leZero totalPrice
        then Invalid "Total price must be greater than 0"
        else Valid
    end.

(** The [items.map(item => ...)] of the submit route. *)
Definition routeItem (item : RawItem) : RawItem :=
  {| raw_name := Some (itemName item);
     raw_title := None;
     raw_quantity :=
       Some (Js.number
               (Js.num_or_default (Js.or_num (raw_quantity item) (raw_count item)) 1));
     raw_count := None;
     raw_price := Some (itemPrice item) |}.

(** What the route does once the body is valid and its items are mapped. *)
Definition submitValid (r : Router) (db : Database) (now : Z)
  (req : SubmitBody) (processedItems : ItemsArg)
  : Database * Response * list Effect :=
  let orderData :=
    {| data_tableId := body_tableId req;
       data_tableLocation := Js.or (body_tableLocation req) Js.Null;
       data_restaurantId := Js.or (body_restaurantId req) Js.Null;
       data_items := processedItems;
       data_totalPrice := Js.parseFloat (body_totalPrice req) |} in
  let (db', orderId) := createOrder db now orderData in
  let fullOrder := getOrderById db' orderId in
  let published :=
    if connectedAt r 0 then
      match mqttService r, fullOrder with
      | Some svc, Some f => snd (publishNewOrder (svc 0%nat) (fetched f))
      | _, _ => []
      end
    else [] in
  (db',
   {| code := 201;
      body := OrderSubmitted orderId
                {| echo_id := orderId;
                   echo_tableId := body_tableId req;
                   echo_items := processedItems;
                   echo_totalPrice := Js.parseFloat (body_totalPrice req);
                   echo_status := "pending" |} |},
   published ++ ioEmit r (new_order_created orderId)).

(** [POST /submit].  The [items.map] raises on a [null] element; the
    [catch] of the route then answers [500], before anything is stored or
    sent. *)
Definition post_submit (r : Router) (db : Database) (now : Z)
  (req : SubmitBody) : Database * Response * list Effect :=
  match validateOrderData (body_tableId req) (body_items req)
                          (body_totalPrice req) with
  | Invalid message => (db, fail 400 message, [])
  | Valid =>
      match body_items req with
      | ArrayWithNull => (db, fail 500 "Failed to save order", [])
      | ArrayOf items => submitValid r db now req (ArrayOf (map routeItem items))
      | NotAnArray => submitValid r db now req NotAnArray
      end
  end.

Definition allowedStatuses : list string :=
  ["pending"; "preparing"; "ready"; "delivered"; "cancelled"].

(** The agent dispatch of the status route: the [if ... else if ...] that
    follows the status publication. *)
Definition dispatchToRobot (r : Router) (orderId : Z) (status : string)
  (updatedOrder : option FetchedOrder) : list Effect :=
  if (status =? "ready")%string && connectedAt r 1 then
    match mqttService r, updatedOrder with
    | Some svc, Some u =>
        let robotOrderData :=
          {| robot_id := order_id (fetched u);
             robot_table_id := order_tableId (fetched u);
             robot_items := order_items (fetched u);
             robot_total_price := order_totalPrice (fetched u);
             robot_priority := Some "normal" |} in
        match sendOrderToRobot (svc 1%nat) robotOrderData with
        | (Resolved, t) => t ++ ioEmit r (order_sent_to_robot true orderId)
        | (Rejected _, t) => t ++ ioEmit r (order_sent_to_robot false orderId)
        end
    | _, _ => ioEmit r (order_sent_to_robot false orderId)
    end
  else if (status =? "ready")%string && negb (connectedAt r 1) then
    ioEmit r (mqtt_warning orderId)
  else [].

(** [status === 'ready' && mqttService && mqttService.isConnected] in the
    response; [None] when the expression is [undefined] and the key is left
    out of the JSON body. *)
Definition robotNotifiedField (r : Router) (status : string) : option bool :=
  if (status =? "ready")%string then
    match mqttService r with
    | Some svc => Some (isConnected (svc 2%nat))
    | None => None
    end
  else Some false.

(** The block both the status route and the delete route run after the
    table update: publish the change when the service is there and
    connected; a failure is caught and logged. *)
Definition publishStatusChange (r : Router) (orderId : Z)
  (oldStatus newStatus : string) : list Effect :=
  if connectedAt r 0 then
    match mqttService r with
    | Some svc =>
        snd (publishOrderStatusUpdate (svc 0%nat) orderId oldStatus newStatus)
    | None => []
    end
  else [].

(** [PUT /:orderId/status] *)
Definition put_status (r : Router) (db : Database) (now : Z) (orderId : Z)
  (status : option string) : Database * Response * list Effect :=
  match status with
  | None => (db, fail 400 "Status is required", [])
  | Some status =>
      if (status =? EmptyString)%string then (db, fail 400 "Status is required", [])
      else if negb (statusIn allowedStatuses status) then
        (db,
         fail 400 "Invalid status. Allowed: pending, preparing, ready, delivered, cancelled",
         [])
      else
        match getOrderById db orderId with
        | None => (db, fail 404 "Order not found", [])
        | Some existingOrder =>
            let oldStatus := order_status (fetched existingOrder) in
            let db' := updateOrderStatus db now orderId status in
            let updatedOrder := getOrderById db' orderId in
            let published := publishStatusChange r orderId oldStatus status in
            (db',
             {| code := 200;
                body := StatusUpdated orderId oldStatus status
                          (robotNotifiedField r status) |},
             published
               ++ dispatchToRobot r orderId status updatedOrder
               ++ ioEmit r (order_status_updated orderId oldStatus status false))
        end
  end.

(** [DELETE /:orderId] *)
Definition delete_order (r : Router) (db : Database) (now : Z) (orderId : Z)
  : Database * Response * list Effect :=
  match getOrderById db orderId with
  | None => (db, fail 404 "Order not found", [])
  | Some existingOrder =>
      let oldStatus := order_status (fetched existingOrder) in
      let db' := updateOrderStatus db now orderId "cancelled" in
      let published := publishStatusChange r orderId oldStatus "cancelled" in
      (db',
       {| code := 200; body := OrderCancelled orderId |},
       published ++ ioEmit r (order_status_updated orderId oldStatus "cancelled" false))
  end.

(** The body of [POST /auto-update-status]. *)
Record AutoUpdateBody : Type := mkAutoUpdateBody {
  auto_orderId : option Z;
  auto_status : option string;
  auto_source : option string
}.

Definition allowedAutoStatuses : list string := ["delivered"].

(** [POST /auto-update-status] *)
Definition post_auto_update_status (r : Router) (db : Database) (now : Z)
  (req : AutoUpdateBody) : Database * Response * list Effect :=
  if negb (Js.truthy_num (auto_orderId req)) || negb (Js.truthy_str (auto_status req))
  then (db, fail 400 "Order ID and status are required", [])
  else
    match auto_orderId req, auto_status req with
    | Some orderId, Some status =>
        match getOrderById db orderId with
        | None => (db, fail 404 "Order not found", [])
        | Some existingOrder =>
            if negb (statusIn allowedAutoStatuses status) then
              (db, fail 400 "This status cannot be auto-updated", [])
            else
              let oldStatus := order_status (fetched existingOrder) in
              let db' := updateOrderStatus db now orderId status in
              (db',
               {| code := 200;
                  body := StatusAutoUpdated orderId oldStatus status
                            (Js.str_or_default (auto_source req) "robot") |},
               ioEmit r (order_status_updated orderId oldStatus status true))
        end
    | _, _ => (db, fail 400 "Order ID and status are required", [])
    end.

(** The three components of what a handler returns. *)
Definition database (out : Database * Response * list Effect) : Database :=
  fst (fst out).
Definition response (out : Database * Response * list Effect) : Response :=
  snd (fst out).
Definition effects (out : Database * Response * list Effect) : list Effect :=
  snd out.

(** The number of messages handed to the client library on the agent
    dispatch topic. *)
Definition isDispatch (e : Effect) : bool :=
  match e with
  | ClientPublish topic _ _ _ _ => (topic =? ROBOT_ORDERS)%string
  | _ => false
  end.

Definition dispatchCount (t : list Effect) : nat :=
  List.length (filter isDispatch t).

(** The databases the store functions can produce. *)
Inductive reachable : Database -> Prop :=
| reach_empty : reachable emptyDatabase
| reach_create db now orderData :
    reachable db -> reachable (fst (createOrder db now orderData))
| reach_status db now orderId newStatus :
    reachable db -> reachable (updateOrderStatus db now orderId newStatus)
| reach_items db now orderId newItems :
    reachable db -> reachable (updateOrderItems db now orderId newItems).

(** ** The specification's reading of consolidation *)

(** The distinct names of a sequence, each at the place of its first
    occurrence. *)
Fixpoint firstOccurrences (l : list string) : list string :=
  match l with
  | [] => []
  | n :: l' => n :: filter (fun m => negb (m =? n)%string) (firstOccurrences l')
  end.

(** The items of [x] that carry the name [n]. *)
Definition group (n : string) (x : list RawItem) : list RawItem :=
  filter (fun item => (itemName item =? n)%string) x.

(** The summed quantity of a group, its items taken in order, and the
    price of its first item. *)
Definition groupQuantity (n : string) (x : list RawItem) : Z :=
  match map itemQuantity (group n x) with
  | [] => 0
  | q :: qs => fold_left Js.add qs q
  end.

Definition groupPrice (n : string) (x : list RawItem) : Z :=
  match group n x with
  | item :: _ => itemPrice item
  | [] => 0
  end.

(** The line the specification gives the name [n]. *)
Definition specEntry (x : list RawItem) (n : string) : Item :=
  {| name := n;
     quantity := groupQuantity n x;
     price := groupPrice n x;
     totalItemPrice := Js.mul (groupPrice n x) (groupQuantity n x) |}.

(** Consolidation as the specification words it: one line per distinct
    name, in first-occurrence order, with the quantities of the group summed
    and the line total recomputed from the sum. *)
Definition consolidateSpec (x : list RawItem) : list Item :=
  map (specEntry x) (firstOccurrences (map itemName x)).

(** What a second pass reads in a consolidated item: the quantity goes
    through [parseInt(item.quantity || item.count || 1)] again, the price
    through [parseFloat(item.price || 0)]. *)
Definition reread (it : Item) : Item :=
  {| name := name it;
     quantity := itemQuantity (asRaw it);
     price := itemPrice (asRaw it);
     totalItemPrice := Js.mul (itemPrice (asRaw it)) (itemQuantity (asRaw it)) |}.

(** Sum of [f] over the items, as a plain recursive sum. *)
Fixpoint sigma (f : Item -> Z) (l : list Item) : Z :=
  match l with
  | [] => 0
  | item :: l' => f item + sigma f l'
  end.

Definition lineTotal (item : Item) : Z := price item * quantity item.

(** Sum of [g] over a list. *)
Definition zsum {A : Type} (g : A -> Z) (l : list A) : Z :=
  fold_right (fun a s => g a + s) 0 l.

(** The lines of a bill whose amounts stay in the range where the
    arithmetic of doubles is exact. *)
Definition exactBill (l : list Item) : Prop :=
  zsum (fun item => Z.abs (price item * quantity item)) l < 2 ^ 53.

(** The quantities of an input that stay in that range. *)
Definition exactQuantities (x : list RawItem) : Prop :=
  zsum (fun item => Z.abs (itemQuantity item)) x < 2 ^ 53.



(** What a write leaves in a row it touches: the consolidated items, and
    their total as the reduction of the source computes it. *)
Definition recomputed (items : ItemsArg) (row : Order) : Prop :=
  order_items row = processOrderItems items
  /\ order_totalPrice row = sumPrices (order_items row)
  /\ (exactBill (order_items row) ->
      order_totalPrice row = sigma lineTotal (order_items row)).

(** Every identifier was handed out by the counter, which starts at [1]. *)
Definition idsBelow (db : Database) : Prop :=
  Forall (fun o => 1 <= order_id o < nextInsertId db) (orders db).

(** The writes of the store that touch the items of an order. *)
Inductive ItemsWrite : Type :=
| Create (orderData : OrderData)
| Replace (orderId : Z) (newItems : ItemsArg).

Definition applyWrite (db : Database) (now : Z) (w : ItemsWrite) : Database :=
  match w with
  | Create orderData => fst (createOrder db now orderData)
  | Replace orderId newItems => updateOrderItems db now orderId newItems
  end.

Definition writtenItems (w : ItemsWrite) : ItemsArg :=
  match w with
  | Create orderData => data_items orderData
  | Replace _ newItems => newItems
  end.

(** The same write with another total supplied by the caller. *)
Definition withCallerTotal (t : option Z) (w : ItemsWrite) : ItemsWrite :=
  match w with
  | Create orderData =>
      Create {| data_tableId := data_tableId orderData;
                data_tableLocation := data_tableLocation orderData;
                data_restaurantId := data_restaurantId orderData;
                data_items := data_items orderData;
                data_totalPrice := t |}
  | Replace orderId newItems => Replace orderId newItems
  end.

(** Oldest first. *)
Definition oldestFirst (l : list FetchedOrder) : Prop :=
  StronglySorted (fun a b => created_at (fetched a) <= created_at (fetched b)) l.

(** Sample data for the worked instances below. *)
Definition tea (q p : Z) : RawItem :=
  {| raw_name := Some "Tea"; raw_title := None; raw_quantity := Some q;
     raw_count := None; raw_price := Some p |}.

Definition teaOrder (total : option Z) (items : list RawItem) : OrderData :=
  {| data_tableId := Js.Num 4;
     data_tableLocation := Js.Null;
     data_restaurantId := Js.Null;
     data_items := ArrayOf items;
     data_totalPrice := total |}.

(** The status a read of the order shows. *)
Definition statusOf (db : Database) (orderId : Z) : option string :=
  option_map (fun f => order_status (fetched f)) (getOrderById db orderId).

(** A table with one order, and the same order in a given status. *)
Definition cafe : Database :=
  fst (createOrder emptyDatabase 10 (teaOrder None [tea 1 2; tea 2 2])).

Definition cafeWith (status : string) : Database :=
  updateOrderStatus cafe 11 1 status.

(** A wired router whose service is connected, or disconnected, at every
    look. *)
Definition online : Router :=
  {| io := true;
     mqttService := Some (fun _ => {| isConnected := true; clientAccepts := true |}) |}.

Definition offline : Router :=
  {| io := true;
     mqttService := Some (fun _ => {| isConnected := false; clientAccepts := true |}) |}.

(** The rejection rule of the specification for a submission: no table
    identifier, items that are not a non-empty collection, or no
    consolidated item with a quantity of at least [1]. *)
Definition specRejectsSubmit (req : SubmitBody) : bool :=
  negb (Js.truthy (body_tableId req))
  || match body_items req with
     | NotAnArray | ArrayOf [] => true
     | items =>
         negb (existsb (fun it => 1 <=? quantity it) (processOrderItems items))
     end.

(** The answer to a body that fails validation. *)
Definition isValidationError (res : Response) : bool :=
  negb (success res) && (code res =? 400).

Definition teaRequest (total : option Z) (items : list RawItem) : SubmitBody :=
  {| body_tableId := Js.Num 4;
     body_tableLocation := Js.Undefined;
     body_restaurantId := Js.Undefined;
     body_items := ArrayOf items;
     body_totalPrice := match total with
                        | Some t => Js.Number t
                        | None => Js.undefined
                        end |}.

(** The same body with another total. *)
Definition withTotal (total : Js.amount) (req : SubmitBody) : SubmitBody :=
  {| body_tableId := body_tableId req;
     body_tableLocation := body_tableLocation req;
     body_restaurantId := body_restaurantId req;
     body_items := body_items req;
     body_totalPrice := total |}.

(** * The rest of the store, of the router and of the service *)

(** ** More reads of the order table *)

(** [ORDER BY created_at DESC]: the insertion sort again, newest first. *)
Fixpoint insertByCreatedAtDesc (o : Order) (l : list Order) : list Order :=
  match l with
  | [] => [o]
  | x :: l' =>
      if created_at x <=? created_at o then o :: l
      else x :: insertByCreatedAtDesc o l'
  end.

Definition orderByCreatedAtDesc (l : list Order) : list Order :=
  fold_right insertByCreatedAtDesc [] l.

(** [getAllOrders]: [SELECT * FROM orders ORDER BY created_at DESC]. *)
Definition getAllOrders (db : Database) : list FetchedOrder :=
  map withParsedItems (orderByCreatedAtDesc (orders db)).

(** [getRecentOrders(limit)]: the same query with [LIMIT ?]; the limit is a
    row count. *)
Definition getRecentOrders (db : Database) (limit : nat) : list FetchedOrder :=
  map withParsedItems (firstn limit (orderByCreatedAtDesc (orders db))).

(** Newest first. *)
Definition newestFirst (l : list FetchedOrder) : Prop :=
  StronglySorted (fun a b => created_at (fetched b) <= created_at (fetched a)) l.

(** What [GET /:orderId] answers. *)
Inductive OrderReply : Type :=
| OrderFound (order : FetchedOrder)
| OrderMissing (code : Z) (message : string).

(** [GET /:orderId] *)
Definition get_order (db : Database) (orderId : Z) : OrderReply :=
  match getOrderById db orderId with
  | None => OrderMissing 404 "Order not found"
  | Some order => OrderFound order
  end.

(** ** The writing routes as one server *)

Inductive Request : Type :=
| PostSubmit (req : SubmitBody)
| PutStatus (orderId : Z) (status : option string)
| DeleteOrder (orderId : Z)
| PostAutoUpdate (req : AutoUpdateBody).

Definition handle (r : Router) (db : Database) (now : Z) (q : Request)
  : Database * Response * list Effect :=
  match q with
  | PostSubmit req => post_submit r db now req
  | PutStatus orderId status => put_status r db now orderId status
  | DeleteOrder orderId => delete_order r db now orderId
  | PostAutoUpdate req => post_auto_update_status r db now req
  end.

(** The tables the router can bring about, starting from the empty one:
    the router never calls [updateOrderItems]. *)
Inductive served : Database -> Prop :=
| served_start : served emptyDatabase
| served_request r db now q :
    served db -> served (database (handle r db now q)).

(** The dashboard events of a trace. *)
Definition ioEvents (t : list Effect) : list IoEvent :=
  flat_map (fun e => match e with IoEmit ev => [ev] | _ => [] end) t.

(** The messages of a trace handed to the client library. *)
Definition isClientPublish (e : Effect) : bool :=
  match e with
  | ClientPublish _ _ _ _ _ => true
  | _ => false
  end.

Definition clientPublishes (t : list Effect) : list Effect :=
  filter isClientPublish t.

(** ** The connection of the service *)

Definition ROBOT_STATUS : string := "/cafe/robot/status".
Definition ROBOT_LOCATION : string := "/cafe/robot/location".
Definition ROBOT_FEEDBACK : string := "/cafe/robot/feedback".
Definition KITCHEN_STATUS : string := "/cafe/kitchen/status".
Definition DELIVERY_COMPLETE : string := "/cafe/delivery/complete".
Definition DELIVERY_STATUS : string := "/cafe/delivery/status".
Definition ROS_ODOM : string := "/odom".
Definition ROS_RESULT : string := "/move_base/result".

(** The topics of [subscribeToTopics]. *)
Definition topicsToSubscribe : list string :=
  [ROBOT_STATUS; ROBOT_LOCATION; ROBOT_FEEDBACK; DELIVERY_COMPLETE;
   DELIVERY_STATUS; KITCHEN_STATUS; EMERGENCY; ROS_ODOM; ROS_RESULT;
   "/cafe/robot/+"; "/cafe/orders/+"; "/cafe/system/+"].

(** The service object with its reconnection counters. *)
Record Link : Type := mkLink {
  service : MQTTService;
  reconnectAttempts : nat;
  maxReconnectAttempts : nat
}.

(** [new MQTTService()] before any event. *)
Definition newLink (accepts : bool) : Link :=
  {| service := {| isConnected := false; clientAccepts := accepts |};
     reconnectAttempts := 0;
     maxReconnectAttempts := 10 |}.

(** What the connection handlers do besides changing the object. *)
Inductive LinkAction : Type :=
| Subscribed (topic : string) (qos : Z)
| Did (e : Effect)
| ReconnectIn (delay : Z)
| ClientCreated
| ClientEnded.

Definition setConnected (l : Link) (b : bool) : Link :=
  {| service := {| isConnected := b; clientAccepts := clientAccepts (service l) |};
     reconnectAttempts := reconnectAttempts l;
     maxReconnectAttempts := maxReconnectAttempts l |}.

(** [Math.min(5000 * this.reconnectAttempts, 30000)] *)
Definition reconnectDelay (attempts : nat) : Z :=
  Z.min (5000 * Z.of_nat attempts) 30000.

(** [handleReconnection()] *)
Definition handleReconnection (l : Link) : Link * list LinkAction :=
  if (reconnectAttempts l <? maxReconnectAttempts l)%nat then
    let attempts := S (reconnectAttempts l) in
    ({| service := service l;
        reconnectAttempts := attempts;
        maxReconnectAttempts := maxReconnectAttempts l |},
     [ReconnectIn (reconnectDelay attempts)])
  else (l, [Did (ServiceEmit "maxReconnectAttemptsReached")]).

(** [haystack.includes(needle)] *)
Fixpoint includes (haystack needle : string) : bool :=
  if String.prefix needle haystack then true
  else match haystack with
       | EmptyString => false
       | String _ rest => includes rest needle
       end.

(** The events of the client and the reconnection timer. *)
Inductive ClientEvent : Type :=
| OnConnect
| OnError (message : string)
| OnClose
| OnOffline
| OnReconnect
| TimerFired (initRaises : bool).

(** The handlers of [setupEventHandlers], and the callback of the timer
    set by [handleReconnection], which calls [init] when the service is
    still disconnected: [init] creates a client, or, when that raises,
    calls [handleReconnection] from its [catch]. *)
Definition onEvent (l : Link) (ev : ClientEvent) : Link * list LinkAction :=
  match ev with
  | OnConnect =>
      let l' :=
        {| service := {| isConnected := true;
                         clientAccepts := clientAccepts (service l) |};
           reconnectAttempts := 0;
           maxReconnectAttempts := maxReconnectAttempts l |} in
      (l',
       map (fun topic => Subscribed topic 1) topicsToSubscribe
         ++ map Did (snd (publishSystemStatus (service l') "online"))
         ++ [Did (ServiceEmit "connected")])
  | OnError message =>
      let l' := setConnected l false in
      let failed :=
        if includes message "Not authorized" || includes message "Connection refused"
        then [Did (ServiceEmit "authenticationFailed")]
        else [] in
      let (l'', t) := handleReconnection l' in
      (l'', failed ++ t)
  | OnClose => handleReconnection (setConnected l false)
  | OnOffline => (setConnected l false, [])
  | OnReconnect => (l, [])
  | TimerFired initRaises =>
      if negb (isConnected (service l)) then
        if initRaises then handleReconnection l else (l, [ClientCreated])
      else (l, [])
  end.

(** A run of events, with everything done along the way. *)
Fixpoint runEvents (l : Link) (evs : list ClientEvent) : Link * list LinkAction :=
  match evs with
  | [] => (l, [])
  | ev :: evs' =>
      let (l', t) := onEvent l ev in
      let (l'', t') := runEvents l' evs' in
      (l'', t ++ t')
  end.

(** The delays of the timers set in a run. *)
Definition delaysOf (t : list LinkAction) : list Z :=
  flat_map (fun a => match a with ReconnectIn d => [d] | _ => [] end) t.

(** [disconnect()]: the [offline] notice is awaited, so the client is ended
    only when the notice went through. *)
Definition disconnect (l : Link) : list LinkAction :=
  if isConnected (service l) then
    match publishSystemStatus (service l) "offline" with
    | (Resolved, t) => map Did t ++ [ClientEnded]
    | (Rejected _, t) => map Did t
    end
  else [].

(** ** The users table and its router *)

Record User : Type := mkUser {
  user_id : Z;
  user_name : option string;
  user_role : option string;
  user_created_at : Z;
  user_updated_at : Z
}.

Record UserTable : Type := mkUserTable {
  users : list User
}.

(** [updateUser(id, user)] *)
Definition updateUser (tbl : UserTable) (now : Z) (id : Z)
  (n role : option string) : UserTable :=
  {| users :=
       map (fun u => if user_id u =? id
                     then {| user_id := user_id u; user_name := n;
                             user_role := role;
                             user_created_at := user_created_at u;
                             user_updated_at := now |}
                     else u) (users tbl) |}.

(** [deleteUser(id)] *)
Definition deleteUser (tbl : UserTable) (id : Z) : UserTable :=
  {| users := filter (fun u => negb (user_id u =? id)) (users tbl) |}.

(** What the routes of the user router answer. *)
Inductive UserReply : Type :=
| UserAdded (id : Z)
| UserUpdated
| UserDeleted
| UserRefused (code : Z) (message : string).

(** [PUT /update/:id] *)
Definition put_update_user (tbl : UserTable) (now : Z) (id : Z)
  (n role : option string) : UserTable * UserReply :=
  (updateUser tbl now id n role, UserUpdated).

(** [DELETE /delete/:id] *)
Definition delete_user (tbl : UserTable) (id : Z) : UserTable * UserReply :=
  (deleteUser tbl id, UserDeleted).

(** ** What every order of a served table satisfies *)

(** A line as consolidation leaves it. *)
Definition lineOk (it : Item) : Prop :=
  name it <> EmptyString
  /\ totalItemPrice it = Js.mul (price it) (quantity it)
  /\ Js.isNumber (price it)
  /\ Js.isNumber (quantity it).

Definition orderOk (o : Order) : Prop :=
  statusIn allowedStatuses (order_status o) = true
  /\ order_items o <> []
  /\ order_totalPrice o = sumPrices (order_items o)
  /\ NoDup (map name (order_items o))
  /\ Forall lineOk (order_items o).

Definition tableOk (db : Database) : Prop := Forall orderOk (orders db).

(** Two rows that differ at most in their status and update time. *)
Definition sameButStatus (o o' : Order) : Prop :=
  order_id o' = order_id o
  /\ order_tableId o' = order_tableId o
  /\ order_tableLocation o' = order_tableLocation o
  /\ order_restaurantId o' = order_restaurantId o
  /\ order_items o' = order_items o
  /\ order_totalPrice o' = order_totalPrice o
  /\ created_at o' = created_at o.

(** ** Reading traces *)

Definition isStatusUpdate (ev : IoEvent) : bool :=
  match ev with
  | order_status_updated _ _ _ _ => true
  | _ => false
  end.

(** Whether a request is the automated one. *)
Definition isAutomated (q : Request) : bool :=
  match q with
  | PostAutoUpdate _ => true
  | _ => false
  end.

Definition isSubmit (q : Request) : bool :=
  match q with
  | PostSubmit _ => true
  | _ => false
  end.

(** ** The publishing methods side by side *)

Inductive PublishCall : Type :=
| CallStatusUpdate (orderId : Z) (oldStatus newStatus : string)
| CallNewOrder (order : Order)
| CallSendOrder (orderData : RobotOrderData)
| CallSystemStatus (status : string)
| CallEmergencyStop.

Definition perform (svc : MQTTService) (c : PublishCall) : Outcome * list Effect :=
  match c with
  | CallStatusUpdate orderId oldStatus newStatus =>
      publishOrderStatusUpdate svc orderId oldStatus newStatus
  | CallNewOrder order => publishNewOrder svc order
  | CallSendOrder orderData => sendOrderToRobot svc orderData
  | CallSystemStatus status => publishSystemStatus svc status
  | CallEmergencyStop => emergencyStop svc
  end.

(** The topic, quality of service and retain flag each method uses. *)
Definition topicOf (c : PublishCall) : string :=
  match c with
  | CallStatusUpdate _ _ _ => ORDERS_STATUS_UPDATE
  | CallNewOrder _ => ORDERS_NEW
  | CallSendOrder _ => ROBOT_ORDERS
  | CallSystemStatus _ => SYSTEM_STATUS
  | CallEmergencyStop => EMERGENCY
  end.

Definition qosOf (c : PublishCall) : Z :=
  match c with
  | CallEmergencyStop => 2
  | _ => 1
  end.

Definition retainOf (c : PublishCall) : bool :=
  match c with
  | CallSystemStatus _ => true
  | _ => false
  end.

(** The events that always call [handleReconnection]. *)
Definition isFailure (ev : ClientEvent) : bool :=
  match ev with
  | OnError _ | OnClose => true
  | _ => false
  end.

(** Whether the handler of an event calls [handleReconnection]: an error
    and a close do, and so does a timer whose [init] raises while the
    service is disconnected. *)
Definition callsReconnection (l : Link) (ev : ClientEvent) : bool :=
  match ev with
  | OnError _ | OnClose => true
  | TimerFired initRaises => initRaises && negb (isConnected (service l))
  | _ => false
  end.

(** The number of calls of [handleReconnection] in a run that starts
    connected or not. *)
Fixpoint reconnectionCalls (connected : bool) (evs : list ClientEvent) : nat :=
  match evs with
  | [] => O
  | OnError _ :: evs' | OnClose :: evs' => S (reconnectionCalls false evs')
  | OnOffline :: evs' => reconnectionCalls false evs'
  | OnConnect :: evs' => reconnectionCalls true evs'
  | OnReconnect :: evs' => reconnectionCalls connected evs'
  | TimerFired initRaises :: evs' =>
      ((if initRaises && negb connected then 1 else 0)
       + reconnectionCalls connected evs')%nat
  end.

Definition isConnect (ev : ClientEvent) : bool :=
  match ev with
  | OnConnect => true
  | _ => false
  end.


(** * Properties *)

(** ** Numbers *)

Section Numbers.

Lemma round53_small (z : Z) : Z.abs z < 2 ^ 53 -> Js.round53 z = z.
Proof.
  intros H. unfold Js.round53.
  destruct (Z.ltb_spec (Z.abs z) (2 ^ 53)); [reflexivity | lia].
Qed.

(** A rounded number of [2 ^ 53] or more is a significand of 53 bits times
    a power of two. *)
Lemma round53_large (z : Z) :
  2 ^ 53 <= Z.abs z ->
  exists e m, 1 <= e /\ 2 ^ 52 <= m <= 2 ^ 53
              /\ Js.round53 z = Z.sgn z * (m * 2 ^ e).
Proof.
  intros H. unfold Js.round53.
  destruct (Z.ltb_spec (Z.abs z) (2 ^ 53)) as [Hlt | _]; [lia |].
  set (a := Z.abs z) in *.
  assert (Ha : 0 < a) by (assert (0 < 2 ^ 53) by (apply Z.pow_pos_nonneg; lia); lia).
  destruct (Z.log2_spec a Ha) as [Hlo Hhi].
  assert (Hl : 53 <= Z.log2 a).
  { apply Z.log2_le_pow2; [exact Ha | exact H]. }
  set (e := Z.log2 a - 52) in *.
  assert (He : 1 <= e) by (unfold e; lia).
  assert (Hu : 0 < 2 ^ e) by (apply Z.pow_pos_nonneg; lia).
  assert (Hlo' : 2 ^ 52 * 2 ^ e <= a).
  { rewrite <- Z.pow_add_r by lia. replace (52 + e) with (Z.log2 a) by (unfold e; lia).
    exact Hlo. }
  assert (Hhi' : a < 2 ^ 53 * 2 ^ e).
  { rewrite <- Z.pow_add_r by lia.
    replace (53 + e) with (Z.succ (Z.log2 a)) by (unfold e; lia). exact Hhi. }
  assert (Hm1 : 2 ^ 52 <= a / 2 ^ e).
  { apply Z.div_le_lower_bound; [exact Hu | lia]. }
  assert (Hm2 : a / 2 ^ e < 2 ^ 53).
  { apply Z.div_lt_upper_bound; [exact Hu | lia]. }
  exists e.
  eexists. split; [exact He |]. split; [| reflexivity].
  destruct (_ <? _); [lia |]. destruct (_ <? _); [lia |]. destruct (Z.even _); lia.
Qed.

Lemma round53_fixed (s m e : Z) :
  s = 1 \/ s = -1 -> 1 <= e -> 2 ^ 52 <= m < 2 ^ 53 ->
  Js.round53 (s * (m * 2 ^ e)) = s * (m * 2 ^ e).
Proof.
  intros Hs He Hm.
  assert (Hu : 0 < 2 ^ e) by (apply Z.pow_pos_nonneg; lia).
  assert (Hu1 : 2 ^ 1 <= 2 ^ e) by (apply Z.pow_le_mono_r; lia).
  assert (H52 : 0 < 2 ^ 52) by (apply Z.pow_pos_nonneg; lia).
  assert (H2e : 2 ^ 53 <= m * 2 ^ e).
  { replace (2 ^ 53) with (2 ^ 52 * 2 ^ 1) by reflexivity. nia. }
  assert (Hab : Z.abs (s * (m * 2 ^ e)) = m * 2 ^ e) by (destruct Hs; subst s; lia).
  assert (Hsg : Z.sgn (s * (m * 2 ^ e)) = s) by (destruct Hs; subst s; lia).
  assert (Hlog : Z.log2 (m * 2 ^ e) - 52 = e).
  { rewrite Z.log2_mul_pow2 by lia.
    assert (Z.log2 m = 52); [| lia].
    apply Z.log2_unique; [lia |]. change (Z.succ 52) with 53. lia. }
  assert (Hh : 0 < 2 ^ e / 2).
  { replace e with (1 + (e - 1)) by lia. rewrite Z.pow_add_r by lia.
    change (2 ^ 1) with 2. rewrite Z.mul_comm, Z.div_mul by lia.
    apply Z.pow_pos_nonneg; lia. }
  unfold Js.round53. rewrite Hab, Hsg, Hlog.
  destruct (Z.ltb_spec (m * 2 ^ e) (2 ^ 53)) as [Hc | _]; [lia |].
  rewrite Z.div_mul, Z.mod_mul by lia.
  destruct (Z.ltb_spec 0 (2 ^ e / 2)); [reflexivity | lia].
Qed.

(** Rounding a double changes nothing. *)
Lemma round53_idem (z : Z) : Js.round53 (Js.round53 z) = Js.round53 z.
Proof.
  destruct (Z.lt_ge_cases (Z.abs z) (2 ^ 53)) as [Hs | Hl].
  - rewrite !(round53_small z Hs). reflexivity.
  - destruct (round53_large z Hl) as (e & m & He & Hm & ->).
    assert (Hz : z <> 0) by (assert (0 < 2 ^ 53) by (apply Z.pow_pos_nonneg; lia); lia).
    assert (Hs : Z.sgn z = 1 \/ Z.sgn z = -1) by lia.
    destruct (Z.eq_dec m (2 ^ 53)) as [-> | Hne].
    + replace (2 ^ 53 * 2 ^ e) with (2 ^ 52 * 2 ^ (e + 1)).
      * apply round53_fixed; [exact Hs | lia |].
        split; [lia | apply Z.pow_lt_mono_r; lia].
      * rewrite Z.pow_add_r by lia.
        replace (2 ^ 53) with (2 ^ 52 * 2 ^ 1) by reflexivity. ring.
    + apply round53_fixed; [exact Hs | lia | lia].
Qed.

Lemma round53_abs_large (z : Z) :
  2 ^ 53 <= Z.abs z -> 2 ^ 53 <= Z.abs (Js.round53 z).
Proof.
  intros Hl. destruct (round53_large z Hl) as (e & m & He & Hm & ->).
  assert (Hz : z <> 0) by (assert (0 < 2 ^ 53) by (apply Z.pow_pos_nonneg; lia); lia).
  assert (Hu : 2 ^ 1 <= 2 ^ e) by (apply Z.pow_le_mono_r; lia).
  assert (H52 : 0 < 2 ^ 52) by (apply Z.pow_pos_nonneg; lia).
  assert (2 ^ 53 <= m * 2 ^ e).
  { replace (2 ^ 53) with (2 ^ 52 * 2 ^ 1) by reflexivity. nia. }
  destruct z; cbn [Z.sgn]; lia.
Qed.

Lemma round53_zero (z : Z) : Js.round53 z = 0 <-> z = 0.
Proof.
  split; [| intros ->; reflexivity].
  intros H. destruct (Z.lt_ge_cases (Z.abs z) (2 ^ 53)) as [Hs | Hl].
  - rewrite round53_small in H by exact Hs. exact H.
  - apply round53_abs_large in Hl. rewrite H in Hl. simpl in Hl.
    assert (0 < 2 ^ 53) by (apply Z.pow_pos_nonneg; lia). lia.
Qed.

Lemma isNumber_small (z : Z) : Z.abs z < 2 ^ 53 -> Js.isNumber z.
Proof. apply round53_small. Qed.

Lemma number_isNumber (z : Z) : Js.isNumber (Js.number z).
Proof. apply round53_idem. Qed.

Lemma add_isNumber (a b : Z) : Js.isNumber (Js.add a b).
Proof. apply round53_idem. Qed.

Lemma mul_isNumber (a b : Z) : Js.isNumber (Js.mul a b).
Proof. apply round53_idem. Qed.

(** Within [2 ^ 53] sums and products are exact. *)
Lemma add_exact (a b : Z) : Z.abs (a + b) < 2 ^ 53 -> Js.add a b = a + b.
Proof. apply round53_small. Qed.

Lemma mul_exact (a b : Z) : Z.abs (a * b) < 2 ^ 53 -> Js.mul a b = a * b.
Proof. apply round53_small. Qed.

Lemma leadingDigit_range (fuel : nat) (s : Z) :
  0 <= s -> 0 <= Js.leadingDigit fuel s < 10.
Proof.
  revert s. induction fuel as [|fuel IH]; intros s Hs; simpl.
  - apply Z.mod_pos_bound. lia.
  - destruct (Z.ltb_spec s 10) as [Hlt|Hge]; [lia|].
    apply IH. apply Z.div_pos; lia.
Qed.

Lemma shortestDigits_nonneg (x : Z) : 0 <= x -> 0 <= Js.shortestDigits x.
Proof.
  intros Hx. unfold Js.shortestDigits.
  destruct (find _ _) as [k|]; [|exact Hx].
  assert (Hp : 0 <= x / 10 ^ (Js.countDigits (Js.bits x) x - k)).
  { destruct (Z.le_gt_cases 0 (Js.countDigits (Js.bits x) x - k)) as [Hk|Hk].
    - apply Z.div_pos; [exact Hx | apply Z.pow_pos_nonneg; lia].
    - rewrite Z.pow_neg_r by lia. rewrite Z.div_0_r. lia. }
  destruct (_ =? _); lia.
Qed.

Lemma parseInt_small (n : Z) : Z.abs n < 10 ^ 21 -> Js.parseInt n = n.
Proof.
  intros H. unfold Js.parseInt.
  destruct (Z.ltb_spec (Z.abs n) (10 ^ 21)); [reflexivity | lia].
Qed.

(** From [10 ^ 21] on, [parseInt] reads a single digit. *)
Lemma parseInt_large (n : Z) : 10 ^ 21 <= Z.abs n -> Z.abs (Js.parseInt n) <= 9.
Proof.
  intros H. unfold Js.parseInt.
  destruct (Z.ltb_spec (Z.abs n) (10 ^ 21)); [lia|].
  pose proof (leadingDigit_range (Js.bits (Z.abs n)) (Js.shortestDigits (Z.abs n))
                (shortestDigits_nonneg _ (Z.abs_nonneg n))) as Hd.
  destruct n; cbn [Z.sgn]; lia.
Qed.

Lemma parseInt_fixed (n : Z) : Js.parseInt n = n <-> Z.abs n < 10 ^ 21.
Proof.
  split; [|apply parseInt_small].
  intros H. destruct (Z.lt_ge_cases (Z.abs n) (10 ^ 21)) as [Hlt|Hge]; [exact Hlt|].
  pose proof (parseInt_large n Hge) as H9. rewrite H in H9.
  assert (9 < 10 ^ 21) by reflexivity. lia.
Qed.

Lemma parseInt_isNumber (n : Z) : Js.isNumber n -> Js.isNumber (Js.parseInt n).
Proof.
  intros Hn. destruct (Z.lt_ge_cases (Z.abs n) (10 ^ 21)) as [Hlt|Hge].
  - rewrite parseInt_small by exact Hlt. exact Hn.
  - apply isNumber_small. pose proof (parseInt_large n Hge).
    assert (9 < 2 ^ 53) by reflexivity. lia.
Qed.

End Numbers.

(** ** Consolidation *)

Section Consolidation.

Example tea_twice :
  processOrderItems
    (ArrayOf [mkRawItem (Some "Tea") None (Some 1) None (Some 2);
              mkRawItem (Some "Tea") None (Some 2) None (Some 2)])
  = [mkItem "Tea" 3 2 6].
Proof. reflexivity. Qed.

(** The numbers of the source at work: a product that is no double is
    rounded, and [parseInt] reads [1e21] as [1]. *)
Example rounding_at_work :
  Js.mul 94906267 94906267 = 9007199515875288
  /\ Js.add (2 ^ 53) 1 = 2 ^ 53
  /\ Js.parseInt (Js.add (5 * 10 ^ 20) (5 * 10 ^ 20)) = 1
  /\ Js.parseInt (Js.number (10 ^ 23)) = 1
  /\ Js.parseInt (2 ^ 70) = 1.
Proof. repeat split; vm_compute; reflexivity. Qed.

Lemma UNNAMED_nonempty : UNNAMED <> EmptyString.
Proof. discriminate. Qed.

Lemma itemName_nonempty (item : RawItem) : itemName item <> EmptyString.
Proof.
  unfold itemName, Js.str_or_default.
  destruct (Js.or_str (raw_name item) (raw_title item)) as [t|].
  - destruct (String.eqb_spec t EmptyString) as [_|Hne].
    + exact UNNAMED_nonempty.
    + exact Hne.
  - exact UNNAMED_nonempty.
Qed.

Lemma itemPrice_isNumber (item : RawItem) : Js.isNumber (itemPrice item).
Proof. apply number_isNumber. Qed.

Lemma itemQuantity_isNumber (item : RawItem) : Js.isNumber (itemQuantity item).
Proof. apply parseInt_isNumber, number_isNumber. Qed.

Lemma map_has_In (m : ItemMap) (k : string) :
  map_has m k = true <-> In k (map fst m).
Proof.
  induction m as [|[k' it] m IH]; simpl.
  - split; [discriminate | tauto].
  - destruct (String.eqb_spec k' k) as [->|Hne].
    + tauto.
    + rewrite IH. split; [tauto | intros [H|H]; [contradiction | exact H]].
Qed.

Lemma map_has_fresh (m : ItemMap) (k : string) :
  ~ In k (map fst m) -> map_has m k = false.
Proof.
  intros H. destruct (map_has m k) eqn:E; [|reflexivity].
  apply map_has_In in E. contradiction.
Qed.

(** With distinct keys, updating the first entry found under [k] is
    updating every entry under [k]. *)
Lemma map_bump_map (m : ItemMap) (k : string) (q : Z) :
  NoDup (map fst m) ->
  map_bump m k q =
  map (fun kv => if (fst kv =? k)%string
                 then (fst kv, addQuantity (snd kv) q) else kv) m.
Proof.
  induction m as [|[k' it] m IH]; simpl; intros Hnd.
  - reflexivity.
  - inversion Hnd as [|? ? Hnotin Hnd']; subst.
    destruct (String.eqb_spec k' k) as [->|Hne].
    + f_equal. symmetry. rewrite <- (map_id m) at 2.
      apply map_ext_in. intros [k2 it2] Hin. simpl.
      destruct (String.eqb_spec k2 k) as [->|]; [|reflexivity].
      exfalso. apply Hnotin. apply (in_map fst) in Hin. exact Hin.
    + f_equal. apply IH. exact Hnd'.
Qed.

Lemma firstOccurrences_In (n : string) (l : list string) :
  In n (firstOccurrences l) <-> In n l.
Proof.
  induction l as [|m l IH]; simpl; [tauto|].
  rewrite filter_In, IH.
  destruct (String.eqb_spec n m) as [->|Hne]; simpl.
  - split; [intros [H|[_ H]]; [auto | discriminate] | auto].
  - split.
    + intros [H|[H _]]; auto.
    + intros [H|H]; [auto | right; auto].
Qed.

Lemma firstOccurrences_NoDup (l : list string) : NoDup (firstOccurrences l).
Proof.
  induction l as [|m l IH]; simpl; constructor.
  - rewrite filter_In. intros [_ H].
    rewrite String.eqb_refl in H. discriminate.
  - apply NoDup_filter, IH.
Qed.

Lemma filter_comm {A : Type} (f g : A -> bool) (l : list A) :
  filter f (filter g l) = filter g (filter f l).
Proof.
  induction l as [|a l IH]; simpl; [reflexivity|].
  destruct (f a) eqn:Ef, (g a) eqn:Eg; simpl; rewrite ?Ef, ?Eg, IH; reflexivity.
Qed.

Lemma firstOccurrences_snoc_removed (l : list string) (m : string) :
  ~ In m l ->
  filter (fun x => negb (x =? m)%string) (firstOccurrences (l ++ [m]))
  = filter (fun x => negb (x =? m)%string) (firstOccurrences l).
Proof.
  induction l as [|a l IH]; simpl; intros Hl.
  - rewrite String.eqb_refl. reflexivity.
  - destruct (String.eqb_spec a m) as [->|Hne]; [tauto|]. simpl.
    f_equal. rewrite filter_comm, IH by tauto. apply filter_comm.
Qed.

Lemma firstOccurrences_snoc_old (l : list string) (n : string) :
  In n l -> firstOccurrences (l ++ [n]) = firstOccurrences l.
Proof.
  induction l as [|m l IH]; simpl; [tauto|].
  intros Hin. f_equal.
  destruct (String.eqb_spec n m) as [->|Hne].
  - destruct (in_dec string_dec m l) as [Hl|Hl].
    + rewrite IH by exact Hl. reflexivity.
    + apply firstOccurrences_snoc_removed, Hl.
  - rewrite IH; [reflexivity|]. destruct Hin as [H|H]; [congruence | exact H].
Qed.

Lemma firstOccurrences_snoc_new (l : list string) (n : string) :
  ~ In n l -> firstOccurrences (l ++ [n]) = firstOccurrences l ++ [n].
Proof.
  induction l as [|m l IH]; simpl; intros Hnot; [reflexivity|].
  f_equal. rewrite IH by tauto.
  rewrite filter_app. simpl.
  destruct (String.eqb_spec n m) as [->|Hne]; [tauto | reflexivity].
Qed.

Lemma group_app (n : string) (x y : list RawItem) :
  group n (x ++ y) = group n x ++ group n y.
Proof. apply filter_app. Qed.

Lemma group_absent (n : string) (x : list RawItem) :
  ~ In n (map itemName x) -> group n x = [].
Proof.
  induction x as [|a x IH]; simpl; intros Hnot; [reflexivity|].
  destruct (String.eqb_spec (itemName a) n) as [E|_]; [tauto|].
  apply IH. tauto.
Qed.

Lemma group_present (n : string) (x : list RawItem) :
  In n (map itemName x) -> group n x <> [].
Proof.
  induction x as [|a x IH]; simpl; [tauto|].
  intros Hin. destruct (String.eqb_spec (itemName a) n) as [E|Hne].
  - discriminate.
  - apply IH. destruct Hin as [H|H]; [contradiction | exact H].
Qed.

Lemma groupQuantity_snoc_other (n : string) (x : list RawItem) (a : RawItem) :
  itemName a <> n -> groupQuantity n (x ++ [a]) = groupQuantity n x.
Proof.
  intros Hne. unfold groupQuantity. rewrite group_app.
  unfold group at 2. simpl.
  destruct (String.eqb_spec (itemName a) n) as [E|_]; [contradiction|].
  rewrite app_nil_r. reflexivity.
Qed.

Lemma groupQuantity_snoc_same (x : list RawItem) (a : RawItem) :
  In (itemName a) (map itemName x) ->
  groupQuantity (itemName a) (x ++ [a]) =
  Js.add (groupQuantity (itemName a) x) (itemQuantity a).
Proof.
  intros Hin. apply group_present in Hin.
  unfold groupQuantity. rewrite group_app.
  unfold group at 2. simpl. rewrite String.eqb_refl.
  destruct (group (itemName a) x) as [|g gs]; [contradiction|].
  simpl. rewrite map_app, fold_left_app. reflexivity.
Qed.

Lemma groupQuantity_snoc_new (x : list RawItem) (a : RawItem) :
  ~ In (itemName a) (map itemName x) ->
  groupQuantity (itemName a) (x ++ [a]) = itemQuantity a.
Proof.
  intros Hnot. unfold groupQuantity.
  rewrite group_app, (group_absent _ _ Hnot).
  unfold group. simpl. rewrite String.eqb_refl. reflexivity.
Qed.

Lemma groupPrice_snoc_old (n : string) (x : list RawItem) (a : RawItem) :
  In n (map itemName x) -> groupPrice n (x ++ [a]) = groupPrice n x.
Proof.
  intros Hin. apply group_present in Hin.
  unfold groupPrice. rewrite group_app.
  destruct (group n x); [contradiction | reflexivity].
Qed.

Lemma groupPrice_snoc_new (x : list RawItem) (a : RawItem) :
  ~ In (itemName a) (map itemName x) ->
  groupPrice (itemName a) (x ++ [a]) = itemPrice a.
Proof.
  intros Hnot. unfold groupPrice.
  rewrite group_app, (group_absent _ _ Hnot).
  unfold group. simpl. rewrite String.eqb_refl. reflexivity.
Qed.

Lemma specEntry_snoc_other (x : list RawItem) (a : RawItem) (k : string) :
  k <> itemName a -> In k (map itemName x) -> specEntry (x ++ [a]) k = specEntry x k.
Proof.
  intros Hne Hin. unfold specEntry.
  rewrite groupQuantity_snoc_other by congruence.
  rewrite (groupPrice_snoc_old _ _ _ Hin). reflexivity.
Qed.

Lemma specEntry_snoc_same (x : list RawItem) (a : RawItem) :
  In (itemName a) (map itemName x) ->
  specEntry (x ++ [a]) (itemName a) =
  addQuantity (specEntry x (itemName a)) (itemQuantity a).
Proof.
  intros Hin. unfold specEntry, addQuantity. simpl.
  rewrite (groupQuantity_snoc_same _ _ Hin), (groupPrice_snoc_old _ _ _ Hin).
  reflexivity.
Qed.

Lemma specEntry_snoc_new (x : list RawItem) (a : RawItem) :
  ~ In (itemName a) (map itemName x) ->
  specEntry (x ++ [a]) (itemName a) =
  {| name := itemName a; quantity := itemQuantity a; price := itemPrice a;
     totalItemPrice := Js.mul (itemPrice a) (itemQuantity a) |}.
Proof.
  intros Hnot. unfold specEntry.
  rewrite (groupQuantity_snoc_new _ _ Hnot), (groupPrice_snoc_new _ _ Hnot).
  reflexivity.
Qed.

(** The map built by the loop, entry by entry. *)
Lemma fold_consolidateStep (x : list RawItem) :
  fold_left consolidateStep x [] =
  map (fun n => (n, specEntry x n)) (firstOccurrences (map itemName x)).
Proof.
  induction x as [|a x IH] using rev_ind; [reflexivity|].
  rewrite fold_left_app. simpl. rewrite IH. unfold consolidateStep.
  set (F := firstOccurrences (map itemName x)).
  assert (Hkeys : map fst (map (fun n => (n, specEntry x n)) F) = F).
  { rewrite map_map. simpl. apply map_id. }
  rewrite map_app. simpl.
  destruct (in_dec string_dec (itemName a) (map itemName x)) as [Hin|Hnot].
  - assert (HinF : In (itemName a) F) by (apply firstOccurrences_In, Hin).
    rewrite (proj2 (map_has_In _ _)) by (rewrite Hkeys; exact HinF).
    rewrite (firstOccurrences_snoc_old _ _ Hin). fold F.
    rewrite map_bump_map by (rewrite Hkeys; apply firstOccurrences_NoDup).
    rewrite map_map. apply map_ext_in. intros k Hk. simpl.
    destruct (String.eqb_spec k (itemName a)) as [->|Hne].
    + rewrite specEntry_snoc_same by exact Hin. reflexivity.
    + rewrite specEntry_snoc_other; [reflexivity | exact Hne |].
      apply firstOccurrences_In. exact Hk.
  - assert (HnotF : ~ In (itemName a) F).
    { intros H. apply Hnot. apply firstOccurrences_In. exact H. }
    rewrite map_has_fresh by (rewrite Hkeys; exact HnotF).
    rewrite (firstOccurrences_snoc_new _ _ Hnot). fold F.
    rewrite map_app. simpl. rewrite (specEntry_snoc_new _ _ Hnot).
    f_equal. apply map_ext_in. intros k Hk.
    rewrite specEntry_snoc_other; [reflexivity | | apply firstOccurrences_In; exact Hk].
    intros ->. contradiction.
Qed.

(** The code computes the specification's consolidation. *)
Lemma consolidate_refines (x : list RawItem) : consolidate x = consolidateSpec x.
Proof.
  unfold consolidate, consolidateSpec.
  rewrite fold_consolidateStep, map_map. reflexivity.
Qed.

(** What every consolidated sequence satisfies. *)
Lemma consolidate_names (x : list RawItem) :
  map name (consolidate x) = firstOccurrences (map itemName x).
Proof.
  rewrite consolidate_refines. unfold consolidateSpec.
  rewrite map_map. apply map_id.
Qed.

Lemma consolidate_names_NoDup (x : list RawItem) :
  NoDup (map name (consolidate x)).
Proof. rewrite consolidate_names. apply firstOccurrences_NoDup. Qed.

Lemma consolidate_names_nonempty (x : list RawItem) :
  Forall (fun it => name it <> EmptyString) (consolidate x).
Proof.
  apply Forall_forall. intros it Hin.
  apply (in_map name) in Hin. rewrite consolidate_names in Hin.
  apply firstOccurrences_In, in_map_iff in Hin.
  destruct Hin as [item [<- _]]. apply itemName_nonempty.
Qed.

Lemma fold_add_isNumber (qs : list Z) (q : Z) :
  Js.isNumber q -> Js.isNumber (fold_left Js.add qs q).
Proof.
  revert q. induction qs as [|a qs IH]; intros q Hq; simpl; [exact Hq|].
  apply IH, add_isNumber.
Qed.

Lemma groupQuantity_isNumber (n : string) (x : list RawItem) :
  Js.isNumber (groupQuantity n x).
Proof.
  unfold groupQuantity. destruct (group n x) as [|g gs]; simpl.
  - reflexivity.
  - apply fold_add_isNumber, itemQuantity_isNumber.
Qed.

Lemma groupPrice_isNumber (n : string) (x : list RawItem) :
  Js.isNumber (groupPrice n x).
Proof.
  unfold groupPrice. destruct (group n x) as [|g gs].
  - reflexivity.
  - apply itemPrice_isNumber.
Qed.

(** Every consolidated line has a name, a line total that is the product of
    its price and quantity as the source computes it, and numbers that are
    doubles. *)
Lemma consolidate_lines (x : list RawItem) : Forall lineOk (consolidate x).
Proof.
  pose proof (consolidate_names_nonempty x) as Hn.
  rewrite consolidate_refines in *. unfold consolidateSpec in *.
  rewrite Forall_forall in *. intros it Hin. split; [apply Hn, Hin|].
  apply in_map_iff in Hin. destruct Hin as [n [<- _]]. simpl.
  split; [reflexivity|].
  split; [apply groupPrice_isNumber | apply groupQuantity_isNumber].
Qed.

Lemma itemName_asRaw (it : Item) :
  name it <> EmptyString -> itemName (asRaw it) = name it.
Proof.
  intros Hne. unfold itemName, asRaw, Js.or_str, Js.truthy_str. simpl.
  destruct (String.eqb_spec (name it) EmptyString) as [E|_]; [contradiction|].
  simpl. destruct (String.eqb_spec (name it) EmptyString) as [E|_];
    [contradiction | reflexivity].
Qed.

Lemma itemPrice_asRaw (it : Item) :
  Js.isNumber (price it) -> itemPrice (asRaw it) = price it.
Proof.
  intros Hp. unfold itemPrice, asRaw. simpl.
  destruct (Z.eqb_spec (price it) 0) as [E|_]; [rewrite E; reflexivity | exact Hp].
Qed.

Lemma itemQuantity_asRaw (it : Item) :
  Js.isNumber (quantity it) ->
  itemQuantity (asRaw it) = if quantity it =? 0 then 1 else Js.parseInt (quantity it).
Proof.
  intros Hq. unfold itemQuantity, asRaw, Js.or_num, Js.truthy_num. simpl.
  destruct (Z.eqb_spec (quantity it) 0) as [E|Hne]; simpl; [reflexivity|].
  destruct (Z.eqb_spec (quantity it) 0); [contradiction|].
  unfold Js.number. rewrite Hq. reflexivity.
Qed.

(** A second pass over items with distinct, non-empty names merges
    nothing: it rereads every item in place. *)
Lemma fold_asRaw (l : list Item) :
  forall m : ItemMap,
    NoDup (map fst m ++ map name l) ->
    Forall (fun it => name it <> EmptyString) l ->
    fold_left consolidateStep (map asRaw l) m =
    m ++ map (fun it => (name it, reread it)) l.
Proof.
  induction l as [|a l IH]; intros m Hnd Hne; simpl.
  - symmetry. apply app_nil_r.
  - inversion Hne as [|? ? Ha Hl]; subst.
    unfold consolidateStep at 2.
    rewrite (itemName_asRaw _ Ha).
    rewrite map_has_fresh.
    + rewrite IH; [| |exact Hl].
      * rewrite <- app_assoc. reflexivity.
      * rewrite map_app, <- app_assoc. exact Hnd.
    + simpl in Hnd. apply NoDup_remove_2 in Hnd.
      intros Hin. apply Hnd. apply in_or_app. left. exact Hin.
Qed.

Lemma consolidate_asRaw (l : list Item) :
  NoDup (map name l) ->
  Forall (fun it => name it <> EmptyString) l ->
  consolidate (map asRaw l) = map reread l.
Proof.
  intros Hnd Hne. unfold consolidate.
  rewrite (fold_asRaw l []) by assumption.
  simpl. rewrite map_map. reflexivity.
Qed.

Lemma map_fixed {A : Type} (f : A -> A) (l : list A) :
  map f l = l <-> Forall (fun a => f a = a) l.
Proof.
  induction l as [|a l IH]; simpl.
  - split; [constructor | reflexivity].
  - split.
    + intros H. injection H as Ha Hl. constructor; [exact Ha | apply IH, Hl].
    + intros H. inversion H as [|? ? Ha Hl]; subst.
      rewrite Ha. f_equal. apply IH, Hl.
Qed.

(** A consolidated line is read back unchanged exactly when its quantity
    is not [0], which is read as a missing quantity, and is below
    [10 ^ 21], from where on [parseInt] reads a single digit. *)
Lemma reread_fixed (it : Item) :
  lineOk it ->
  (reread it = it <-> quantity it <> 0 /\ Z.abs (quantity it) < 10 ^ 21).
Proof.
  intros (_ & Ht & Hp & Hq). unfold reread.
  rewrite (itemPrice_asRaw it Hp), (itemQuantity_asRaw it Hq).
  destruct it as [n q p t]. simpl in *. subst t.
  destruct (Z.eqb_spec q 0) as [->|Hne].
  - split; [intros H; injection H; discriminate | intros [H _]; contradiction].
  - rewrite <- parseInt_fixed. split.
    + intros H. injection H as Hq' _. split; [exact Hne | exact Hq'].
    + intros [_ Hq']. rewrite Hq'. reflexivity.
Qed.

(** Consolidating twice changes nothing exactly when every consolidated
    line has a quantity that is not [0] and is below [10 ^ 21]. *)
Lemma consolidate_twice (x : list RawItem) :
  consolidate (map asRaw (consolidate x)) = consolidate x <->
  Forall (fun it => quantity it <> 0 /\ Z.abs (quantity it) < 10 ^ 21)
         (consolidate x).
Proof.
  rewrite consolidate_asRaw
    by (apply consolidate_names_NoDup || apply consolidate_names_nonempty).
  rewrite map_fixed.
  pose proof (consolidate_lines x) as Ht.
  rewrite !Forall_forall in *.
  split; intros H it Hin; apply (reread_fixed it (Ht it Hin)), H, Hin.
Qed.

Lemma zsum_nonneg {A : Type} (g : A -> Z) (l : list A) :
  (forall a, 0 <= g a) -> 0 <= zsum g l.
Proof.
  intros Hg. induction l as [|a l IH]; simpl; [lia|].
  specialize (Hg a). lia.
Qed.

(** Sums that stay within [2 ^ 53] are exact. *)
Lemma fold_add_exact (qs : list Z) (q : Z) :
  Z.abs q + zsum Z.abs qs < 2 ^ 53 ->
  fold_left Js.add qs q = q + zsum (fun z => z) qs.
Proof.
  revert q. induction qs as [|a qs IH]; intros q H; simpl in *; [lia|].
  pose proof (zsum_nonneg Z.abs qs Z.abs_nonneg) as H0.
  rewrite add_exact by lia. rewrite IH by lia. lia.
Qed.

Lemma zsum_filter_le {A : Type} (g : A -> Z) (f : A -> bool) (l : list A) :
  (forall a, 0 <= g a) -> zsum g (filter f l) <= zsum g l.
Proof.
  intros Hg. induction l as [|a l IH]; simpl; [lia|].
  specialize (Hg a). destruct (f a); simpl; lia.
Qed.

Lemma zsum_map {A B : Type} (g : B -> Z) (f : A -> B) (l : list A) :
  zsum g (map f l) = zsum (fun a => g (f a)) l.
Proof. induction l as [|a l IH]; simpl; congruence. Qed.

Lemma groupQuantity_exact (n : string) (x : list RawItem) :
  exactQuantities x -> groupQuantity n x = zsum itemQuantity (group n x).
Proof.
  unfold exactQuantities, groupQuantity. intros Hx.
  pose proof (zsum_filter_le (fun item => Z.abs (itemQuantity item))
                (fun item => (itemName item =? n)%string) x
                (fun a => Z.abs_nonneg _)) as Hle.
  fold (group n x) in Hle.
  destruct (group n x) as [|g gs]; simpl in *; [reflexivity|].
  rewrite fold_add_exact.
  - rewrite zsum_map. reflexivity.
  - rewrite zsum_map. lia.
Qed.

Lemma zsum_positive {A : Type} (g : A -> Z) (l : list A) :
  Forall (fun a => 1 <= g a) l -> l <> [] -> 1 <= zsum g l.
Proof.
  intros Hl Hne. destruct l as [|a l]; [contradiction|].
  inversion Hl as [|? ? Ha Hl']; subst. simpl.
  assert (0 <= zsum g l); [|lia].
  clear -Hl'. induction Hl' as [|b l Hb _ IH]; simpl; lia.
Qed.

Lemma zsum_le_abs {A : Type} (g : A -> Z) (l : list A) :
  Z.abs (zsum g l) <= zsum (fun a => Z.abs (g a)) l.
Proof. induction l as [|a l IH]; simpl; lia. Qed.

(** Quantities of at least [1] that add up within [2 ^ 53] give lines of
    quantity at least [1], below [2 ^ 53]. *)
Lemma consolidate_quantities_positive (x : list RawItem) :
  Forall (fun item => 1 <= itemQuantity item) x ->
  exactQuantities x ->
  Forall (fun it => 1 <= quantity it < 2 ^ 53) (consolidate x).
Proof.
  intros Hq Hx. rewrite consolidate_refines. unfold consolidateSpec.
  apply Forall_forall. intros it Hin.
  apply in_map_iff in Hin. destruct Hin as [n [<- Hn]]. simpl.
  rewrite (groupQuantity_exact n x Hx).
  assert (Hg : Forall (fun item => 1 <= itemQuantity item) (group n x)).
  { apply Forall_forall. intros item Hitem. apply filter_In in Hitem.
    rewrite Forall_forall in Hq. apply Hq. tauto. }
  split.
  - apply zsum_positive; [exact Hg|].
    apply group_present, firstOccurrences_In, Hn.
  - pose proof (zsum_le_abs itemQuantity (group n x)) as H1.
    pose proof (zsum_filter_le (fun item => Z.abs (itemQuantity item))
                  (fun item => (itemName item =? n)%string) x
                  (fun a => Z.abs_nonneg _)) as H2.
    fold (group n x) in H2. unfold exactQuantities in Hx. lia.
Qed.

Lemma processOrderItems_lines (items : ItemsArg) :
  Forall lineOk (processOrderItems items).
Proof.
  destruct items as [|l|]; simpl; [constructor | apply consolidate_lines | constructor].
Qed.

Lemma processOrderItems_names_NoDup (items : ItemsArg) :
  NoDup (map name (processOrderItems items)).
Proof.
  destruct items as [|l|]; simpl;
    [constructor | apply consolidate_names_NoDup | constructor].
Qed.

End Consolidation.

(** ** The order table *)

Section Store.

(** The reduction of [calculateTotalPrice] from any starting value: while
    the amounts stay within [2 ^ 53] it is the exact sum. *)
Lemma fold_prices_exact (l : list Item) (a : Z) :
  Z.abs a + zsum (fun item => Z.abs (price item * quantity item)) l < 2 ^ 53 ->
  fold_left (fun total item => Js.add total (Js.mul (price item) (quantity item)))
            l a
  = a + sigma lineTotal l.
Proof.
  revert a. induction l as [|it l IH]; intros a H; simpl in *; [lia|].
  pose proof (zsum_nonneg (fun item => Z.abs (price item * quantity item)) l
                (fun item => Z.abs_nonneg _)) as H0.
  rewrite (mul_exact (price it) (quantity it)) by lia.
  rewrite add_exact by lia. rewrite IH by lia.
  unfold lineTotal. lia.
Qed.

Lemma sumPrices_exact (l : list Item) :
  exactBill l -> sumPrices l = sigma lineTotal l.
Proof.
  intros H. unfold sumPrices. rewrite fold_prices_exact; [lia|].
  unfold exactBill in H. lia.
Qed.

Lemma sigma_ext (f g : Item -> Z) (l : list Item) :
  Forall (fun it => f it = g it) l -> sigma f l = sigma g l.
Proof. induction 1 as [|it l H _ IH]; simpl; congruence. Qed.

Lemma Forall2_map_r {A B : Type} (R : A -> B -> Prop) (g : A -> B) (l : list A) :
  (forall a, R a (g a)) -> Forall2 R l (map g l).
Proof. intros H. induction l; simpl; constructor; auto. Qed.

Lemma recomputed_createOrder (db : Database) (now : Z) (orderData : OrderData) :
  exists row,
    orders (fst (createOrder db now orderData)) = orders db ++ [row]
    /\ recomputed (data_items orderData) row.
Proof.
  eexists. split; [reflexivity|]. unfold recomputed. simpl.
  split; [reflexivity|]. split; [reflexivity|]. apply sumPrices_exact.
Qed.

Lemma recomputed_updateOrderItems (db : Database) (now orderId : Z)
  (newItems : ItemsArg) :
  Forall2 (fun o o' => if order_id o =? orderId
                       then recomputed newItems o' else o' = o)
          (orders db) (orders (updateOrderItems db now orderId newItems)).
Proof.
  unfold updateOrderItems. simpl. apply Forall2_map_r. intros o.
  destruct (order_id o =? orderId); [|reflexivity].
  unfold recomputed. simpl.
  split; [reflexivity|]. split; [reflexivity|]. apply sumPrices_exact.
Qed.

Lemma find_map_id (g : Order -> Order) (k : Z) (l : list Order) :
  (forall o, order_id (g o) = order_id o) ->
  find (fun o => order_id o =? k) (map g l) =
  option_map g (find (fun o => order_id o =? k) l).
Proof.
  intros Hid. induction l as [|o l IH]; simpl; [reflexivity|].
  rewrite Hid. destruct (order_id o =? k); [reflexivity | exact IH].
Qed.

Lemma selectById_updateOrderStatus (db : Database) (now orderId : Z)
  (newStatus : string) (o : Order) :
  selectById db orderId = Some o ->
  selectById (updateOrderStatus db now orderId newStatus) orderId =
  Some (setStatus newStatus now o).
Proof.
  unfold selectById, updateOrderStatus. simpl. intros Hsel.
  rewrite find_map_id.
  - rewrite Hsel. simpl.
    apply find_some in Hsel. destruct Hsel as [_ Hid]. rewrite Hid. reflexivity.
  - intros o'. destruct (order_id o' =? orderId); reflexivity.
Qed.

Lemma getOrderById_selectById (db : Database) (orderId : Z) (f : FetchedOrder) :
  getOrderById db orderId = Some f ->
  exists o, selectById db orderId = Some o /\ f = withParsedItems o.
Proof.
  unfold getOrderById. destruct (selectById db orderId) as [o|]; [|discriminate].
  intros H. injection H as <-. exists o. split; reflexivity.
Qed.

(** After a status update the order is still there, with the new status. *)
Lemma getOrderById_updateOrderStatus (db : Database) (now orderId : Z)
  (newStatus : string) (f : FetchedOrder) :
  getOrderById db orderId = Some f ->
  exists f', getOrderById (updateOrderStatus db now orderId newStatus) orderId = Some f'
             /\ order_status (fetched f') = newStatus
             /\ order_id (fetched f') = orderId.
Proof.
  intros Hget. apply getOrderById_selectById in Hget.
  destruct Hget as [o [Hsel _]].
  exists (withParsedItems (setStatus newStatus now o)).
  unfold getOrderById.
  rewrite (selectById_updateOrderStatus _ _ _ _ _ Hsel).
  repeat split. simpl.
  apply find_some in Hsel. destruct Hsel as [_ Hid]. apply Z.eqb_eq. exact Hid.
Qed.

Lemma nextInsertId_reachable (db : Database) :
  reachable db -> 1 <= nextInsertId db.
Proof. induction 1; simpl; lia. Qed.

Lemma idsBelow_reachable (db : Database) : reachable db -> idsBelow db.
Proof.
  unfold idsBelow.
  induction 1 as [|db now d Hr IH|db now k st _ IH|db now k it _ IH]; simpl.
  - constructor.
  - apply Forall_app. split.
    + eapply Forall_impl; [|exact IH]. simpl. intros o Ho. lia.
    + constructor; [|constructor]. simpl.
      apply nextInsertId_reachable in Hr. lia.
  - apply Forall_map. eapply Forall_impl; [|exact IH].
    intros o Ho. destruct (order_id o =? k); simpl; exact Ho.
  - apply Forall_map. eapply Forall_impl; [|exact IH].
    intros o Ho. destruct (order_id o =? k); simpl; exact Ho.
Qed.

Lemma selectById_fresh (db : Database) :
  idsBelow db -> selectById db (nextInsertId db) = None.
Proof.
  unfold idsBelow, selectById. intros Hids.
  destruct (find _ (orders db)) as [o|] eqn:E; [|reflexivity].
  apply find_some in E. destruct E as [Hin Hid].
  rewrite Forall_forall in Hids. specialize (Hids o Hin).
  apply Z.eqb_eq in Hid. lia.
Qed.

Lemma find_app_none {A : Type} (p : A -> bool) (l l' : list A) :
  find p l = None -> find p (l ++ l') = find p l'.
Proof.
  induction l as [|a l IH]; simpl; [reflexivity|].
  destruct (p a); [discriminate | exact IH].
Qed.

(** The row a creation inserts is the one its identifier selects. *)
Lemma selectById_createOrder (db : Database) (now : Z) (orderData : OrderData) :
  idsBelow db ->
  selectById (fst (createOrder db now orderData)) (snd (createOrder db now orderData))
  = Some {| order_id := nextInsertId db;
            order_tableId := data_tableId orderData;
            order_tableLocation := data_tableLocation orderData;
            order_restaurantId := data_restaurantId orderData;
            order_items := processOrderItems (data_items orderData);
            order_totalPrice := calculateTotalPrice (data_items orderData);
            order_status := "pending";
            created_at := now;
            updated_at := now |}.
Proof.
  intros Hids. unfold selectById. simpl.
  rewrite find_app_none by (apply selectById_fresh, Hids).
  simpl. rewrite Z.eqb_refl. reflexivity.
Qed.

(** Sorting by creation time. *)
Lemma insertByCreatedAt_perm (o : Order) (l : list Order) :
  Permutation (insertByCreatedAt o l) (o :: l).
Proof.
  induction l as [|x l IH]; simpl; [reflexivity|].
  destruct (created_at o <=? created_at x); [reflexivity|].
  rewrite IH. apply perm_swap.
Qed.

Lemma orderByCreatedAtAsc_perm (l : list Order) :
  Permutation (orderByCreatedAtAsc l) l.
Proof.
  induction l as [|o l IH]; simpl; [reflexivity|].
  rewrite insertByCreatedAt_perm. constructor. exact IH.
Qed.

Lemma insertByCreatedAt_sorted (o : Order) (l : list Order) :
  StronglySorted (fun a b => created_at a <= created_at b) l ->
  StronglySorted (fun a b => created_at a <= created_at b) (insertByCreatedAt o l).
Proof.
  induction 1 as [|x l Hs IH Hx]; simpl.
  - constructor; constructor.
  - destruct (Z.leb_spec (created_at o) (created_at x)) as [Hle|Hgt].
    + constructor; [constructor; assumption|].
      constructor; [exact Hle|].
      eapply Forall_impl; [|exact Hx]. simpl. intros b Hb. lia.
    + constructor; [exact IH|].
      eapply Permutation_Forall; [symmetry; apply insertByCreatedAt_perm|].
      constructor; [lia | exact Hx].
Qed.

Lemma orderByCreatedAtAsc_sorted (l : list Order) :
  StronglySorted (fun a b => created_at a <= created_at b) (orderByCreatedAtAsc l).
Proof.
  induction l as [|o l IH]; simpl; [constructor|].
  apply insertByCreatedAt_sorted, IH.
Qed.

Lemma StronglySorted_map {A B : Type} (R : B -> B -> Prop) (f : A -> B)
  (l : list A) :
  StronglySorted (fun a b => R (f a) (f b)) l -> StronglySorted R (map f l).
Proof.
  induction 1 as [|a l Hs IH Hall]; simpl; constructor.
  - exact IH.
  - rewrite Forall_map. exact Hall.
Qed.

Lemma statusIn_false_notPending (st : string) :
  statusIn notPending st = false ->
  st <> "delivered" /\ st <> "cancelled" /\ st <> "completed".
Proof.
  unfold statusIn, notPending. simpl. intros H.
  repeat (apply orb_false_elim in H; destruct H as [? H]).
  repeat split; intros ->; discriminate.
Qed.

End Store.

(** ** Claims about the store *)

(** C7, as stated: consolidating an already consolidated sequence yields
    the same sequence, for every input.  It fails on two lines of the same
    name whose quantities cancel: the first pass leaves one line of quantity
    [0], which the second pass reads as a missing quantity and sets to [1]. *)
Lemma C7_counterexample :
  consolidate [tea 1 2; tea (-1) 2] = [mkItem "Tea" 0 2 0]
  /\ consolidate (map asRaw (consolidate [tea 1 2; tea (-1) 2]))
     = [mkItem "Tea" 1 2 2]
  /\ consolidate (map asRaw (consolidate [tea 1 2; tea (-1) 2]))
     <> consolidate [tea 1 2; tea (-1) 2].
Proof.
  repeat split; try reflexivity.
  vm_compute. discriminate.
Qed.

(** C7, amended: consolidation groups the items by exact name, in the order
    of first occurrence, adding up the quantities of a group in the
    arithmetic of the source and recomputing its line total (it computes
    [consolidateSpec]); consolidating the result again yields the same
    sequence exactly when every consolidated line has a quantity that is not
    [0] and is below [10 ^ 21] in absolute value, the quantities [parseInt]
    reads back unchanged; this is so in particular whenever every input item
    has a quantity of at least [1] and the quantities add up to less than
    [2 ^ 53]. *)
Theorem C7_consolidate_idempotent_on_nonzero (x : list RawItem) :
  consolidate x = consolidateSpec x
  /\ (consolidate (map asRaw (consolidate x)) = consolidate x <->
      Forall (fun it => quantity it <> 0 /\ Z.abs (quantity it) < 10 ^ 21)
             (consolidate x))
  /\ (Forall (fun item => 1 <= itemQuantity item) x ->
      exactQuantities x ->
      consolidate (map asRaw (consolidate x)) = consolidate x).
Proof.
  split; [apply consolidate_refines|].
  split; [apply consolidate_twice|].
  intros Hq Hx. apply consolidate_twice.
  eapply Forall_impl; [|apply consolidate_quantities_positive; [exact Hq | exact Hx]].
  simpl. intros it Hit.
  assert (2 ^ 53 < 10 ^ 21) by reflexivity. lia.
Qed.

Lemma C7_consolidate_idempotent_witness :
  consolidate (map asRaw (consolidate [tea 1 2; tea 2 2]))
  = consolidate [tea 1 2; tea 2 2].
Proof.
  apply (proj2 (proj2 (C7_consolidate_idempotent_on_nonzero [tea 1 2; tea 2 2]))).
  - repeat constructor; vm_compute; discriminate.
  - vm_compute. reflexivity.
Defined.

(** Two lines of [5e20] add up to [1e21], which the second pass reads as
    [1]: a quantity that is not [0] and yet is not read back. *)
Example large_quantity_not_read_back :
  consolidate [tea (5 * 10 ^ 20) 2; tea (5 * 10 ^ 20) 2]
  = [mkItem "Tea" (10 ^ 21) 2 (2 * 10 ^ 21)]
  /\ consolidate (map asRaw (consolidate [tea (5 * 10 ^ 20) 2; tea (5 * 10 ^ 20) 2]))
     = [mkItem "Tea" 1 2 2].
Proof. split; vm_compute; reflexivity. Qed.

(** C3: a creation appends one row, an item replacement rewrites the rows
    of the order and no other; the row written holds the consolidated items
    of the write, and its total is the sum of unit price times quantity over
    them as the reduction of the source computes it, which is the exact sum
    whenever the amounts stay within [2 ^ 53]; the total supplied by the
    caller does not reach the table. *)
Theorem C3_stored_total_is_recomputed (db : Database) (now : Z) (w : ItemsWrite) :
  (forall t, applyWrite db now (withCallerTotal t w) = applyWrite db now w)
  /\ match w with
     | Create orderData =>
         exists row,
           orders (applyWrite db now w) = orders db ++ [row]
           /\ recomputed (data_items orderData) row
     | Replace orderId newItems =>
         Forall2 (fun o o' => if order_id o =? orderId
                              then recomputed newItems o' else o' = o)
                 (orders db) (orders (applyWrite db now w))
     end.
Proof.
  split.
  - intros t. destruct w; reflexivity.
  - destruct w as [orderData|orderId newItems].
    + apply recomputed_createOrder.
    + apply recomputed_updateOrderItems.
Qed.

Lemma C3_stored_total_witness :
  (exists row,
      orders (applyWrite emptyDatabase 10
                (Create (teaOrder (Some 100) [tea 1 2; tea 2 2]))) = [row]
      /\ recomputed (ArrayOf [tea 1 2; tea 2 2]) row)
  /\ Forall2 (fun o o' => if order_id o =? 1
                          then recomputed (ArrayOf [tea 2 5; tea 1 5]) o'
                          else o' = o)
             (orders cafe)
             (orders (applyWrite cafe 20 (Replace 1 (ArrayOf [tea 2 5; tea 1 5])))).
Proof.
  split.
  - apply (proj2 (C3_stored_total_is_recomputed emptyDatabase 10
                    (Create (teaOrder (Some 100) [tea 1 2; tea 2 2])))).
  - apply (proj2 (C3_stored_total_is_recomputed cafe 20
                    (Replace 1 (ArrayOf [tea 2 5; tea 1 5])))).
Defined.

(** The two writes of the instance above, computed: the caller's [100] is
    nowhere, and the replacement leaves one line of three teas at [5]. *)
Example stored_totals_computed :
  map (fun o => (order_items o, order_totalPrice o))
      (orders (applyWrite emptyDatabase 10
                 (Create (teaOrder (Some 100) [tea 1 2; tea 2 2]))))
  = [([mkItem "Tea" 3 2 6], 6)]
  /\ map (fun o => (order_items o, order_totalPrice o))
         (orders (applyWrite cafe 20 (Replace 1 (ArrayOf [tea 2 5; tea 1 5]))))
     = [([mkItem "Tea" 3 5 15], 15)].
Proof. split; vm_compute; reflexivity. Qed.

(** The product of the source is a rounded one: a line of 94906267 items at
    94906267 is stored with the double next to the exact total. *)
Example stored_total_rounded :
  map order_totalPrice
      (orders (applyWrite emptyDatabase 10
                 (Create (teaOrder None [tea 94906267 94906267]))))
  = [9007199515875288]
  /\ 94906267 * 94906267 = 9007199515875289.
Proof. split; vm_compute; reflexivity. Qed.

(** C8: the pending listing holds no order whose status is [delivered],
    [cancelled] or [completed], it is sorted by creation time, oldest first,
    and it lists every other order of the table. *)
Theorem C8_pending_listing (db : Database) :
  Forall (fun f => order_status (fetched f) <> "delivered"
                   /\ order_status (fetched f) <> "cancelled"
                   /\ order_status (fetched f) <> "completed")
         (getPendingOrders db)
  /\ oldestFirst (getPendingOrders db)
  /\ Permutation
       (getPendingOrders db)
       (map withParsedItems
            (filter (fun o => negb (statusIn notPending (order_status o)))
                    (orders db))).
Proof.
  unfold getPendingOrders. repeat split.
  - apply Forall_forall. intros f Hf.
    apply in_map_iff in Hf. destruct Hf as [o [<- Ho]].
    apply (Permutation_in _ (orderByCreatedAtAsc_perm _)) in Ho.
    apply filter_In in Ho. destruct Ho as [_ Hst].
    apply negb_true_iff in Hst. simpl.
    apply statusIn_false_notPending. exact Hst.
  - unfold oldestFirst. apply StronglySorted_map. simpl.
    apply orderByCreatedAtAsc_sorted.
  - apply Permutation_map, orderByCreatedAtAsc_perm.
Qed.

(** ** The status routes *)

Section StatusRoutes.

Variable r : Router.
Variable db : Database.
Variable now : Z.
Variable orderId : Z.
Variable existingOrder : FetchedOrder.
Hypothesis order_exists : getOrderById db orderId = Some existingOrder.

Lemma dispatchCount_app (t1 t2 : list Effect) :
  dispatchCount (t1 ++ t2) = (dispatchCount t1 + dispatchCount t2)%nat.
Proof. unfold dispatchCount. rewrite filter_app. apply length_app. Qed.

Lemma dispatchCount_ioEmit (e : IoEvent) : dispatchCount (ioEmit r e) = 0%nat.
Proof. unfold ioEmit. destruct (io r); reflexivity. Qed.

Lemma dispatchCount_publishStatusChange (oldStatus newStatus : string) :
  dispatchCount (publishStatusChange r orderId oldStatus newStatus) = 0%nat.
Proof.
  unfold publishStatusChange. destruct (connectedAt r 0); [|reflexivity].
  destruct (mqttService r) as [svc|]; [|reflexivity].
  unfold publishOrderStatusUpdate, publish.
  destruct (isConnected (svc 0%nat)); reflexivity.
Qed.

(** The dispatch block hands exactly one message to the client when the
    service is connected at that moment, and none otherwise. *)
Lemma dispatchCount_dispatchToRobot (u : FetchedOrder) :
  dispatchCount (dispatchToRobot r orderId "ready" (Some u)) =
  if connectedAt r 1 then 1%nat else 0%nat.
Proof.
  unfold dispatchToRobot. rewrite String.eqb_refl. simpl.
  destruct (connectedAt r 1) eqn:Hconn; simpl.
  - unfold connectedAt in Hconn.
    destruct (mqttService r) as [svc|]; [|discriminate].
    unfold sendOrderToRobot, publish. rewrite Hconn. cbn [negb].
    destruct (clientAccepts (svc 1%nat));
      rewrite dispatchCount_app, dispatchCount_ioEmit; reflexivity.
  - apply dispatchCount_ioEmit.
Qed.

Lemma statusIn_allowed_nonempty (target : string) :
  statusIn allowedStatuses target = true -> target <> EmptyString.
Proof. intros H ->. discriminate H. Qed.

(** An allowed target on an existing order: the route writes the status
    and answers [200], whatever the status was. *)
Lemma put_status_accepted (target : string) :
  statusIn allowedStatuses target = true ->
  put_status r db now orderId (Some target) =
  (updateOrderStatus db now orderId target,
   {| code := 200;
      body := StatusUpdated orderId (order_status (fetched existingOrder)) target
                (robotNotifiedField r target) |},
   publishStatusChange r orderId (order_status (fetched existingOrder)) target
     ++ dispatchToRobot r orderId target
          (getOrderById (updateOrderStatus db now orderId target) orderId)
     ++ ioEmit r (order_status_updated orderId
                    (order_status (fetched existingOrder)) target false)).
Proof.
  intros Hallowed. unfold put_status.
  destruct (String.eqb_spec target EmptyString) as [E|_].
  - exfalso. exact (statusIn_allowed_nonempty _ Hallowed E).
  - rewrite Hallowed. simpl. rewrite order_exists. reflexivity.
Qed.

Lemma delete_order_accepted :
  delete_order r db now orderId =
  (updateOrderStatus db now orderId "cancelled",
   {| code := 200; body := OrderCancelled orderId |},
   publishStatusChange r orderId (order_status (fetched existingOrder)) "cancelled"
     ++ ioEmit r (order_status_updated orderId
                    (order_status (fetched existingOrder)) "cancelled" false)).
Proof. unfold delete_order. rewrite order_exists. reflexivity. Qed.

Lemma statusOf_updateOrderStatus (newStatus : string) :
  statusOf (updateOrderStatus db now orderId newStatus) orderId = Some newStatus.
Proof.
  destruct (getOrderById_updateOrderStatus db now orderId newStatus _ order_exists)
    as [f' [Hget [Hst _]]].
  unfold statusOf. rewrite Hget. simpl. rewrite Hst. reflexivity.
Qed.

Lemma orderId_positive : reachable db -> 1 <= orderId.
Proof.
  intros Hr. apply idsBelow_reachable in Hr.
  destruct (getOrderById_selectById _ _ _ order_exists) as [o [Hsel _]].
  apply find_some in Hsel. destruct Hsel as [Hin Hid].
  unfold idsBelow in Hr. rewrite Forall_forall in Hr.
  specialize (Hr o Hin). apply Z.eqb_eq in Hid. lia.
Qed.

(** An automated request with a status on an existing order: [delivered]
    is written, anything else is refused. *)
Lemma post_auto_update_status_cases (status : string) (source : option string) :
  reachable db ->
  status <> EmptyString ->
  post_auto_update_status r db now
    {| auto_orderId := Some orderId; auto_status := Some status;
       auto_source := source |} =
  if (status =? "delivered")%string then
    (updateOrderStatus db now orderId status,
     {| code := 200;
        body := StatusAutoUpdated orderId (order_status (fetched existingOrder))
                  status (Js.str_or_default source "robot") |},
     ioEmit r (order_status_updated orderId
                 (order_status (fetched existingOrder)) status true))
  else (db, fail 400 "This status cannot be auto-updated", []).
Proof.
  intros Hr Hst. pose proof (orderId_positive Hr) as Hpos.
  unfold post_auto_update_status. simpl.
  destruct (Z.eqb_spec orderId 0) as [E|_]; [lia|].
  destruct (String.eqb_spec status EmptyString) as [E|_]; [contradiction|].
  simpl. rewrite order_exists.
  unfold statusIn, allowedAutoStatuses. simpl.
  rewrite orb_false_r.
  destruct (status =? "delivered")%string; reflexivity.
Qed.

End StatusRoutes.

Lemma dispatchCount_put_status_ready (r : Router) (db : Database) (now orderId : Z)
  (existingOrder : FetchedOrder) :
  getOrderById db orderId = Some existingOrder ->
  dispatchCount (effects (put_status r db now orderId (Some "ready"))) =
  if connectedAt r 1 then 1%nat else 0%nat.
Proof.
  intros Hget.
  rewrite (put_status_accepted r db now orderId existingOrder Hget "ready")
    by reflexivity.
  unfold effects. simpl snd.
  destruct (getOrderById_updateOrderStatus db now orderId "ready" _ Hget)
    as [u [Hu _]].
  rewrite Hu.
  rewrite !dispatchCount_app, dispatchCount_publishStatusChange,
    dispatchCount_ioEmit, dispatchCount_dispatchToRobot.
  destruct (connectedAt r 1); reflexivity.
Qed.

(** C1, as stated: every staff update to [ready] hands one message to the
    agent dispatch topic, whatever the state of the transport.  With the
    service disconnected the update succeeds and nothing is published. *)
Lemma C1_counterexample :
  let out := put_status offline cafe 11 1 (Some "ready") in
  success (response out) = true
  /\ statusOf (database out) 1 = Some "ready"
  /\ dispatchCount (effects out) = 0%nat.
Proof. vm_compute. repeat split. Qed.

(** C1, amended: a staff update of an existing order to [ready] succeeds
    and hands exactly one message to the agent dispatch topic when the
    service is connected at the moment of the dispatch, and none when it is
    not; this does not depend on the previous status, and a further update
    to [ready] dispatches again under the same condition. *)
Theorem C1_one_dispatch_when_connected (r r' : Router) (db : Database)
  (now now' orderId : Z) (existingOrder : FetchedOrder) :
  getOrderById db orderId = Some existingOrder ->
  let out := put_status r db now orderId (Some "ready") in
  let again := put_status r' (database out) now' orderId (Some "ready") in
  success (response out) = true
  /\ statusOf (database out) orderId = Some "ready"
  /\ dispatchCount (effects out) = (if connectedAt r 1 then 1 else 0)%nat
  /\ dispatchCount (effects again) = (if connectedAt r' 1 then 1 else 0)%nat.
Proof.
  intros Hget out again.
  assert (Hdb : database out = updateOrderStatus db now orderId "ready").
  { unfold out.
    rewrite (put_status_accepted r db now orderId existingOrder Hget "ready")
      by reflexivity.
    reflexivity. }
  split; [|split; [|split]].
  - unfold out.
    rewrite (put_status_accepted r db now orderId existingOrder Hget "ready")
      by reflexivity.
    reflexivity.
  - rewrite Hdb. apply (statusOf_updateOrderStatus db now orderId existingOrder Hget).
  - apply (dispatchCount_put_status_ready r db now orderId existingOrder Hget).
  - destruct (getOrderById_updateOrderStatus db now orderId "ready" _ Hget)
      as [u [Hu _]].
    unfold again. rewrite Hdb.
    apply (dispatchCount_put_status_ready r' _ now' orderId u Hu).
Qed.

Lemma C1_one_dispatch_witness :
  dispatchCount (effects (put_status online cafe 11 1 (Some "ready"))) = 1%nat
  /\ dispatchCount
       (effects (put_status online
                   (database (put_status online cafe 11 1 (Some "ready")))
                   12 1 (Some "ready"))) = 1%nat.
Proof.
  edestruct (C1_one_dispatch_when_connected online online cafe 11 12 1)
    as [_ [_ [Hfirst Hagain]]].
  - reflexivity.
  - split; [exact Hfirst | exact Hagain].
Defined.

(** C4: with the service wired but disconnected, a staff update of an
    existing order to [ready] is written to the table and answered with
    success and [robotNotified = false]; the dashboards get the warning
    followed by the status change, and nothing is published. *)
Theorem C4_ready_while_disconnected (r : Router) (svc : nat -> MQTTService)
  (db : Database) (now orderId : Z) (existingOrder : FetchedOrder) :
  mqttService r = Some svc ->
  (forall k, isConnected (svc k) = false) ->
  io r = true ->
  getOrderById db orderId = Some existingOrder ->
  let out := put_status r db now orderId (Some "ready") in
  response out =
    {| code := 200;
       body := StatusUpdated orderId (order_status (fetched existingOrder))
                 "ready" (Some false) |}
  /\ success (response out) = true
  /\ statusOf (database out) orderId = Some "ready"
  /\ effects out =
       [IoEmit (mqtt_warning orderId);
        IoEmit (order_status_updated orderId
                  (order_status (fetched existingOrder)) "ready" false)].
Proof.
  intros Hsvc Hdown Hio Hget out. unfold out.
  rewrite (put_status_accepted r db now orderId existingOrder Hget "ready")
    by reflexivity.
  unfold response, database, effects. simpl fst. simpl snd.
  assert (Hconn : forall k, connectedAt r k = false).
  { intros k. unfold connectedAt. rewrite Hsvc. apply Hdown. }
  repeat split.
  - unfold robotNotifiedField. rewrite String.eqb_refl, Hsvc, Hdown. reflexivity.
  - apply (statusOf_updateOrderStatus db now orderId existingOrder Hget).
  - unfold publishStatusChange, dispatchToRobot, ioEmit.
    rewrite !Hconn, Hio, String.eqb_refl. reflexivity.
Qed.

Lemma C4_ready_while_disconnected_witness :
  let out := put_status offline cafe 11 1 (Some "ready") in
  response out =
    {| code := 200; body := StatusUpdated 1 "pending" "ready" (Some false) |}
  /\ statusOf (database out) 1 = Some "ready"
  /\ effects out =
       [IoEmit (mqtt_warning 1);
        IoEmit (order_status_updated 1 "pending" "ready" false)].
Proof.
  edestruct (C4_ready_while_disconnected offline
               (fun _ => {| isConnected := false; clientAccepts := true |})
               cafe 11 1)
    as [Hres [_ [Hst Heff]]].
  - reflexivity.
  - intros k. reflexivity.
  - reflexivity.
  - reflexivity.
  - split; [exact Hres | split; [exact Hst | exact Heff]].
Defined.

Lemma reachable_cafeWith (status : string) : reachable (cafeWith status).
Proof. apply reach_status, reach_create, reach_empty. Qed.

(** C2, as stated: an order that is [delivered] or [cancelled] rejects
    every further transition request.  A staff update of a delivered order
    to [pending] is accepted and written, and so is the soft cancel of a
    delivered order. *)
Lemma C2_counterexample :
  statusOf (cafeWith "delivered") 1 = Some "delivered"
  /\ (let out := put_status online (cafeWith "delivered") 12 1 (Some "pending") in
      success (response out) = true
      /\ statusOf (database out) 1 = Some "pending")
  /\ (let out := delete_order online (cafeWith "delivered") 12 1 in
      success (response out) = true
      /\ statusOf (database out) 1 = Some "cancelled").
Proof. vm_compute. repeat split. Qed.

(** C2, amended: the routes do not look at the current status.  On every
    existing order, in whatever status, a staff update to one of the five
    allowed statuses is accepted and sets it, the soft cancel is accepted
    and sets [cancelled], and an automated update to [delivered] is accepted
    and sets [delivered]. *)
Theorem C2_transitions_ignore_current_status (r : Router) (db : Database)
  (now orderId : Z) (existingOrder : FetchedOrder) (target : string)
  (source : option string) :
  reachable db ->
  getOrderById db orderId = Some existingOrder ->
  statusIn allowedStatuses target = true ->
  let staff := put_status r db now orderId (Some target) in
  let cancel := delete_order r db now orderId in
  let automated :=
    post_auto_update_status r db now
      {| auto_orderId := Some orderId; auto_status := Some "delivered";
         auto_source := source |} in
  (success (response staff) = true
   /\ statusOf (database staff) orderId = Some target)
  /\ (success (response cancel) = true
      /\ statusOf (database cancel) orderId = Some "cancelled")
  /\ (success (response automated) = true
      /\ statusOf (database automated) orderId = Some "delivered").
Proof.
  intros Hr Hget Hallowed staff cancel automated.
  unfold staff, cancel, automated.
  rewrite (put_status_accepted r db now orderId existingOrder Hget target Hallowed).
  rewrite (delete_order_accepted r db now orderId existingOrder Hget).
  rewrite (post_auto_update_status_cases r db now orderId existingOrder Hget
             "delivered" source Hr) by discriminate.
  rewrite String.eqb_refl.
  unfold response, database. simpl fst. simpl snd.
  repeat split;
    apply (statusOf_updateOrderStatus db now orderId existingOrder Hget).
Qed.

Lemma C2_transitions_witness :
  statusOf (cafeWith "cancelled") 1 = Some "cancelled"
  /\ statusOf (database (put_status online (cafeWith "cancelled") 12 1
                           (Some "preparing"))) 1 = Some "preparing".
Proof.
  split; [reflexivity|].
  edestruct (fun e => C2_transitions_ignore_current_status online
                         (cafeWith "cancelled") 12 1 e "preparing" None)
    as [[_ Hstaff] _].
  - apply reachable_cafeWith.
  - reflexivity.
  - reflexivity.
  - exact Hstaff.
Defined.

(** C5: an automated request on an existing order succeeds and sets
    [delivered] when the requested status is [delivered]; any other request
    fails with [400] and leaves the table and the dashboards untouched, and
    when it carries a status the failure is the forbidden automatic update. *)
Theorem C5_automated_only_delivered (r : Router) (db : Database)
  (now orderId : Z) (existingOrder : FetchedOrder) (status : option string)
  (source : option string) :
  reachable db ->
  getOrderById db orderId = Some existingOrder ->
  let out :=
    post_auto_update_status r db now
      {| auto_orderId := Some orderId; auto_status := status;
         auto_source := source |} in
  (status = Some "delivered" ->
   success (response out) = true
   /\ code (response out) = 200
   /\ statusOf (database out) orderId = Some "delivered")
  /\ (status <> Some "delivered" ->
      success (response out) = false
      /\ code (response out) = 400
      /\ database out = db
      /\ effects out = [])
  /\ (forall s, status = Some s -> s <> EmptyString -> s <> "delivered" ->
      response out = fail 400 "This status cannot be auto-updated").
Proof.
  intros Hr Hget out.
  assert (Hcases : forall s, status = Some s -> s <> EmptyString ->
            out = if (s =? "delivered")%string then
                    (updateOrderStatus db now orderId s,
                     {| code := 200;
                        body := StatusAutoUpdated orderId
                                  (order_status (fetched existingOrder)) s
                                  (Js.str_or_default source "robot") |},
                     ioEmit r (order_status_updated orderId
                                 (order_status (fetched existingOrder)) s true))
                  else (db, fail 400 "This status cannot be auto-updated", [])).
  { intros s -> Hs. unfold out.
    apply (post_auto_update_status_cases r db now orderId existingOrder Hget
             s source Hr Hs). }
  split; [|split].
  - intros Hst. rewrite (Hcases "delivered" Hst) by discriminate.
    rewrite String.eqb_refl.
    unfold response, database. simpl fst. simpl snd.
    repeat split.
    apply (statusOf_updateOrderStatus db now orderId existingOrder Hget).
  - intros Hne. destruct status as [s|].
    + destruct (String.eqb_spec s EmptyString) as [->|Hs].
      * unfold out, post_auto_update_status. simpl.
        rewrite orb_true_r. repeat split.
      * rewrite (Hcases s eq_refl Hs).
        destruct (String.eqb_spec s "delivered") as [->|_]; [congruence|].
        repeat split.
    + unfold out, post_auto_update_status. simpl.
      rewrite orb_true_r. repeat split.
  - intros s Hst Hs Hne. rewrite (Hcases s Hst Hs).
    apply String.eqb_neq in Hne. rewrite Hne. reflexivity.
Qed.

Lemma C5_automated_only_delivered_witness :
  statusOf (database (post_auto_update_status online (cafeWith "ready") 12
                        (mkAutoUpdateBody (Some 1) (Some "delivered") None))) 1
  = Some "delivered"
  /\ response (post_auto_update_status online (cafeWith "ready") 12
                 (mkAutoUpdateBody (Some 1) (Some "ready") None))
     = fail 400 "This status cannot be auto-updated"
  /\ database (post_auto_update_status online (cafeWith "ready") 12
                 (mkAutoUpdateBody (Some 1) (Some "ready") None))
     = cafeWith "ready".
Proof.
  split; [|split].
  - edestruct (fun e => C5_automated_only_delivered online (cafeWith "ready")
                           12 1 e (Some "delivered") None) as [Hyes _].
    + apply reachable_cafeWith.
    + reflexivity.
    + destruct (Hyes eq_refl) as [_ [_ Hst]]. exact Hst.
  - edestruct (fun e => C5_automated_only_delivered online (cafeWith "ready")
                           12 1 e (Some "ready") None) as [_ [_ Hmsg]].
    + apply reachable_cafeWith.
    + reflexivity.
    + apply (Hmsg "ready" eq_refl); discriminate.
  - edestruct (fun e => C5_automated_only_delivered online (cafeWith "ready")
                           12 1 e (Some "ready") None) as [_ [Hno _]].
    + apply reachable_cafeWith.
    + reflexivity.
    + assert (Hne : Some "ready" <> Some "delivered") by discriminate.
      destruct (Hno Hne) as [_ [_ [Hdb _]]]. exact Hdb.
Defined.

(** ** The submit route *)

Section SubmitRoute.

Variable r : Router.
Variable db : Database.
Variable now : Z.

Lemma validateOrderData_Valid (tableId : Js.value) (items : ItemsArg)
  (totalPrice : Js.amount) :
  validateOrderData tableId items totalPrice = Valid <->
  Js.truthy tableId = true
  /\ items <> NotAnArray
  /\ items <> ArrayOf []
  /\ Js.truthy_amount totalPrice = true
  /\ Js.leZero totalPrice = false.
Proof.
  unfold validateOrderData.
  destruct (Js.truthy tableId); simpl.
  2: { split; [discriminate | intros [H _]; discriminate]. }
  destruct items as [|[|item rest]|].
  1: split; [discriminate | intros [_ [H _]]; contradiction].
  1: split; [discriminate | intros [_ [_ [H _]]]; contradiction].
  all: destruct (Js.truthy_amount totalPrice), (Js.leZero totalPrice); simpl.
  all: split; try discriminate; try (intros (_ & _ & _ & H1 & H2); discriminate).
  all: intros _; repeat split; discriminate.
Qed.

Lemma post_submit_Invalid (req : SubmitBody) (message : string) :
  validateOrderData (body_tableId req) (body_items req) (body_totalPrice req)
  = Invalid message ->
  post_submit r db now req = (db, fail 400 message, []).
Proof. intros Hinvalid. unfold post_submit. rewrite Hinvalid. reflexivity. Qed.

(** A valid body whose array holds a [null] is answered [500]. *)
Lemma post_submit_null (req : SubmitBody) :
  validateOrderData (body_tableId req) (body_items req) (body_totalPrice req)
  = Valid ->
  body_items req = ArrayWithNull ->
  post_submit r db now req = (db, fail 500 "Failed to save order", []).
Proof. intros Hvalid Hitems. unfold post_submit. rewrite Hvalid, Hitems. reflexivity. Qed.

(** A valid body whose array holds objects only creates the order. *)
Lemma post_submit_Valid (req : SubmitBody) (items : list RawItem) :
  validateOrderData (body_tableId req) (body_items req) (body_totalPrice req)
  = Valid ->
  body_items req = ArrayOf items ->
  exists orderData t,
    data_items orderData = ArrayOf (map routeItem items)
    /\ data_tableId orderData = body_tableId req
    /\ data_tableLocation orderData = Js.or (body_tableLocation req) Js.Null
    /\ data_restaurantId orderData = Js.or (body_restaurantId req) Js.Null
    /\ database (post_submit r db now req) = fst (createOrder db now orderData)
    /\ response (post_submit r db now req) =
       {| code := 201;
          body := OrderSubmitted (snd (createOrder db now orderData))
                    {| echo_id := snd (createOrder db now orderData);
                       echo_tableId := body_tableId req;
                       echo_items := data_items orderData;
                       echo_totalPrice := Js.parseFloat (body_totalPrice req);
                       echo_status := "pending" |} |}
    /\ effects (post_submit r db now req) = t.
Proof.
  intros Hvalid Hitems. unfold post_submit. rewrite Hvalid, Hitems.
  unfold submitValid.
  exists {| data_tableId := body_tableId req;
            data_tableLocation := Js.or (body_tableLocation req) Js.Null;
            data_restaurantId := Js.or (body_restaurantId req) Js.Null;
            data_items := ArrayOf (map routeItem items);
            data_totalPrice := Js.parseFloat (body_totalPrice req) |}.
  eexists. repeat split.
Qed.

(** The three answers of the route. *)
Lemma post_submit_cases (req : SubmitBody) :
  (exists message,
      validateOrderData (body_tableId req) (body_items req) (body_totalPrice req)
      = Invalid message
      /\ post_submit r db now req = (db, fail 400 message, []))
  \/ (validateOrderData (body_tableId req) (body_items req) (body_totalPrice req)
      = Valid
      /\ body_items req = ArrayWithNull
      /\ post_submit r db now req = (db, fail 500 "Failed to save order", []))
  \/ (validateOrderData (body_tableId req) (body_items req) (body_totalPrice req)
      = Valid
      /\ (exists items, body_items req = ArrayOf items)
      /\ success (response (post_submit r db now req)) = true).
Proof.
  destruct (validateOrderData (body_tableId req) (body_items req)
                              (body_totalPrice req)) as [|message] eqn:Hv.
  - assert (Hcase : body_items req = NotAnArray
                    \/ (exists items, body_items req = ArrayOf items)
                    \/ body_items req = ArrayWithNull)
      by (destruct (body_items req); eauto).
    destruct Hcase as [Hitems|[[items Hitems]|Hitems]].
    + apply validateOrderData_Valid in Hv. destruct Hv as (_ & H & _). contradiction.
    + right. right. split; [reflexivity|]. split; [eauto|].
      destruct (post_submit_Valid req items Hv Hitems)
        as (od & t & _ & _ & _ & _ & _ & Hres & _).
      rewrite Hres. reflexivity.
    + right. left. split; [reflexivity|]. split; [exact Hitems|].
      apply post_submit_null; assumption.
  - left. exists message. split; [reflexivity|].
    apply post_submit_Invalid. exact Hv.
Qed.

Lemma post_submit_success (req : SubmitBody) :
  success (response (post_submit r db now req)) = true ->
  validateOrderData (body_tableId req) (body_items req) (body_totalPrice req)
  = Valid
  /\ exists items, body_items req = ArrayOf items.
Proof.
  intros Hok.
  destruct (post_submit_cases req) as [(m & _ & H)|[(_ & _ & H)|(Hv & Hitems & _)]].
  - rewrite H in Hok. discriminate.
  - rewrite H in Hok. discriminate.
  - split; assumption.
Qed.

(** A submission that is refused stores nothing and sends nothing. *)
Lemma post_submit_failed (req : SubmitBody) :
  success (response (post_submit r db now req)) = false ->
  database (post_submit r db now req) = db
  /\ effects (post_submit r db now req) = []
  /\ (code (response (post_submit r db now req)) = 400
      \/ code (response (post_submit r db now req)) = 500).
Proof.
  intros Hno.
  destruct (post_submit_cases req) as [(m & _ & H)|[(_ & _ & H)|(_ & _ & H)]].
  - rewrite H. repeat split. left. reflexivity.
  - rewrite H. repeat split. right. reflexivity.
  - congruence.
Qed.

Lemma isValidationError_post_submit (req : SubmitBody) :
  isValidationError (response (post_submit r db now req)) = true <->
  validateOrderData (body_tableId req) (body_items req) (body_totalPrice req)
  <> Valid.
Proof.
  destruct (post_submit_cases req) as [(m & Hv & H)|[(Hv & _ & H)|(Hv & Hitems & Hok)]].
  - rewrite H, Hv. split; [discriminate | reflexivity].
  - rewrite H, Hv. split; [discriminate | intros Hne; contradiction].
  - rewrite Hv. unfold isValidationError. rewrite Hok.
    split; [discriminate | intros Hne; contradiction].
Qed.

End SubmitRoute.

(** C6, as stated: a submission fails exactly when the table identifier is
    missing, the items are not a non-empty collection, or no consolidated
    item has a quantity of at least [1], and the caller's total never makes
    it fail.  A request that differs from an accepted one only by a total of
    [0] is refused although the stated rule accepts it, and a request whose
    only item has a negative quantity is accepted although the stated rule
    refuses it. *)
Lemma C6_counterexample :
  success (response (post_submit online emptyDatabase 10
                       (teaRequest (Some 6) [tea 3 2]))) = true
  /\ success (response (post_submit online emptyDatabase 10
                          (teaRequest (Some 0) [tea 3 2]))) = false
  /\ specRejectsSubmit (teaRequest (Some 0) [tea 3 2]) = false
  /\ success (response (post_submit online emptyDatabase 10
                          (teaRequest (Some 6) [tea (-3) 2]))) = true
  /\ specRejectsSubmit (teaRequest (Some 6) [tea (-3) 2]) = true.
Proof. vm_compute. repeat split. Qed.

(** C6, amended: a submission fails with a validation error, the answer
    [400], exactly when the table identifier is missing (falsy), or the
    items are not a non-empty array, or the caller's total is falsy or
    [totalPrice <= 0] holds of it; neither the consolidated items nor their
    quantities are examined. *)
Theorem C6_submit_validation (r : Router) (db : Database) (now : Z)
  (req : SubmitBody) :
  isValidationError (response (post_submit r db now req)) = true <->
  Js.truthy (body_tableId req) = false
  \/ body_items req = NotAnArray
  \/ body_items req = ArrayOf []
  \/ Js.truthy_amount (body_totalPrice req) = false
  \/ Js.leZero (body_totalPrice req) = true.
Proof.
  rewrite isValidationError_post_submit, validateOrderData_Valid.
  destruct (Js.truthy (body_tableId req)).
  2: { split; [auto | intros _ [H _]; discriminate]. }
  destruct (body_items req) as [|[|item rest]|].
  1: split; [auto | intros _ [_ [H _]]; contradiction].
  1: split; [auto | intros _ [_ [_ [H _]]]; contradiction].
  all: destruct (Js.truthy_amount (body_totalPrice req)),
                (Js.leZero (body_totalPrice req)).
  all: split;
    [ intros H; try (exfalso; apply H; repeat split; discriminate); auto 6
    | intros [H|[H|[H|[H|H]]]]; try discriminate;
      intros (_ & _ & _ & H1 & H2); discriminate ].
Qed.

(** The answers to the bodies the rule of the source separates: a total
    that is a string without a numeric reading is no number and yet passes,
    and an array holding a [null] passes validation and is answered [500],
    which is no validation error. *)
Example submit_answers :
  code (response (post_submit online emptyDatabase 10
                    (withTotal (Js.NotNumber true false None)
                               (teaRequest None [tea 3 2])))) = 201
  /\ code (response (post_submit online emptyDatabase 10
                       (teaRequest (Some (-1)) [tea 3 2]))) = 400
  /\ (let out := post_submit online emptyDatabase 10
                   {| body_tableId := Js.Num 4;
                      body_tableLocation := Js.Undefined;
                      body_restaurantId := Js.Undefined;
                      body_items := ArrayWithNull;
                      body_totalPrice := Js.Number 6 |} in
      code (response out) = 500
      /\ isValidationError (response out) = false
      /\ database out = emptyDatabase
      /\ effects out = []).
Proof. vm_compute. repeat split. Qed.

(** C10: a successful submission answers with the total the caller sent, as
    [parseFloat] reads it, while the row it stores carries the total the
    store computes from the consolidated items, whatever total was sent; and
    there is a submission for which the two differ. *)
Theorem C10_submit_echoes_caller_total :
  (forall (r : Router) (db : Database) (now : Z) (req : SubmitBody),
      reachable db ->
      success (response (post_submit r db now req)) = true ->
      exists orderId echo row,
        body (response (post_submit r db now req)) = OrderSubmitted orderId echo
        /\ echo_totalPrice echo = Js.parseFloat (body_totalPrice req)
        /\ selectById (database (post_submit r db now req)) orderId = Some row
        /\ order_items row = processOrderItems (echo_items echo)
        /\ order_totalPrice row = sumPrices (order_items row)
        /\ (forall total,
               success (response (post_submit r db now (withTotal total req))) = true ->
               database (post_submit r db now (withTotal total req))
               = database (post_submit r db now req)))
  /\ (exists (r : Router) (db : Database) (now : Z) (req : SubmitBody)
             (orderId : Z) (echo : SubmitEcho) (row : Order),
         reachable db
         /\ body (response (post_submit r db now req)) = OrderSubmitted orderId echo
         /\ selectById (database (post_submit r db now req)) orderId = Some row
         /\ echo_totalPrice echo = Some 100
         /\ order_totalPrice row = 6).
Proof.
  split.
  - intros r db now req Hr Hok.
    apply post_submit_success in Hok. destruct Hok as [Hv [items Hitems]].
    destruct (post_submit_Valid r db now req items Hv Hitems)
      as (od & t & Hod & Htab & Hloc & Hrest & Hdb & Hres & _).
    rewrite Hres, Hdb. simpl body.
    eexists. eexists. eexists.
    split; [reflexivity|].
    split; [reflexivity|].
    split; [apply selectById_createOrder, idsBelow_reachable, Hr|].
    simpl. split; [reflexivity|]. split; [reflexivity|].
    intros total Hok'.
    apply post_submit_success in Hok'. destruct Hok' as [Hv' _].
    destruct (post_submit_Valid r db now (withTotal total req) items Hv' Hitems)
      as (od' & t' & Hod' & Htab' & Hloc' & Hrest' & Hdb' & _).
    rewrite Hdb'. simpl in *.
    destruct od, od'. simpl in *. subst. reflexivity.
  - exists online, emptyDatabase, 10, (teaRequest (Some 100) [tea 1 2; tea 2 2]).
    eexists. eexists. eexists.
    split; [apply reach_empty|].
    split; [reflexivity|].
    split; [reflexivity|].
    split; reflexivity.
Qed.

Lemma C10_submit_echoes_witness :
  exists orderId echo row,
    body (response (post_submit online emptyDatabase 10
                      (teaRequest (Some 100) [tea 1 2; tea 2 2])))
    = OrderSubmitted orderId echo
    /\ echo_totalPrice echo = Some 100
    /\ selectById (database (post_submit online emptyDatabase 10
                               (teaRequest (Some 100) [tea 1 2; tea 2 2])))
                  orderId = Some row
    /\ order_totalPrice row = sumPrices (order_items row).
Proof.
  destruct (proj1 C10_submit_echoes_caller_total online emptyDatabase 10
              (teaRequest (Some 100) [tea 1 2; tea 2 2]))
    as (orderId & echo & row & Hbody & Hecho & Hsel & _ & Htotal & _).
  - apply reach_empty.
  - reflexivity.
  - exists orderId, echo, row.
    split; [exact Hbody | split; [exact Hecho | split; [exact Hsel | exact Htotal]]].
Defined.

(** ** Publishing *)

(** C9: [publish] rejects at once, handing nothing to the client, when the
    service is not connected, and so does the emergency stop; when it is
    connected a message published without a quality of service goes out
    with [qos 1], and the emergency stop goes out with [qos 2]. *)
Theorem C9_publish_policy (svc : MQTTService) (topic : string)
  (data : Payload) (options : PublishOptions) :
  (isConnected svc = false ->
   publish svc topic data options = (Rejected NotConnected, [])
   /\ emergencyStop svc = (Rejected NotConnected, []))
  /\ (isConnected svc = true ->
      opt_qos options = None ->
      snd (publish svc topic data options) =
      [ClientPublish topic data 1 (bool_or_false (opt_retain options))
                     (bool_or_false (opt_dup options))])
  /\ (isConnected svc = true ->
      snd (emergencyStop svc) = [ClientPublish EMERGENCY EmergencyStop 2 false false]).
Proof.
  unfold emergencyStop, publish.
  split; [|split].
  - intros Hconn. rewrite Hconn. split; reflexivity.
  - intros Hconn Hqos. rewrite Hconn, Hqos. reflexivity.
  - intros Hconn. rewrite Hconn. reflexivity.
Qed.

Lemma C9_publish_policy_witness :
  publish {| isConnected := false; clientAccepts := true |} ROBOT_ORDERS
          (SystemStatus "online") noOptions = (Rejected NotConnected, [])
  /\ snd (publish {| isConnected := true; clientAccepts := true |} SYSTEM_STATUS
                  (SystemStatus "online") noOptions)
     = [ClientPublish SYSTEM_STATUS (SystemStatus "online") 1 false false]
  /\ snd (emergencyStop {| isConnected := true; clientAccepts := true |})
     = [ClientPublish EMERGENCY EmergencyStop 2 false false].
Proof.
  split; [|split].
  - apply (C9_publish_policy {| isConnected := false; clientAccepts := true |}
             ROBOT_ORDERS (SystemStatus "online") noOptions).
    reflexivity.
  - apply (proj1 (proj2 (C9_publish_policy
                           {| isConnected := true; clientAccepts := true |}
                           SYSTEM_STATUS (SystemStatus "online") noOptions)));
      reflexivity.
  - apply (proj2 (proj2 (C9_publish_policy
                           {| isConnected := true; clientAccepts := true |}
                           SYSTEM_STATUS (SystemStatus "online") noOptions))).
    reflexivity.
Defined.

(** * Further properties of the store *)

Section Regrouping.

Variable f : string -> Z.
Variable w : RawItem -> Z.


Lemma zsum_app {A : Type} (g : A -> Z) (l l' : list A) :
  zsum g (l ++ l') = zsum g l + zsum g l'.
Proof. induction l as [|a l IH]; simpl; [reflexivity | rewrite IH; lia]. Qed.




Lemma filter_all {A : Type} (p : A -> bool) (l : list A) :
  (forall a, In a l -> p a = true) -> filter p l = l.
Proof.
  induction l as [|a l IH]; simpl; intros H; [reflexivity|].
  rewrite (H a) by auto. f_equal. apply IH. intros b Hb. apply H. auto.
Qed.





End Regrouping.









Lemma firstOccurrences_length (l : list string) :
  (List.length (firstOccurrences l) <= List.length l)%nat.
Proof.
  induction l as [|n l IH]; simpl; [lia|].
  pose proof (filter_length_le (fun m => negb (m =? n)%string) (firstOccurrences l)).
  lia.
Qed.

Lemma consolidate_nil (x : list RawItem) : consolidate x = [] <-> x = [].
Proof.
  split.
  - intros Hnil. destruct x as [|a x]; [reflexivity|].
    apply (f_equal (map name)) in Hnil. rewrite consolidate_names in Hnil.
    discriminate Hnil.
  - intros ->. reflexivity.
Qed.

(** X3: [processOrderItems] never returns more lines than the array has
    items, gives every line a distinct, non-empty name and a line total that
    is the product of its price and quantity as the source computes it, and
    returns no line only for an empty array, an array that holds a [null],
    or a value that is no array. *)
Theorem consolidate_shape (items : ItemsArg) :
  (forall x, items = ArrayOf x ->
             (List.length (processOrderItems items) <= List.length x)%nat)
  /\ NoDup (map name (processOrderItems items))
  /\ Forall (fun it => name it <> EmptyString
                       /\ totalItemPrice it = Js.mul (price it) (quantity it))
            (processOrderItems items)
  /\ (processOrderItems items = [] <->
      items = NotAnArray \/ items = ArrayWithNull \/ items = ArrayOf []).
Proof.
  split; [|split; [|split]].
  - intros x ->. simpl.
    rewrite <- (length_map name), consolidate_names.
    rewrite <- (length_map itemName x). apply firstOccurrences_length.
  - apply processOrderItems_names_NoDup.
  - eapply Forall_impl; [|apply processOrderItems_lines].
    intros it (Hn & Ht & _). split; assumption.
  - destruct items as [|x|]; simpl.
    + split; auto.
    + rewrite consolidate_nil. split.
      * intros ->. auto.
      * intros [H|[H|H]]; try discriminate. injection H as ->. reflexivity.
    + split; auto.
Qed.

(** * Further properties of the router *)

Section RouteItems.

Lemma num_or_default_nonzero (a : option Z) (d : Z) :
  d <> 0 -> Js.num_or_default a d <> 0.
Proof.
  intros Hd. unfold Js.num_or_default. destruct a as [z|]; [|exact Hd].
  destruct (Z.eqb_spec z 0); assumption.
Qed.

Lemma itemName_routeItem (a : RawItem) : itemName (routeItem a) = itemName a.
Proof.
  pose proof (itemName_nonempty a) as Hne.
  unfold itemName at 1. unfold routeItem, Js.or_str, Js.truthy_str. simpl.
  destruct (String.eqb_spec (itemName a) EmptyString) as [E|_]; [contradiction|].
  simpl. destruct (String.eqb_spec (itemName a) EmptyString) as [E|_];
    [contradiction | reflexivity].
Qed.

Lemma itemPrice_routeItem (a : RawItem) : itemPrice (routeItem a) = itemPrice a.
Proof.
  unfold itemPrice at 1. unfold routeItem. simpl.
  destruct (Z.eqb_spec (itemPrice a) 0) as [E|_].
  - rewrite E. reflexivity.
  - apply itemPrice_isNumber.
Qed.

Lemma itemQuantity_present (n t : option string) (q : Z) (p : option Z) :
  q <> 0 -> itemQuantity (mkRawItem n t (Some q) None p) = Js.parseInt (Js.number q).
Proof.
  intros Hq. unfold itemQuantity, Js.or_num, Js.truthy_num, Js.num_or_default.
  simpl. destruct (Z.eqb_spec q 0) as [E|_]; [contradiction|].
  simpl. destruct (Z.eqb_spec q 0) as [E|_]; [contradiction | reflexivity].
Qed.

Lemma itemQuantity_routeItem (a : RawItem) :
  itemQuantity (routeItem a) = itemQuantity a.
Proof.
  assert (Hv : Js.number (Js.num_or_default
                            (Js.or_num (raw_quantity a) (raw_count a)) 1) <> 0).
  { unfold Js.number. rewrite round53_zero.
    apply num_or_default_nonzero. discriminate. }
  pose proof (itemQuantity_present (Some (itemName a)) None _
                (Some (itemPrice a)) Hv) as H.
  change (itemQuantity (routeItem a) =
          Js.parseInt (Js.number (Js.number (Js.num_or_default
                         (Js.or_num (raw_quantity a) (raw_count a)) 1)))) in H.
  rewrite H. unfold Js.number at 1. rewrite round53_idem. reflexivity.
Qed.

Lemma consolidateStep_routeItem (m : ItemMap) (a : RawItem) :
  consolidateStep m (routeItem a) = consolidateStep m a.
Proof.
  unfold consolidateStep.
  rewrite itemName_routeItem, itemPrice_routeItem, itemQuantity_routeItem.
  reflexivity.
Qed.

(** The defaults the submit route fills in are the ones consolidation
    would have filled in itself. *)
Lemma consolidate_routeItem (l : list RawItem) :
  consolidate (map routeItem l) = consolidate l.
Proof.
  unfold consolidate. f_equal.
  generalize (@nil (string * Item)) as m.
  induction l as [|a l IH]; intros m; simpl; [reflexivity|].
  rewrite consolidateStep_routeItem. apply IH.
Qed.

End RouteItems.

(** What a request can do to the table: nothing, one creation from a
    non-empty array of items, or one status update to an allowed status. *)
Lemma handle_database (r : Router) (db : Database) (now : Z) (q : Request) :
  database (handle r db now q) = db
  \/ (exists orderData item rest,
         data_items orderData = ArrayOf (map routeItem (item :: rest))
         /\ database (handle r db now q) = fst (createOrder db now orderData))
  \/ (exists orderId s,
         statusIn allowedStatuses s = true
         /\ database (handle r db now q) = updateOrderStatus db now orderId s).
Proof.
  destruct q as [req|orderId status|orderId|req]; simpl.
  - destruct (post_submit_cases r db now req)
      as [(m & _ & H)|[(_ & _ & H)|(Hv & [items Hitems] & _)]].
    + rewrite H. left. reflexivity.
    + rewrite H. left. reflexivity.
    + destruct (post_submit_Valid r db now req items Hv Hitems)
        as (od & t & Hod & _ & _ & _ & Hdb & _).
      apply validateOrderData_Valid in Hv. destruct Hv as (_ & _ & Hne & _).
      destruct items as [|item rest]; [contradiction|].
      right. left. exists od, item, rest. split; assumption.
  - unfold put_status. destruct status as [s|]; [|left; reflexivity].
    destruct (s =? EmptyString)%string; [left; reflexivity|].
    destruct (statusIn allowedStatuses s) eqn:Hs; simpl; [|left; reflexivity].
    destruct (getOrderById db orderId); [|left; reflexivity].
    right. right. exists orderId, s. split; [exact Hs | reflexivity].
  - unfold delete_order. destruct (getOrderById db orderId); [|left; reflexivity].
    right. right. exists orderId, "cancelled". split; reflexivity.
  - unfold post_auto_update_status.
    destruct (negb (Js.truthy_num (auto_orderId req))
              || negb (Js.truthy_str (auto_status req))); [left; reflexivity|].
    destruct (auto_orderId req) as [orderId|]; [|left; reflexivity].
    destruct (auto_status req) as [s|]; [|left; reflexivity].
    destruct (getOrderById db orderId); [|left; reflexivity].
    unfold statusIn at 1, allowedAutoStatuses. simpl. rewrite orb_false_r.
    destruct (String.eqb_spec s "delivered") as [->|_]; simpl; [|left; reflexivity].
    right. right. exists orderId, "delivered". split; reflexivity.
Qed.

Lemma reachable_served (db : Database) : served db -> reachable db.
Proof.
  induction 1 as [|r db now q _ IH]; [apply reach_empty|].
  destruct (handle_database r db now q)
    as [->|[(od & item & rest & _ & ->)|(orderId & s & _ & ->)]].
  - exact IH.
  - apply reach_create, IH.
  - apply reach_status, IH.
Qed.

Lemma orderOk_setStatus (s : string) (now : Z) (o : Order) :
  statusIn allowedStatuses s = true -> orderOk o -> orderOk (setStatus s now o).
Proof.
  intros Hs [_ H]. split; [exact Hs | exact H].
Qed.

Lemma orderOk_created (now : Z) (orderData : OrderData) (item : RawItem)
  (rest : list RawItem) (insertId : Z) :
  data_items orderData = ArrayOf (map routeItem (item :: rest)) ->
  orderOk {| order_id := insertId;
             order_tableId := data_tableId orderData;
             order_tableLocation := data_tableLocation orderData;
             order_restaurantId := data_restaurantId orderData;
             order_items := processOrderItems (data_items orderData);
             order_totalPrice := calculateTotalPrice (data_items orderData);
             order_status := "pending";
             created_at := now;
             updated_at := now |}.
Proof.
  intros Hitems. unfold orderOk, calculateTotalPrice. rewrite Hitems. simpl order_items.
  cbn [order_status order_totalPrice processOrderItems].
  split; [reflexivity|].
  split; [intros H; apply consolidate_nil in H; discriminate H|].
  split; [reflexivity|].
  split; [apply consolidate_names_NoDup | apply consolidate_lines].
Qed.

(** The invariant of the served tables. *)
Lemma served_tableOk (db : Database) : served db -> tableOk db.
Proof.
  unfold tableOk. induction 1 as [|r db now q _ IH].
  - constructor.
  - destruct (handle_database r db now q)
      as [->|[[od [item [rest [Hitems ->]]]]|[orderId [s [Hs ->]]]]].
    + exact IH.
    + simpl. apply Forall_app. split; [exact IH|].
      constructor; [|constructor].
      apply (orderOk_created now od item rest _ Hitems).
    + simpl. apply Forall_map. eapply Forall_impl; [|exact IH].
      intros o Ho. destruct (order_id o =? orderId);
        [apply orderOk_setStatus; assumption | exact Ho].
Qed.

Lemma served_sample :
  served (database (handle online emptyDatabase 10
                      (PostSubmit (teaRequest (Some 6) [tea 1 2; tea 2 2])))).
Proof. apply served_request, served_start. Qed.

Lemma sameButStatus_refl (o : Order) : sameButStatus o o.
Proof. repeat split. Qed.

Lemma Forall2_refl {A : Type} (R : A -> A -> Prop) (l : list A) :
  (forall a, R a a) -> Forall2 R l l.
Proof. intros H. induction l; constructor; auto. Qed.

(** X5: no request deletes or rewrites an order.  After any request the
    table holds the rows it held, in the same order and with the same
    identifier, table, items, total and creation time, followed by at most
    one new row. *)
Theorem handle_keeps_orders (r : Router) (db : Database) (now : Z)
  (q : Request) :
  exists kept added,
    orders (database (handle r db now q)) = kept ++ added
    /\ Forall2 sameButStatus (orders db) kept
    /\ (List.length added <= 1)%nat.
Proof.
  destruct (handle_database r db now q)
    as [->|[[od [item [rest [_ ->]]]]|[orderId [s [_ ->]]]]].
  - exists (orders db), []. rewrite app_nil_r.
    repeat split; [apply Forall2_refl, sameButStatus_refl | simpl; lia].
  - simpl. eexists (orders db), [_].
    repeat split; [apply Forall2_refl, sameButStatus_refl | simpl; lia].
  - simpl. eexists _, []. rewrite app_nil_r.
    repeat split; [|simpl; lia].
    apply Forall2_map_r. intros o.
    destruct (order_id o =? orderId); repeat split.
Qed.

Lemma statusIn_In (l : list string) (s : string) :
  statusIn l s = true <-> In s l.
Proof.
  unfold statusIn. rewrite existsb_exists. split.
  - intros [x [Hx E]]. apply String.eqb_eq in E. subst. exact Hx.
  - intros H. exists s. split; [exact H | apply String.eqb_refl].
Qed.

(** X6: every order of a table the router can bring about carries one of
    the five statuses [pending], [preparing], [ready], [delivered],
    [cancelled]. *)
Theorem served_statuses (db : Database) :
  served db ->
  Forall (fun o => In (order_status o) allowedStatuses) (orders db).
Proof.
  intros Hs. pose proof (served_tableOk db Hs) as Hall.
  eapply Forall_impl; [|exact Hall].
  intros o [Hst _]. apply statusIn_In. exact Hst.
Qed.

Lemma served_statuses_witness :
  Forall (fun o => In (order_status o) allowedStatuses)
         (orders (database (handle online emptyDatabase 10
                              (PostSubmit (teaRequest (Some 6) [tea 1 2; tea 2 2]))))).
Proof. exact (served_statuses _ served_sample). Defined.




Lemma selectById_In (db : Database) (orderId : Z) (row : Order) :
  selectById db orderId = Some row -> In row (orders db) /\ order_id row = orderId.
Proof.
  unfold selectById. intros H. apply find_some in H.
  destruct H as [Hin Hid]. apply Z.eqb_eq in Hid. auto.
Qed.

Lemma map_reread_fixed (l : list Item) :
  Forall lineOk l ->
  Forall (fun it => quantity it <> 0 /\ Z.abs (quantity it) < 10 ^ 21) l ->
  map reread l = l.
Proof.
  intros Hok Hq. apply map_fixed.
  rewrite Forall_forall in *. intros it Hit.
  apply reread_fixed; [apply Hok, Hit | apply Hq, Hit].
Qed.

(** X8: in a table the router can bring about, reading an order whose
    lines all have a quantity that is not [0] and is below [10 ^ 21] in
    absolute value returns the stored row unchanged, with [totalItems] the
    reduction of the source over the quantities of its lines. *)
Theorem getOrderById_returns_stored (db : Database) (orderId : Z) (row : Order) :
  served db ->
  selectById db orderId = Some row ->
  Forall (fun it => quantity it <> 0 /\ Z.abs (quantity it) < 10 ^ 21)
         (order_items row) ->
  getOrderById db orderId =
  Some {| fetched := row; totalItems := sumQuantities (order_items row) |}.
Proof.
  intros Hs Hsel Hq.
  destruct (selectById_In _ _ _ Hsel) as [Hin _].
  pose proof (served_tableOk db Hs) as Hall.
  unfold tableOk in Hall. rewrite Forall_forall in Hall.
  destruct (Hall row Hin) as (_ & _ & _ & Hnd & Hitems).
  unfold getOrderById. rewrite Hsel. f_equal.
  unfold withParsedItems. simpl processOrderItems.
  rewrite consolidate_asRaw.
  - rewrite (map_reread_fixed _ Hitems Hq).
    f_equal. destruct row; reflexivity.
  - exact Hnd.
  - eapply Forall_impl; [|exact Hitems]. intros it Hit. apply Hit.
Qed.

Lemma getOrderById_returns_stored_witness :
  getOrderById
    (database (handle online emptyDatabase 10
                 (PostSubmit (teaRequest (Some 6) [tea 1 2; tea 2 2])))) 1
  = Some {| fetched := mkOrder 1 (Js.Num 4) Js.Null Js.Null [mkItem "Tea" 3 2 6]
                               6 "pending" 10 10;
            totalItems := 3 |}.
Proof.
  apply (getOrderById_returns_stored _ 1
           (mkOrder 1 (Js.Num 4) Js.Null Js.Null [mkItem "Tea" 3 2 6]
                    6 "pending" 10 10) served_sample).
  - reflexivity.
  - repeat constructor; vm_compute; discriminate || reflexivity.
Defined.

Lemma find_app_some {A : Type} (p : A -> bool) (l l' : list A) (a : A) :
  find p l = Some a -> find p (l ++ l') = Some a.
Proof.
  induction l as [|b l IH]; simpl; [discriminate|].
  destruct (p b); [auto | exact IH].
Qed.

(** X9: a successful submission appends one row to the table: it has the
    next identifier, status [pending], the creation time of the request and
    the consolidation of the submitted items; the answer names that
    identifier, a read of it finds the row, and every earlier order reads
    as before. *)
Theorem post_submit_then_get (r : Router) (db : Database) (now : Z)
  (req : SubmitBody) (l : list RawItem) :
  reachable db ->
  body_items req = ArrayOf l ->
  success (response (post_submit r db now req)) = true ->
  exists row echo,
    orders (database (post_submit r db now req)) = orders db ++ [row]
    /\ order_id row = nextInsertId db
    /\ order_status row = "pending"
    /\ created_at row = now
    /\ order_items row = consolidate l
    /\ body (response (post_submit r db now req))
       = OrderSubmitted (nextInsertId db) echo
    /\ get_order (database (post_submit r db now req)) (nextInsertId db)
       = OrderFound (withParsedItems row)
    /\ (forall orderId f,
           getOrderById db orderId = Some f ->
           getOrderById (database (post_submit r db now req)) orderId = Some f).
Proof.
  intros Hr Hitems Hok.
  apply post_submit_success in Hok. destruct Hok as [Hv _].
  destruct (post_submit_Valid r db now req l Hv Hitems)
    as (od & t & Hod & _ & _ & _ & Hdb & Hres & _).
  rewrite Hdb, Hres.
  pose proof (selectById_createOrder db now od (idsBelow_reachable db Hr)) as Hsel.
  change (snd (createOrder db now od)) with (nextInsertId db) in Hsel.
  eexists. eexists.
  split; [reflexivity|].
  split; [reflexivity|].
  split; [reflexivity|].
  split; [reflexivity|].
  split; [simpl; rewrite Hod; simpl; apply consolidate_routeItem|].
  split; [reflexivity|].
  split.
  - unfold get_order, getOrderById. rewrite Hsel. reflexivity.
  - intros orderId f. unfold getOrderById, selectById. simpl.
    destruct (find (fun o => order_id o =? orderId) (orders db)) as [o|] eqn:E;
      [|discriminate].
    rewrite (find_app_some _ _ _ _ E). auto.
Qed.

Lemma post_submit_then_get_witness :
  exists row echo,
    orders (database (post_submit online cafe 20 (teaRequest (Some 9) [tea 1 3])))
    = orders cafe ++ [row]
    /\ order_id row = 2
    /\ order_items row = [mkItem "Tea" 1 3 3]
    /\ body (response (post_submit online cafe 20 (teaRequest (Some 9) [tea 1 3])))
       = OrderSubmitted 2 echo.
Proof.
  destruct (post_submit_then_get online cafe 20 (teaRequest (Some 9) [tea 1 3])
              [tea 1 3])
    as [row [echo [Ho [Hid [_ [_ [Hit [Hb _]]]]]]]].
  - apply reach_create, reach_empty.
  - reflexivity.
  - reflexivity.
  - exists row, echo.
    split; [exact Ho | split; [exact Hid | split; [exact Hit | exact Hb]]].
Defined.

(** * Further properties of the reads *)

Section NewestFirst.

Lemma insertByCreatedAtDesc_perm (o : Order) (l : list Order) :
  Permutation (insertByCreatedAtDesc o l) (o :: l).
Proof.
  induction l as [|x l IH]; simpl; [reflexivity|].
  destruct (created_at x <=? created_at o); [reflexivity|].
  rewrite IH. apply perm_swap.
Qed.

Lemma orderByCreatedAtDesc_perm (l : list Order) :
  Permutation (orderByCreatedAtDesc l) l.
Proof.
  induction l as [|o l IH]; simpl; [reflexivity|].
  rewrite insertByCreatedAtDesc_perm. constructor. exact IH.
Qed.

Lemma insertByCreatedAtDesc_sorted (o : Order) (l : list Order) :
  StronglySorted (fun a b => created_at b <= created_at a) l ->
  StronglySorted (fun a b => created_at b <= created_at a)
                 (insertByCreatedAtDesc o l).
Proof.
  induction 1 as [|x l Hs IH Hx]; simpl.
  - constructor; constructor.
  - destruct (Z.leb_spec (created_at x) (created_at o)) as [Hle|Hgt].
    + constructor; [constructor; assumption|].
      constructor; [exact Hle|].
      eapply Forall_impl; [|exact Hx]. simpl. intros b Hb. lia.
    + constructor; [exact IH|].
      eapply Permutation_Forall; [symmetry; apply insertByCreatedAtDesc_perm|].
      constructor; [lia | exact Hx].
Qed.

Lemma orderByCreatedAtDesc_sorted (l : list Order) :
  StronglySorted (fun a b => created_at b <= created_at a)
                 (orderByCreatedAtDesc l).
Proof.
  induction l as [|o l IH]; simpl; [constructor|].
  apply insertByCreatedAtDesc_sorted, IH.
Qed.

Lemma StronglySorted_app_inv {A : Type} (R : A -> A -> Prop) (l l' : list A) :
  StronglySorted R (l ++ l') ->
  StronglySorted R l /\ Forall (fun a => Forall (R a) l') l.
Proof.
  induction l as [|a l IH]; simpl; intros H.
  - split; constructor.
  - inversion H as [|? ? Hs Hall]; subst.
    destruct (IH Hs) as [Hl Hcross].
    apply Forall_app in Hall. destruct Hall as [Hal Hal'].
    split; constructor; assumption.
Qed.

End NewestFirst.

(** X10: the listing of all orders holds every order of the table exactly
    once, newest first. *)
Theorem getAllOrders_newest_first (db : Database) :
  newestFirst (getAllOrders db)
  /\ Permutation (getAllOrders db) (map withParsedItems (orders db)).
Proof.
  unfold getAllOrders. split.
  - unfold newestFirst.
    apply (StronglySorted_map
             (fun a b => created_at (fetched b) <= created_at (fetched a))
             withParsedItems).
    simpl. apply orderByCreatedAtDesc_sorted.
  - apply Permutation_map, orderByCreatedAtDesc_perm.
Qed.

(** X11: the listing of the recent orders holds [limit] orders, or all of
    them when there are fewer, newest first, and no order it leaves out is
    newer than one it lists. *)
Theorem getRecentOrders_top (db : Database) (limit : nat) :
  List.length (getRecentOrders db limit) = Nat.min limit (List.length (orders db))
  /\ newestFirst (getRecentOrders db limit)
  /\ exists rest,
       Permutation (map withParsedItems (orders db))
                   (getRecentOrders db limit ++ rest)
       /\ Forall (fun f =>
                    Forall (fun g => created_at (fetched g) <= created_at (fetched f))
                           rest)
                 (getRecentOrders db limit).
Proof.
  unfold getRecentOrders.
  pose proof (orderByCreatedAtDesc_sorted (orders db)) as Hsorted.
  pose proof (orderByCreatedAtDesc_perm (orders db)) as Hperm.
  set (sorted := orderByCreatedAtDesc (orders db)) in *.
  rewrite <- (firstn_skipn limit sorted) in Hsorted.
  apply StronglySorted_app_inv in Hsorted. destruct Hsorted as [Hfirst Hcross].
  split; [|split].
  - rewrite length_map, length_firstn.
    rewrite (Permutation_length Hperm). reflexivity.
  - unfold newestFirst.
    apply (StronglySorted_map
             (fun a b => created_at (fetched b) <= created_at (fetched a))
             withParsedItems).
    exact Hfirst.
  - exists (map withParsedItems (skipn limit sorted)). split.
    + rewrite <- map_app, firstn_skipn. apply Permutation_map.
      symmetry. exact Hperm.
    + rewrite Forall_map. eapply Forall_impl; [|exact Hcross].
      simpl. intros o Ho. rewrite Forall_map. exact Ho.
Qed.

(** * Further properties of the writes *)

Lemma map_unmatched (g : Order -> Order) (k : Z) (l : list Order) :
  find (fun o => order_id o =? k) l = None ->
  map (fun o => if order_id o =? k then g o else o) l = l.
Proof.
  induction l as [|o l IH]; simpl; [reflexivity|].
  destruct (order_id o =? k); [discriminate|].
  intros H. f_equal. apply IH, H.
Qed.

(** X12: a status update or an item replacement for an identifier the
    table does not hold changes nothing, and is not an error of the store. *)
Theorem writes_to_unknown_order (db : Database) (now orderId : Z)
  (newStatus : string) (newItems : ItemsArg) :
  selectById db orderId = None ->
  updateOrderStatus db now orderId newStatus = db
  /\ updateOrderItems db now orderId newItems = db.
Proof.
  unfold selectById, updateOrderStatus, updateOrderItems. intros Hnone.
  rewrite !map_unmatched by exact Hnone.
  destruct db; split; reflexivity.
Qed.

Lemma writes_to_unknown_order_witness :
  updateOrderStatus cafe 20 7 "ready" = cafe
  /\ updateOrderItems cafe 20 7 (ArrayOf [tea 1 2]) = cafe.
Proof.
  apply (writes_to_unknown_order cafe 20 7 "ready" (ArrayOf [tea 1 2])).
  reflexivity.
Defined.

(** X13: an item replacement keeps the number of rows and every row's
    identifier, status and creation time, leaves the rows of other
    identifiers as they were, and gives the rows of its identifier the
    consolidated items; items that are no array leave such a row with no
    items and a total of [0]. *)
Theorem updateOrderItems_frame (db : Database) (now orderId : Z)
  (newItems : ItemsArg) :
  Forall2 (fun o o' =>
             order_id o' = order_id o
             /\ order_status o' = order_status o
             /\ created_at o' = created_at o
             /\ (order_id o <> orderId -> o' = o)
             /\ (order_id o = orderId ->
                 order_items o' = processOrderItems newItems
                 /\ updated_at o' = now))
          (orders db) (orders (updateOrderItems db now orderId newItems))
  /\ Forall (fun o' => order_id o' = orderId ->
                       order_items o' = [] /\ order_totalPrice o' = 0)
            (orders (updateOrderItems db now orderId NotAnArray)).
Proof.
  split.
  - unfold updateOrderItems. simpl. apply Forall2_map_r. intros o.
    destruct (Z.eqb_spec (order_id o) orderId) as [E|Hne]; simpl.
    + split; [reflexivity|]. split; [reflexivity|]. split; [reflexivity|].
      split; [intros Hne; contradiction | intros _; split; reflexivity].
    + split; [reflexivity|]. split; [reflexivity|]. split; [reflexivity|].
      split; [reflexivity | intros E; contradiction].
  - unfold updateOrderItems. simpl. apply Forall_map.
    apply Forall_forall. intros o _.
    destruct (Z.eqb_spec (order_id o) orderId) as [E|Hne]; simpl.
    + intros _. split; reflexivity.
    + intros H. contradiction.
Qed.

(** * Further properties of the status routes *)

Section Answers.

Variable r : Router.
Variable db : Database.
Variable now : Z.

Lemma put_status_success_inv (orderId : Z) (status : option string) :
  success (response (put_status r db now orderId status)) = true ->
  exists s existingOrder,
    status = Some s
    /\ statusIn allowedStatuses s = true
    /\ getOrderById db orderId = Some existingOrder.
Proof.
  unfold put_status. destruct status as [s|]; [|discriminate].
  destruct (s =? EmptyString)%string; [discriminate|].
  destruct (statusIn allowedStatuses s) eqn:Hs; simpl; [|discriminate].
  destruct (getOrderById db orderId) as [f|]; [|discriminate].
  intros _. exists s, f. repeat split. exact Hs.
Qed.

Lemma delete_order_success_inv (orderId : Z) :
  success (response (delete_order r db now orderId)) = true ->
  exists existingOrder, getOrderById db orderId = Some existingOrder.
Proof.
  unfold delete_order. destruct (getOrderById db orderId) as [f|]; [|discriminate].
  intros _. exists f. reflexivity.
Qed.

Lemma post_auto_update_status_success_inv (req : AutoUpdateBody) :
  success (response (post_auto_update_status r db now req)) = true ->
  exists orderId existingOrder,
    auto_orderId req = Some orderId
    /\ orderId <> 0
    /\ auto_status req = Some "delivered"
    /\ getOrderById db orderId = Some existingOrder
    /\ post_auto_update_status r db now req =
       (updateOrderStatus db now orderId "delivered",
        {| code := 200;
           body := StatusAutoUpdated orderId (order_status (fetched existingOrder))
                     "delivered" (Js.str_or_default (auto_source req) "robot") |},
        ioEmit r (order_status_updated orderId
                    (order_status (fetched existingOrder)) "delivered" true)).
Proof.
  unfold post_auto_update_status.
  destruct (auto_orderId req) as [orderId|] eqn:Hid; [|discriminate].
  destruct (auto_status req) as [s|] eqn:Hst;
    [|simpl; rewrite orb_true_r; discriminate].
  simpl.
  destruct (Z.eqb_spec orderId 0) as [E|Hne]; [discriminate|].
  destruct (String.eqb_spec s EmptyString) as [E|_]; [discriminate|].
  simpl.
  destruct (getOrderById db orderId) as [f|] eqn:Hget; [|discriminate].
  unfold statusIn, allowedAutoStatuses. simpl. rewrite orb_false_r.
  destruct (String.eqb_spec s "delivered") as [->|_]; simpl; [|discriminate].
  intros _. exists orderId, f.
  split; [reflexivity|]. split; [exact Hne|]. split; [reflexivity|].
  split; [exact Hget | reflexivity].
Qed.

End Answers.


(** X14: a request that is answered with a failure leaves the table as it
    was, emits nothing, and is answered [400], [404] or, for a submission
    whose array holds a [null], [500]. *)
Theorem failed_request_changes_nothing (r : Router) (db : Database) (now : Z)
  (q : Request) :
  success (response (handle r db now q)) = false ->
  database (handle r db now q) = db
  /\ effects (handle r db now q) = []
  /\ (code (response (handle r db now q)) = 400
      \/ code (response (handle r db now q)) = 404
      \/ (code (response (handle r db now q)) = 500
          /\ exists req, q = PostSubmit req /\ body_items req = ArrayWithNull)).
Proof.
  destruct q as [req|orderId status|orderId|req]; simpl.
  - intros Hno.
    destruct (post_submit_cases r db now req)
      as [(m & _ & H)|[(_ & Hnull & H)|(_ & _ & H)]].
    + rewrite H. auto.
    + rewrite H. repeat split. right. right. split; [reflexivity|]. eauto.
    + congruence.
  - unfold put_status. destruct status as [s|]; [|auto].
    destruct (s =? EmptyString)%string; [auto|].
    destruct (negb (statusIn allowedStatuses s)); [auto|].
    destruct (getOrderById db orderId); [discriminate | auto].
  - unfold delete_order.
    destruct (getOrderById db orderId); [discriminate | auto].
  - unfold post_auto_update_status.
    destruct (negb (Js.truthy_num (auto_orderId req))
              || negb (Js.truthy_str (auto_status req))); [auto|].
    destruct (auto_orderId req) as [orderId|]; [|auto].
    destruct (auto_status req) as [s|]; [|auto].
    destruct (getOrderById db orderId); [|auto].
    destruct (negb (statusIn allowedAutoStatuses s)); [auto | discriminate].
Qed.

Lemma failed_request_witness :
  database (handle online cafe 20 (PutStatus 1 (Some "done"))) = cafe
  /\ effects (handle online cafe 20 (PutStatus 1 (Some "done"))) = [].
Proof.
  destruct (failed_request_changes_nothing online cafe 20
              (PutStatus 1 (Some "done"))) as [Hdb [Heff _]].
  - reflexivity.
  - split; [exact Hdb | exact Heff].
Defined.

(** X15: the staff update succeeds exactly when the status is one of the
    five allowed ones and the order exists.  A missing or unknown status is
    answered [400] whether or not the order exists; [404] is answered
    exactly when the status is allowed and the order is not there. *)
Theorem put_status_answer (r : Router) (db : Database) (now orderId : Z)
  (status : option string) :
  (success (response (put_status r db now orderId status)) = true <->
   (exists s, status = Some s /\ In s allowedStatuses)
   /\ getOrderById db orderId <> None)
  /\ (code (response (put_status r db now orderId status)) = 404 <->
      (exists s, status = Some s /\ In s allowedStatuses)
      /\ getOrderById db orderId = None)
  /\ (code (response (put_status r db now orderId status)) = 400 <->
      ~ (exists s, status = Some s /\ In s allowedStatuses)).
Proof.
  set (P := exists s, status = Some s /\ In s allowedStatuses).
  assert (Hcases :
    (~ P /\ code (response (put_status r db now orderId status)) = 400
         /\ success (response (put_status r db now orderId status)) = false)
    \/ (P /\ getOrderById db orderId = None
           /\ code (response (put_status r db now orderId status)) = 404
           /\ success (response (put_status r db now orderId status)) = false)
    \/ (P /\ getOrderById db orderId <> None
           /\ code (response (put_status r db now orderId status)) = 200
           /\ success (response (put_status r db now orderId status)) = true)).
  { unfold P, put_status. destruct status as [s|].
    2: { left. split; [intros [s [H _]]; discriminate | split; reflexivity]. }
    destruct (statusIn allowedStatuses s) eqn:Hs.
    - pose proof (statusIn_allowed_nonempty s Hs) as Hne.
      apply String.eqb_neq in Hne. rewrite Hne. simpl.
      apply statusIn_In in Hs.
      destruct (getOrderById db orderId) as [f|].
      + right. right. split; [eauto|]. split; [discriminate | split; reflexivity].
      + right. left. split; [eauto|]. split; [reflexivity | split; reflexivity].
    - left. split.
      + intros [s0 [H H0]]. injection H as <-.
        apply statusIn_In in H0. congruence.
      + destruct (s =? EmptyString)%string; split; reflexivity. }
  destruct Hcases as [[HnP [Hc Hs]]|[[HP [Hq [Hc Hs]]]|[HP [Hq [Hc Hs]]]]];
    rewrite Hc, Hs.
  - split; [|split].
    + split; [discriminate | intros [H _]; contradiction].
    + split; [discriminate | intros [H _]; contradiction].
    + split; [intros _; exact HnP | reflexivity].
  - split; [|split].
    + split; [discriminate | intros [_ H]; contradiction].
    + split; [intros _; split; assumption | reflexivity].
    + split; [discriminate | intros H; contradiction].
  - split; [|split].
    + split; [intros _; split; assumption | reflexivity].
    + split; [discriminate | intros [_ H]; contradiction].
    + split; [discriminate | intros H; contradiction].
Qed.

(** X16: the automated update succeeds exactly when it names an existing
    order and asks for [delivered].  A request that carries an identifier
    and a status for an order that does not exist is answered [404],
    whatever the status. *)
Theorem post_auto_update_status_answer (r : Router) (db : Database) (now : Z)
  (req : AutoUpdateBody) :
  (success (response (post_auto_update_status r db now req)) = true <->
   exists orderId,
     auto_orderId req = Some orderId /\ orderId <> 0
     /\ auto_status req = Some "delivered"
     /\ getOrderById db orderId <> None)
  /\ (code (response (post_auto_update_status r db now req)) = 404 <->
      exists orderId s,
        auto_orderId req = Some orderId /\ orderId <> 0
        /\ auto_status req = Some s /\ s <> EmptyString
        /\ getOrderById db orderId = None).
Proof.
  split.
  - split.
    + intros Hok.
      destruct (post_auto_update_status_success_inv r db now req Hok)
        as [orderId [f [Hid [Hne [Hst [Hget _]]]]]].
      exists orderId. rewrite Hget. repeat split; try assumption. discriminate.
    + intros [orderId [Hid [Hne [Hst Hget]]]].
      unfold post_auto_update_status. rewrite Hid, Hst. simpl.
      destruct (Z.eqb_spec orderId 0) as [E|_]; [contradiction|]. simpl.
      destruct (getOrderById db orderId); [reflexivity | contradiction].
  - unfold post_auto_update_status.
    destruct (auto_orderId req) as [orderId|].
    2: { simpl. split; [discriminate | intros [i [s [H _]]]; discriminate]. }
    destruct (auto_status req) as [s|].
    2: { simpl. rewrite orb_true_r. simpl.
         split; [discriminate | intros [i [s [_ [_ [H _]]]]]; discriminate]. }
    simpl.
    destruct (Z.eqb_spec orderId 0) as [E|Hne]; simpl.
    { split; [discriminate|].
      intros [i [s0 [H [Hi _]]]]. injection H as <-. contradiction. }
    destruct (String.eqb_spec s EmptyString) as [E|Hs]; simpl.
    { split; [discriminate|].
      intros [i [s0 [_ [_ [H [Hs0 _]]]]]]. injection H as <-. contradiction. }
    destruct (getOrderById db orderId) as [f|] eqn:Hget.
    + split.
      * destruct (s =? "delivered")%string; simpl; intros H; discriminate H.
      * intros [i [s0 [H [_ [_ [_ Hnone]]]]]]. injection H as <-.
        rewrite Hget in Hnone. discriminate.
    + split; [|reflexivity]. intros _. exists orderId, s. auto.
Qed.

Section Traces.

Variable r : Router.

Lemma ioEvents_app (t t' : list Effect) :
  ioEvents (t ++ t') = ioEvents t ++ ioEvents t'.
Proof. unfold ioEvents. apply flat_map_app. Qed.

Lemma ioEvents_ioEmit (e : IoEvent) :
  ioEvents (ioEmit r e) = if io r then [e] else [].
Proof. unfold ioEmit. destruct (io r); reflexivity. Qed.

Lemma ioEvents_publishStatusChange (orderId : Z) (oldStatus newStatus : string) :
  ioEvents (publishStatusChange r orderId oldStatus newStatus) = [].
Proof.
  unfold publishStatusChange. destruct (connectedAt r 0); [|reflexivity].
  destruct (mqttService r) as [svc|]; [|reflexivity].
  unfold publishOrderStatusUpdate, publish.
  destruct (isConnected (svc 0%nat)); reflexivity.
Qed.

Lemma ioEvents_sendOrderToRobot (svc : MQTTService) (orderData : RobotOrderData) :
  ioEvents (snd (sendOrderToRobot svc orderData)) = [].
Proof.
  unfold sendOrderToRobot, publish. destruct (isConnected svc); reflexivity.
Qed.

(** The dispatch block tells the dashboards at most how the dispatch went,
    never a status change. *)
Lemma statusUpdates_dispatchToRobot (orderId : Z) (status : string)
  (updatedOrder : option FetchedOrder) :
  filter isStatusUpdate (ioEvents (dispatchToRobot r orderId status updatedOrder))
  = [].
Proof.
  unfold dispatchToRobot.
  destruct ((status =? "ready")%string && connectedAt r 1).
  - destruct (mqttService r) as [svc|]; [destruct updatedOrder as [u|]|].
    + pose proof (ioEvents_sendOrderToRobot (svc 1%nat)
                    {| robot_id := order_id (fetched u);
                       robot_table_id := order_tableId (fetched u);
                       robot_items := order_items (fetched u);
                       robot_total_price := order_totalPrice (fetched u);
                       robot_priority := Some "normal" |}) as Hsend.
      destruct (sendOrderToRobot (svc 1%nat) _) as [[|e] t]; simpl in Hsend;
        rewrite ioEvents_app, Hsend, ioEvents_ioEmit; destruct (io r); reflexivity.
    + rewrite ioEvents_ioEmit. destruct (io r); reflexivity.
    + rewrite ioEvents_ioEmit. destruct (io r); reflexivity.
  - destruct ((status =? "ready")%string && negb (connectedAt r 1)); [|reflexivity].
    rewrite ioEvents_ioEmit. destruct (io r); reflexivity.
Qed.

Lemma filter_isDispatch_publishStatusChange (orderId : Z)
  (oldStatus newStatus : string) :
  filter isDispatch (publishStatusChange r orderId oldStatus newStatus) = [].
Proof.
  apply length_zero_iff_nil.
  apply (dispatchCount_publishStatusChange r orderId oldStatus newStatus).
Qed.

Lemma filter_isDispatch_ioEmit (e : IoEvent) : filter isDispatch (ioEmit r e) = [].
Proof. unfold ioEmit. destruct (io r); reflexivity. Qed.

End Traces.

Lemma put_status_failed (r : Router) (db : Database) (now orderId : Z)
  (status : option string) :
  success (response (put_status r db now orderId status)) = false ->
  effects (put_status r db now orderId status) = []
  /\ exists c message,
       response (put_status r db now orderId status) = fail c message.
Proof.
  assert (Hfail : forall c message,
            effects (db, fail c message, @nil Effect) = []
            /\ exists c' message',
                 response (db, fail c message, @nil Effect) = fail c' message').
  { intros c message. split; [reflexivity|]. exists c, message. reflexivity. }
  unfold put_status. destruct status as [s|]; [|intros _; apply Hfail].
  destruct (s =? EmptyString)%string; [intros _; apply Hfail|].
  destruct (negb (statusIn allowedStatuses s)); [intros _; apply Hfail|].
  destruct (getOrderById db orderId); [intros H; discriminate H|].
  intros _; apply Hfail.
Qed.

(** X17: a staff update to a status other than [ready] dispatches nothing
    to the agent, pushes to the dashboards nothing but the status change,
    and answers with [robotNotified = false]. *)
Theorem no_dispatch_unless_ready (r : Router) (db : Database) (now orderId : Z)
  (s : string) :
  s <> "ready" ->
  dispatchCount (effects (put_status r db now orderId (Some s))) = 0%nat
  /\ Forall (fun ev => isStatusUpdate ev = true)
            (ioEvents (effects (put_status r db now orderId (Some s))))
  /\ (forall old rn,
         body (response (put_status r db now orderId (Some s)))
         = StatusUpdated orderId old s rn ->
         rn = Some false).
Proof.
  intros Hne. apply String.eqb_neq in Hne.
  destruct (success (response (put_status r db now orderId (Some s)))) eqn:Hok.
  - destruct (put_status_success_inv r db now orderId (Some s) Hok)
      as [s' [f [Hs' [Hallowed Hget]]]].
    injection Hs' as <-.
    rewrite (put_status_accepted r db now orderId f Hget s Hallowed).
    unfold effects, response. simpl fst. simpl snd.
    assert (Hd : dispatchToRobot r orderId s
                   (getOrderById (updateOrderStatus db now orderId s) orderId) = []).
    { unfold dispatchToRobot. rewrite Hne. reflexivity. }
    rewrite Hd. simpl app.
    split; [|split].
    + rewrite dispatchCount_app, dispatchCount_publishStatusChange,
        dispatchCount_ioEmit. reflexivity.
    + rewrite ioEvents_app, ioEvents_publishStatusChange, ioEvents_ioEmit.
      destruct (io r); repeat constructor.
    + intros old rn H. injection H as _ <-.
      unfold robotNotifiedField. rewrite Hne. reflexivity.
  - destruct (put_status_failed r db now orderId (Some s) Hok)
      as [Heff [c [message Hres]]].
    rewrite Heff, Hres. split; [reflexivity|]. split; [constructor|].
    intros old rn H. discriminate H.
Qed.

Lemma no_dispatch_unless_ready_witness :
  dispatchCount (effects (put_status online cafe 20 1 (Some "preparing"))) = 0%nat
  /\ ioEvents (effects (put_status online cafe 20 1 (Some "preparing")))
     = [order_status_updated 1 "pending" "preparing" false].
Proof.
  destruct (no_dispatch_unless_ready online cafe 20 1 "preparing") as [Hd _].
  - discriminate.
  - split; [exact Hd | reflexivity].
Defined.

Lemma statusUpdates_pushed (r : Router) (t d : list Effect) (ev : IoEvent) :
  ioEvents t = [] ->
  filter isStatusUpdate (ioEvents d) = [] ->
  isStatusUpdate ev = true ->
  filter isStatusUpdate (ioEvents (t ++ d ++ ioEmit r ev))
  = if io r then [ev] else [].
Proof.
  intros Ht Hd Hev.
  rewrite !ioEvents_app, Ht. simpl app.
  rewrite filter_app, Hd, ioEvents_ioEmit. simpl app.
  destruct (io r); simpl; [rewrite Hev|]; reflexivity.
Qed.

(** X18: every successful status change, by the staff, by the soft cancel
    or by the agent, is pushed to the dashboards exactly once when the
    socket is set, and not at all when it is not; the event carries the
    status the order had and the status it now has, and marks the
    automated change. *)
Theorem status_change_pushed_once (r : Router) (db : Database) (now : Z)
  (q : Request) :
  isSubmit q = false ->
  success (response (handle r db now q)) = true ->
  exists orderId oldStatus newStatus,
    statusOf db orderId = Some oldStatus
    /\ statusOf (database (handle r db now q)) orderId = Some newStatus
    /\ filter isStatusUpdate (ioEvents (effects (handle r db now q)))
       = if io r
         then [order_status_updated orderId oldStatus newStatus (isAutomated q)]
         else [].
Proof.
  destruct q as [req|orderId status|orderId|req]; simpl; intros Hq Hok;
    [discriminate Hq| | |].
  - destruct (put_status_success_inv r db now orderId status Hok)
      as [s [f [-> [Hallowed Hget]]]].
    rewrite (put_status_accepted r db now orderId f Hget s Hallowed).
    exists orderId, (order_status (fetched f)), s.
    unfold database, effects. simpl fst. simpl snd.
    split; [unfold statusOf; rewrite Hget; reflexivity|].
    split; [apply (statusOf_updateOrderStatus db now orderId f Hget)|].
    apply statusUpdates_pushed;
      [apply ioEvents_publishStatusChange | apply statusUpdates_dispatchToRobot
       | reflexivity].
  - destruct (delete_order_success_inv r db now orderId Hok) as [f Hget].
    rewrite (delete_order_accepted r db now orderId f Hget).
    exists orderId, (order_status (fetched f)), "cancelled".
    unfold database, effects. simpl fst. simpl snd.
    split; [unfold statusOf; rewrite Hget; reflexivity|].
    split; [apply (statusOf_updateOrderStatus db now orderId f Hget)|].
    apply (statusUpdates_pushed r _ []);
      [apply ioEvents_publishStatusChange | reflexivity | reflexivity].
  - destruct (post_auto_update_status_success_inv r db now req Hok)
      as [orderId [f [_ [_ [_ [Hget ->]]]]]].
    exists orderId, (order_status (fetched f)), "delivered".
    unfold database, effects. simpl fst. simpl snd.
    split; [unfold statusOf; rewrite Hget; reflexivity|].
    split; [apply (statusOf_updateOrderStatus db now orderId f Hget)|].
    apply (statusUpdates_pushed r [] []); reflexivity.
Qed.

Lemma status_change_pushed_once_witness :
  filter isStatusUpdate
         (ioEvents (effects (handle online (cafeWith "ready") 20
                               (PostAutoUpdate
                                  (mkAutoUpdateBody (Some 1) (Some "delivered") None)))))
  = [order_status_updated 1 "ready" "delivered" true].
Proof.
  destruct (status_change_pushed_once online (cafeWith "ready") 20
              (PostAutoUpdate (mkAutoUpdateBody (Some 1) (Some "delivered") None)))
    as [orderId [old [new [_ [_ Hpush]]]]].
  - reflexivity.
  - reflexivity.
  - reflexivity.
Defined.

(** X19: when the service is connected at the moment of the dispatch, a
    staff update of an existing order to [ready] hands the client exactly
    one message on the agent topic, at [qos 1] and not retained, carrying
    the identifier, the table, the items and the total of the order and the
    priority [normal]; the dashboards are then told whether the client
    accepted it. *)
Theorem ready_dispatch_message (r : Router) (svc : nat -> MQTTService)
  (db : Database) (now orderId : Z) (existingOrder : FetchedOrder) :
  mqttService r = Some svc ->
  isConnected (svc 1%nat) = true ->
  getOrderById db orderId = Some existingOrder ->
  filter isDispatch (effects (put_status r db now orderId (Some "ready")))
  = [ClientPublish ROBOT_ORDERS
       (RobotOrder orderId
          (order_tableId (fetched existingOrder))
          (order_items (fetched existingOrder))
          (order_totalPrice (fetched existingOrder))
          "normal")
       1 false false]
  /\ filter (fun ev => negb (isStatusUpdate ev))
            (ioEvents (effects (put_status r db now orderId (Some "ready"))))
     = if io r
       then [order_sent_to_robot (clientAccepts (svc 1%nat)) orderId]
       else [].
Proof.
  intros Hsvc Hconn Hget.
  rewrite (put_status_accepted r db now orderId existingOrder Hget "ready")
    by reflexivity.
  unfold effects. simpl snd.
  destruct (getOrderById_selectById _ _ _ Hget) as [o [Hsel ->]].
  assert (Hupd : getOrderById (updateOrderStatus db now orderId "ready") orderId
                 = Some (withParsedItems (setStatus "ready" now o))).
  { unfold getOrderById.
    rewrite (selectById_updateOrderStatus db now orderId "ready" o Hsel).
    reflexivity. }
  rewrite Hupd.
  destruct (selectById_In _ _ _ Hsel) as [_ Hid].
  unfold dispatchToRobot, connectedAt.
  rewrite Hsvc, Hconn, String.eqb_refl. simpl andb. cbv iota.
  unfold sendOrderToRobot, publish. rewrite Hconn. cbn [negb].
  split.
  - rewrite !filter_app, filter_isDispatch_publishStatusChange,
      filter_isDispatch_ioEmit.
    destruct (clientAccepts (svc 1%nat)); rewrite filter_app, filter_isDispatch_ioEmit;
      simpl; rewrite Hid; reflexivity.
  - destruct (clientAccepts (svc 1%nat));
      rewrite !ioEvents_app, ioEvents_publishStatusChange, !ioEvents_ioEmit;
      destruct (io r); reflexivity.
Qed.

Lemma ready_dispatch_message_witness :
  filter isDispatch (effects (put_status online cafe 20 1 (Some "ready")))
  = [ClientPublish ROBOT_ORDERS
       (RobotOrder 1 (Js.Num 4) [mkItem "Tea" 3 2 6] 6 "normal") 1 false false].
Proof.
  edestruct (ready_dispatch_message online
               (fun _ => {| isConnected := true; clientAccepts := true |})
               cafe 20 1) as [Hmsg _].
  - reflexivity.
  - reflexivity.
  - reflexivity.
  - exact Hmsg.
Defined.

(** * Further properties of the service *)

(** X20: every publishing method rejects at once, handing nothing to the
    client, when the service is not connected; when it is connected it hands
    the client exactly one message, on the topic of the method, at [qos 1]
    ([qos 2] for the emergency stop), retained only for the system status,
    and settles as the client answers. *)
Theorem publishing_methods (svc : MQTTService) (c : PublishCall) :
  (isConnected svc = false -> perform svc c = (Rejected NotConnected, []))
  /\ (isConnected svc = true ->
      (exists data,
          clientPublishes (snd (perform svc c))
          = [ClientPublish (topicOf c) data (qosOf c) (retainOf c) false])
      /\ fst (perform svc c)
         = if clientAccepts svc then Resolved else Rejected ClientError).
Proof.
  split; intros Hconn.
  - destruct c; simpl;
      unfold publishOrderStatusUpdate, publishNewOrder, sendOrderToRobot,
        publishSystemStatus, emergencyStop, publish;
      rewrite Hconn; reflexivity.
  - destruct c; simpl;
      unfold publishOrderStatusUpdate, publishNewOrder, sendOrderToRobot,
        publishSystemStatus, emergencyStop, publish;
      rewrite Hconn; cbn [negb];
      (split; [eexists; destruct (clientAccepts svc); reflexivity
              | destruct (clientAccepts svc); reflexivity]).
Qed.

Lemma publishing_methods_witness :
  perform {| isConnected := false; clientAccepts := true |}
          (CallSystemStatus "online") = (Rejected NotConnected, [])
  /\ fst (perform {| isConnected := true; clientAccepts := false |}
                  CallEmergencyStop) = Rejected ClientError.
Proof.
  split.
  - apply (proj1 (publishing_methods {| isConnected := false; clientAccepts := true |}
                    (CallSystemStatus "online"))).
    reflexivity.
  - apply (proj2 (publishing_methods {| isConnected := true; clientAccepts := false |}
                    CallEmergencyStop)).
    reflexivity.
Defined.

(** X21: [publishNewOrder] raises the [newOrder] event of the service
    exactly when the publication succeeded, that is when the service is
    connected and the client accepted the message. *)
Theorem publishNewOrder_event (svc : MQTTService) (order : Order) :
  (In (ServiceEmit "newOrder") (snd (publishNewOrder svc order)) <->
   fst (publishNewOrder svc order) = Resolved)
  /\ (fst (publishNewOrder svc order) = Resolved <->
      isConnected svc = true /\ clientAccepts svc = true).
Proof.
  unfold publishNewOrder, publish.
  destruct (isConnected svc), (clientAccepts svc); simpl.
  - split; split; auto.
  - split; split.
    + intros [H|[]]; discriminate H.
    + discriminate.
    + discriminate.
    + intros [_ H]; discriminate H.
  - split; split.
    + intros [].
    + discriminate.
    + discriminate.
    + intros [H _]; discriminate H.
  - split; split.
    + intros [].
    + discriminate.
    + discriminate.
    + intros [H _]; discriminate H.
Qed.

(** X22: [publish] never hands the client a message at [qos 0]: a request
    for it, like no request at all, goes out at [qos 1]. *)
Theorem publish_qos_never_zero (svc : MQTTService) (topic : string)
  (data : Payload) (options : PublishOptions) :
  Forall (fun e => match e with
                   | ClientPublish _ _ q _ _ =>
                       q <> 0
                       /\ (opt_qos options = Some 0 \/ opt_qos options = None -> q = 1)
                   | _ => True
                   end)
         (snd (publish svc topic data options)).
Proof.
  unfold publish. destruct (isConnected svc); simpl; constructor; [|constructor].
  split.
  - apply num_or_default_nonzero. discriminate.
  - intros [H|H]; rewrite H; reflexivity.
Qed.

Section Reconnection.

Lemma delaysOf_app (t t' : list LinkAction) :
  delaysOf (t ++ t') = delaysOf t ++ delaysOf t'.
Proof. unfold delaysOf. apply flat_map_app. Qed.

Lemma delaysOf_Did (l : list Effect) : delaysOf (map Did l) = [].
Proof. induction l as [|e l IH]; simpl; [reflexivity | exact IH]. Qed.

Lemma delaysOf_Subscribed (l : list string) :
  delaysOf (map (fun topic => Subscribed topic 1) l) = [].
Proof. induction l as [|e l IH]; simpl; [reflexivity | exact IH]. Qed.

(** What [handleReconnection] does to the counter and the timers. *)
Lemma handleReconnection_counters (l : Link) :
  service (fst (handleReconnection l)) = service l
  /\ maxReconnectAttempts (fst (handleReconnection l)) = maxReconnectAttempts l
  /\ if (reconnectAttempts l <? maxReconnectAttempts l)%nat
     then reconnectAttempts (fst (handleReconnection l)) = S (reconnectAttempts l)
          /\ snd (handleReconnection l)
             = [ReconnectIn (reconnectDelay (S (reconnectAttempts l)))]
     else reconnectAttempts (fst (handleReconnection l)) = reconnectAttempts l
          /\ snd (handleReconnection l)
             = [Did (ServiceEmit "maxReconnectAttemptsReached")].
Proof.
  unfold handleReconnection.
  destruct (reconnectAttempts l <? maxReconnectAttempts l)%nat; simpl; auto.
Qed.

(** What an event other than a connection does to the counter and the
    timers. *)
Lemma onEvent_counters (l : Link) (ev : ClientEvent) :
  isConnect ev = false ->
  maxReconnectAttempts (fst (onEvent l ev)) = maxReconnectAttempts l
  /\ if callsReconnection l ev
        && (reconnectAttempts l <? maxReconnectAttempts l)%nat
     then reconnectAttempts (fst (onEvent l ev)) = S (reconnectAttempts l)
          /\ delaysOf (snd (onEvent l ev))
             = [reconnectDelay (S (reconnectAttempts l))]
     else reconnectAttempts (fst (onEvent l ev)) = reconnectAttempts l
          /\ delaysOf (snd (onEvent l ev)) = [].
Proof.
  destruct ev as [|message| | | |raises]; simpl; intros Hc; try discriminate Hc.
  - pose proof (handleReconnection_counters (setConnected l false)) as H.
    destruct (handleReconnection (setConnected l false)) as [l' t].
    simpl in *. destruct H as [_ [Hmax H]]. split; [exact Hmax|].
    rewrite delaysOf_app.
    assert (Hf : delaysOf
                   (if includes message "Not authorized"
                       || includes message "Connection refused"
                    then [Did (ServiceEmit "authenticationFailed")] else []) = []).
    { destruct (includes message "Not authorized"
                || includes message "Connection refused"); reflexivity. }
    rewrite Hf. simpl app.
    destruct (reconnectAttempts l <? maxReconnectAttempts l)%nat;
      destruct H as [Ha Ht]; rewrite Ht; auto.
  - pose proof (handleReconnection_counters (setConnected l false)) as H.
    destruct (handleReconnection (setConnected l false)) as [l' t].
    simpl in *. destruct H as [_ [Hmax H]]. split; [exact Hmax|].
    destruct (reconnectAttempts l <? maxReconnectAttempts l)%nat;
      destruct H as [Ha Ht]; rewrite Ht; auto.
  - auto.
  - auto.
  - destruct (isConnected (service l)); simpl.
    + rewrite andb_false_r. simpl. auto.
    + destruct raises; simpl; [|auto].
      pose proof (handleReconnection_counters l) as H.
      destruct H as [_ [Hmax H]]. split; [exact Hmax|].
      destruct (reconnectAttempts l <? maxReconnectAttempts l)%nat;
        destruct H as [Ha Ht]; rewrite Ht; auto.
Qed.

(** The calls of [handleReconnection] in a run, event by event. *)
Lemma reconnectionCalls_cons (l : Link) (ev : ClientEvent)
  (evs : list ClientEvent) :
  isConnect ev = false ->
  reconnectionCalls (isConnected (service l)) (ev :: evs)
  = ((if callsReconnection l ev then 1 else 0)
     + reconnectionCalls (isConnected (service (fst (onEvent l ev)))) evs)%nat.
Proof.
  destruct ev as [|message| | | |raises]; simpl; intros Hc; try discriminate Hc.
  - pose proof (handleReconnection_counters (setConnected l false)) as [Hs _].
    destruct (handleReconnection (setConnected l false)) as [l' t].
    simpl in *. rewrite Hs. reflexivity.
  - pose proof (handleReconnection_counters (setConnected l false)) as [Hs _].
    rewrite Hs. reflexivity.
  - reflexivity.
  - reflexivity.
  - destruct (isConnected (service l)) eqn:Hconn; simpl.
    + rewrite andb_false_r, Hconn. reflexivity.
    + destruct raises; simpl; [|rewrite Hconn; reflexivity].
      pose proof (handleReconnection_counters l) as [Hs _].
      rewrite Hs, Hconn. reflexivity.
Qed.

Lemma onEvent_connect (l : Link) :
  onEvent l OnConnect =
  ({| service := {| isConnected := true;
                    clientAccepts := clientAccepts (service l) |};
      reconnectAttempts := 0;
      maxReconnectAttempts := maxReconnectAttempts l |},
   map (fun topic => Subscribed topic 1) topicsToSubscribe
     ++ [Did (ClientPublish SYSTEM_STATUS (SystemStatus "online") 1 true false);
         Did (ServiceEmit "connected")]).
Proof. reflexivity. Qed.

Lemma runEvents_cons (l : Link) (ev : ClientEvent) (evs : list ClientEvent) :
  fst (runEvents l (ev :: evs)) = fst (runEvents (fst (onEvent l ev)) evs)
  /\ snd (runEvents l (ev :: evs))
     = snd (onEvent l ev) ++ snd (runEvents (fst (onEvent l ev)) evs).
Proof.
  cbn [runEvents]. destruct (onEvent l ev) as [l' t]. cbn [fst snd].
  destruct (runEvents l' evs) as [l'' t']. split; reflexivity.
Qed.

Lemma runEvents_app (evs evs' : list ClientEvent) :
  forall l : Link,
    fst (runEvents l (evs ++ evs')) = fst (runEvents (fst (runEvents l evs)) evs')
    /\ snd (runEvents l (evs ++ evs'))
       = snd (runEvents l evs) ++ snd (runEvents (fst (runEvents l evs)) evs').
Proof.
  induction evs as [|ev evs IH]; intros l; [split; reflexivity|].
  rewrite <- app_comm_cons.
  destruct (runEvents_cons l ev (evs ++ evs')) as [-> ->].
  destruct (runEvents_cons l ev evs) as [-> ->].
  destruct (IH (fst (onEvent l ev))) as [-> ->].
  split; [reflexivity | apply app_assoc].
Qed.

Lemma reconnectDelay_bounds (n : nat) :
  5000 <= reconnectDelay (S n) <= 30000.
Proof. unfold reconnectDelay. lia. Qed.

Lemma reconnectDelay_mono (n m : nat) :
  (n <= m)%nat -> reconnectDelay n <= reconnectDelay m.
Proof. unfold reconnectDelay. lia. Qed.

End Reconnection.

(** X23: the reconnection counter never passes its cap: from a service
    whose counter is within the cap, whatever the events, the counter stays
    within the cap, and the cap itself never changes. *)
Theorem reconnectAttempts_bounded (evs : list ClientEvent) :
  forall l : Link,
    (reconnectAttempts l <= maxReconnectAttempts l)%nat ->
    (reconnectAttempts (fst (runEvents l evs))
     <= maxReconnectAttempts (fst (runEvents l evs)))%nat
    /\ maxReconnectAttempts (fst (runEvents l evs)) = maxReconnectAttempts l.
Proof.
  induction evs as [|ev evs IH]; intros l Hle; [split; [exact Hle | reflexivity]|].
  destruct (runEvents_cons l ev evs) as [-> _].
  assert (Hstep : (reconnectAttempts (fst (onEvent l ev))
                   <= maxReconnectAttempts (fst (onEvent l ev)))%nat
                  /\ maxReconnectAttempts (fst (onEvent l ev))
                     = maxReconnectAttempts l).
  { destruct (isConnect ev) eqn:Hc.
    - destruct ev; try discriminate Hc. rewrite onEvent_connect. simpl.
      split; [lia | reflexivity].
    - destruct (onEvent_counters l ev Hc) as [Hmax H]. rewrite Hmax.
      split; [|reflexivity].
      destruct (Nat.ltb_spec (reconnectAttempts l) (maxReconnectAttempts l));
        destruct (callsReconnection l ev); simpl in H; destruct H as [Ha _]; lia. }
  destruct Hstep as [Hle' Hmax'].
  destruct (IH _ Hle') as [H1 H2]. split; [exact H1 | congruence].
Qed.

Lemma reconnectAttempts_bounded_witness :
  (reconnectAttempts
     (fst (runEvents (newLink true)
             [OnError "Connection refused"; OnClose; OnClose; OnConnect; OnClose]))
   <= 10)%nat.
Proof.
  destruct (reconnectAttempts_bounded
              [OnError "Connection refused"; OnClose; OnClose; OnConnect; OnClose]
              (newLink true)) as [Hle Hmax].
  - simpl. lia.
  - rewrite Hmax in Hle. exact Hle.
Defined.

(** X24: as long as no connection succeeds, every call of
    [handleReconnection] (by an error, by a close of the client, or by a
    timer whose [init] raises while the service is disconnected) consumes one
    attempt and sets one timer, until the cap is reached; after that no
    timer is set.  The number of timers set in such a run is the smaller of
    the number of calls and the attempts left. *)
Theorem reconnect_timers_counted (evs : list ClientEvent) :
  forall l : Link,
    (reconnectAttempts l <= maxReconnectAttempts l)%nat ->
    Forall (fun ev => isConnect ev = false) evs ->
    List.length (delaysOf (snd (runEvents l evs)))
    = Nat.min (reconnectionCalls (isConnected (service l)) evs)
              (maxReconnectAttempts l - reconnectAttempts l)
    /\ reconnectAttempts (fst (runEvents l evs))
       = (reconnectAttempts l + List.length (delaysOf (snd (runEvents l evs))))%nat.
Proof.
  induction evs as [|ev evs IH]; intros l Hle Hnc.
  - simpl. split; [reflexivity | lia].
  - inversion Hnc as [|? ? Hc Hnc']; subst.
    destruct (runEvents_cons l ev evs) as [-> ->].
    destruct (onEvent_counters l ev Hc) as [Hmax H].
    rewrite delaysOf_app, length_app.
    rewrite (reconnectionCalls_cons l ev evs Hc).
    destruct (Nat.ltb_spec (reconnectAttempts l) (maxReconnectAttempts l)) as [Hlt|Hge];
      destruct (callsReconnection l ev); simpl in H; destruct H as [Ha Ht];
      (destruct (IH (fst (onEvent l ev))) as [IH1 IH2];
       [rewrite Hmax, Ha; lia | exact Hnc' |]);
      rewrite IH2, IH1, Hmax, Ha, Ht; simpl List.length; split; lia.
Qed.

Lemma reconnect_timers_counted_witness :
  List.length (delaysOf (snd (runEvents (newLink true)
                                [OnError "timeout"; TimerFired true; OnOffline;
                                 TimerFired false])))
  = 2%nat.
Proof.
  destruct (reconnect_timers_counted
              [OnError "timeout"; TimerFired true; OnOffline; TimerFired false]
              (newLink true)) as [Hn _].
  - simpl. lia.
  - repeat constructor.
  - exact Hn.
Defined.

Lemma delays_from (evs : list ClientEvent) :
  forall l : Link,
    Forall (fun ev => isConnect ev = false) evs ->
    StronglySorted Z.le (delaysOf (snd (runEvents l evs)))
    /\ Forall (fun d => reconnectDelay (S (reconnectAttempts l)) <= d)
              (delaysOf (snd (runEvents l evs))).
Proof.
  induction evs as [|ev evs IH]; intros l Hnc.
  - simpl. split; constructor.
  - inversion Hnc as [|? ? Hc Hnc']; subst.
    destruct (runEvents_cons l ev evs) as [_ ->].
    destruct (onEvent_counters l ev Hc) as [_ H].
    destruct (IH (fst (onEvent l ev)) Hnc') as [Hsorted Hfrom].
    rewrite delaysOf_app.
    destruct (callsReconnection l ev
              && (reconnectAttempts l <? maxReconnectAttempts l)%nat);
      destruct H as [Ha Ht]; rewrite Ht, Ha in *; simpl app.
    + split.
      * constructor; [exact Hsorted|].
        eapply Forall_impl; [|exact Hfrom]. simpl. intros d Hd.
        pose proof (reconnectDelay_mono (S (reconnectAttempts l))
                      (S (S (reconnectAttempts l)))). lia.
      * constructor; [lia|].
        eapply Forall_impl; [|exact Hfrom]. simpl. intros d Hd.
        pose proof (reconnectDelay_mono (S (reconnectAttempts l))
                      (S (S (reconnectAttempts l)))). lia.
    + split; assumption.
Qed.

(** X25: every reconnection timer waits between 5 and 30 seconds, the
    wait being 5 seconds times the attempt number, capped at 30; and as long
    as no connection succeeds the waits never get shorter. *)
Theorem reconnect_delays (l : Link) (evs : list ClientEvent) :
  Forall (fun d => 5000 <= d <= 30000) (delaysOf (snd (runEvents l evs)))
  /\ (Forall (fun ev => isConnect ev = false) evs ->
      StronglySorted Z.le (delaysOf (snd (runEvents l evs))))
  /\ (forall n : nat, reconnectDelay n = if (n <? 6)%nat
                                         then 5000 * Z.of_nat n else 30000).
Proof.
  split; [|split].
  - revert l. induction evs as [|ev evs IH]; intros l; [constructor|].
    destruct (runEvents_cons l ev evs) as [_ ->].
    rewrite delaysOf_app. apply Forall_app. split; [|apply IH].
    destruct (isConnect ev) eqn:Hc.
    + destruct ev; try discriminate Hc. rewrite onEvent_connect.
      cbn [snd]. rewrite delaysOf_app, delaysOf_Subscribed. constructor.
    + destruct (onEvent_counters l ev Hc) as [_ H].
      destruct (callsReconnection l ev
                && (reconnectAttempts l <? maxReconnectAttempts l)%nat);
        destruct H as [_ Ht]; rewrite Ht; constructor;
        [apply reconnectDelay_bounds | constructor].
  - intros Hnc. apply (delays_from evs l Hnc).
  - intros n. unfold reconnectDelay.
    destruct (Nat.ltb_spec n 6); lia.
Qed.

(** X26: at the cap, an error or a close of the client sets no timer and
    leaves the counter where it is; the service is marked disconnected and
    raises [maxReconnectAttemptsReached]. *)
Theorem reconnect_gives_up (l : Link) (ev : ClientEvent) :
  isFailure ev = true ->
  (maxReconnectAttempts l <= reconnectAttempts l)%nat ->
  reconnectAttempts (fst (onEvent l ev)) = reconnectAttempts l
  /\ isConnected (service (fst (onEvent l ev))) = false
  /\ delaysOf (snd (onEvent l ev)) = []
  /\ In (Did (ServiceEmit "maxReconnectAttemptsReached")) (snd (onEvent l ev)).
Proof.
  intros Hf Hcap.
  assert (Hh : handleReconnection (setConnected l false)
               = (setConnected l false,
                  [Did (ServiceEmit "maxReconnectAttemptsReached")])).
  { unfold handleReconnection. simpl.
    destruct (Nat.ltb_spec (reconnectAttempts l) (maxReconnectAttempts l));
      [lia | reflexivity]. }
  destruct ev as [|message| | | |raises]; try discriminate Hf; simpl; rewrite Hh; simpl.
  - repeat split.
    + rewrite delaysOf_app.
      destruct (includes message "Not authorized"
                || includes message "Connection refused"); reflexivity.
    + apply in_or_app. right. left. reflexivity.
  - repeat split. left. reflexivity.
Qed.

Lemma reconnect_gives_up_witness :
  delaysOf (snd (onEvent {| service := {| isConnected := false;
                                          clientAccepts := true |};
                            reconnectAttempts := 10;
                            maxReconnectAttempts := 10 |} OnClose)) = [].
Proof.
  destruct (reconnect_gives_up
              {| service := {| isConnected := false; clientAccepts := true |};
                 reconnectAttempts := 10; maxReconnectAttempts := 10 |} OnClose)
    as [_ [_ [Hd _]]].
  - reflexivity.
  - simpl. lia.
  - exact Hd.
Defined.

(** X27: whatever happened before, a successful connection leaves the
    service connected with its counter back at [0]; it subscribes to the
    twelve topics at [qos 1], hands the client the retained [online] notice
    and raises [connected].  A [disconnect] then hands the client the
    retained [offline] notice, and ends the client only if that notice was
    accepted; a [disconnect] of a service that is not connected does nothing
    at all. *)
Theorem connect_and_disconnect (l : Link) (evs : list ClientEvent) :
  isConnected (service (fst (runEvents l (evs ++ [OnConnect])))) = true
  /\ reconnectAttempts (fst (runEvents l (evs ++ [OnConnect]))) = 0%nat
  /\ snd (runEvents l (evs ++ [OnConnect]))
     = snd (runEvents l evs)
         ++ map (fun topic => Subscribed topic 1) topicsToSubscribe
         ++ [Did (ClientPublish SYSTEM_STATUS (SystemStatus "online") 1 true false);
             Did (ServiceEmit "connected")]
  /\ disconnect (fst (runEvents l (evs ++ [OnConnect])))
     = Did (ClientPublish SYSTEM_STATUS (SystemStatus "offline") 1 true false)
       :: (if clientAccepts (service (fst (runEvents l evs)))
           then [ClientEnded] else [])
  /\ (isConnected (service l) = false -> disconnect l = []).
Proof.
  destruct (runEvents_app evs [OnConnect] l) as [Hfst Hsnd].
  rewrite Hfst, Hsnd.
  cbn [runEvents]. rewrite onEvent_connect. cbn [fst snd].
  rewrite app_nil_r.
  split; [reflexivity|]. split; [reflexivity|]. split; [reflexivity|].
  split.
  - unfold disconnect, publishSystemStatus, publish. simpl.
    destruct (clientAccepts (service (fst (runEvents l evs)))); reflexivity.
  - intros Hdown. unfold disconnect. rewrite Hdown. reflexivity.
Qed.

(** * Properties of the users table and its router *)

(** X29: deleting a user removes exactly the users of that identifier and
    keeps the others in their order; updating a user keeps the rows and
    their identifiers and gives the rows of that identifier the name and the
    role of the request, unchecked.  Both answer with success even when no
    user has the identifier, in which case the table is unchanged. *)
Theorem user_delete_and_update (tbl : UserTable) (now id : Z)
  (n role : option string) :
  users (fst (delete_user tbl id))
  = filter (fun u => negb (user_id u =? id)) (users tbl)
  /\ (forall u, In u (users (fst (delete_user tbl id))) <->
                In u (users tbl) /\ user_id u <> id)
  /\ snd (delete_user tbl id) = UserDeleted
  /\ snd (put_update_user tbl now id n role) = UserUpdated
  /\ map user_id (users (fst (put_update_user tbl now id n role)))
     = map user_id (users tbl)
  /\ Forall (fun u => user_id u = id -> user_name u = n /\ user_role u = role)
            (users (fst (put_update_user tbl now id n role)))
  /\ (Forall (fun u => user_id u <> id) (users tbl) ->
      fst (delete_user tbl id) = tbl
      /\ fst (put_update_user tbl now id n role) = tbl).
Proof.
  split; [reflexivity|].
  split.
  { intros u. simpl. rewrite filter_In.
    destruct (Z.eqb_spec (user_id u) id) as [E|Hne]; simpl.
    - split; [intros [_ H]; discriminate | intros [_ H]; contradiction].
    - tauto. }
  split; [reflexivity|]. split; [reflexivity|].
  split.
  { simpl. rewrite map_map. apply map_ext.
    intros u. destruct (user_id u =? id); reflexivity. }
  split.
  { simpl. apply Forall_map. apply Forall_forall. intros u _.
    destruct (Z.eqb_spec (user_id u) id) as [E|Hne]; simpl.
    - intros _. split; reflexivity.
    - intros H. contradiction. }
  intros Hnone. simpl. unfold deleteUser, updateUser.
  assert (Hf : filter (fun u => negb (user_id u =? id)) (users tbl) = users tbl).
  { apply filter_all. rewrite Forall_forall in Hnone. intros u Hu.
    specialize (Hnone u Hu). apply negb_true_iff, Z.eqb_neq. exact Hnone. }
  assert (Hm : map (fun u => if user_id u =? id
                             then {| user_id := user_id u; user_name := n;
                                     user_role := role;
                                     user_created_at := user_created_at u;
                                     user_updated_at := now |}
                             else u) (users tbl) = users tbl).
  { rewrite <- (map_id (users tbl)) at 2. apply map_ext_in.
    rewrite Forall_forall in Hnone. intros u Hu.
    specialize (Hnone u Hu). apply Z.eqb_neq in Hnone. rewrite Hnone. reflexivity. }
  rewrite Hf, Hm. destruct tbl; split; reflexivity.
Qed.
